(** * KJBot trading engine: a shallow embedding of [backend/trading_engine.py]

    The engine turns a TradingView signal (a JSON object) into calls on a
    ccxt exchange object.  The embedding keeps the shape of the Python code:

    - JSON / Python values are a tagged union [pyval] of null, booleans,
      numbers and strings (arrays and nested objects, which no field of a
      signal is documented to hold, are not represented); a signal is a
      dictionary [gmap string pyval];
    - a Python number is an [int] of any size or a [float]; floats are the
      binary64 numbers of the standard library's [SpecFloat], with their
      rounding to nearest-even, signed zeros, infinities and NaN; [bool] is
      the subtype of [int] it is in Python;
    - a Python [str] is held as its UTF-8 encoding; the three builtins whose
      result depends on the interpreter's Unicode tables ([str.upper],
      [str.lower] and [float] on a [str]) are taken as given, in the class
      [Builtins];
    - a raised exception is the left summand of [exn + A]; a [try] whose
      [except] returns is [catch_all];
    - the ccxt exchange object is an interface [Gateway] over an arbitrary
      venue state; every call made on it is appended to the world's journal
      [calls], so that "no order is placed" is a statement about the journal;
    - [logger] calls have no effect on the result and are left out. *)

From Stdlib Require Import ZArith SpecFloat String Ascii.
From stdpp Require Import gmap strings list fin_maps.

Local Open Scope string_scope.

(** ** Exceptions *)

Inductive exn :=
| TypeError
| AttributeError
| ValueError
| ZeroDivisionError
| OverflowError
| MemoryError
| ExchangeError (msg : string).

(** Values of the pure fragment: either a raised exception or a value. *)
Definition res (A : Type) : Type := exn + A.

Definition res_bind {A B} (r : res A) (k : A -> res B) : res B :=
  match r with
  | inl e => inl e
  | inr a => k a
  end.

(** ** Numbers *)

Module Num.

Local Open Scope Z_scope.

(** binary64.  A float is a [spec_float] in the canonical form of
    [valid_binary prec emax], the form in which the operations below return
    their results. *)
Definition prec : Z := 53.
Definition emax : Z := 1024.

Abbreviation float := spec_float.

(** A Python number: an [int] or a [float]. *)
Inductive number :=
| Int (n : Z)
| Float (x : float).

Definition nan (x : float) : bool :=
  match x with
  | S754_nan => true
  | _ => false
  end.

Definition infinite (x : float) : bool :=
  match x with
  | S754_infinity _ => true
  | _ => false
  end.

Definition is_nan (a : number) : bool :=
  match a with
  | Float x => nan x
  | Int _ => false
  end.

(** [a == 0]: the integer zero and the two float zeros. *)
Definition is_zero (a : number) : bool :=
  match a with
  | Int n => n =? 0
  | Float (S754_zero _) => true
  | Float _ => false
  end.

(** The float nearest to the integer [n] (ties to even); an infinity when
    [n] is out of range. *)
Definition of_Z (n : Z) : float := binary_normalize prec emax n 0 false.

(** The float nearest to the quotient [n / d] of two integers, [d <> 0]; an
    infinity when the quotient is out of range.  ([0 / d] is a zero with the
    sign of [d].) *)
Definition ratio (n d : Z) : float :=
  match n, d with
  | Z0, _ => S754_zero (d <? 0)
  | _, Z0 => S754_nan
  | _, _ =>
      SFdiv prec emax (S754_finite (n <? 0) (Z.to_pos (Z.abs n)) 0)
                      (S754_finite (d <? 0) (Z.to_pos (Z.abs d)) 0)
  end.

(** The float a decimal literal [n * 10^-k] denotes. *)
Definition decimal (n : Z) (k : Z) : float := ratio n (10 ^ k).

(** [float(a)]: an [int] too large for a float raises. *)
Definition to_float (a : number) : res float :=
  match a with
  | Float x => inr x
  | Int n => let x := of_Z n in
             if infinite x then inl OverflowError else inr x
  end.

(** [a * b]: exact on two [int]s; otherwise both operands are converted
    and the product is the IEEE one (an overflow gives an infinity). *)
Definition mul (a b : number) : res number :=
  match a, b with
  | Int m, Int n => inr (Int (m * n))
  | _, _ =>
      res_bind (to_float a) (fun x =>
      res_bind (to_float b) (fun y =>
      inr (Float (SFmul prec emax x y))))
  end.

(** [a / b], true division: the correctly rounded quotient of two [int]s,
    the IEEE quotient otherwise; a zero divisor raises. *)
Definition div (a b : number) : res number :=
  match a, b with
  | Int m, Int n =>
      if n =? 0 then inl ZeroDivisionError
      else let x := ratio m n in
           if infinite x then inl OverflowError else inr (Float x)
  | _, _ =>
      res_bind (to_float a) (fun x =>
      res_bind (to_float b) (fun y =>
      if is_zero (Float y) then inl ZeroDivisionError
      else inr (Float (SFdiv prec emax x y))))
  end.

(** An [int] against a float, by their exact values. *)
Definition Zcompare_float (n : Z) (x : float) : option comparison :=
  match x with
  | S754_nan => None
  | S754_infinity s => Some (if s then Gt else Lt)
  | S754_zero _ => Some (n ?= 0)
  | S754_finite s m e =>
      let v := if s then Zneg m else Zpos m in
      Some match e with
           | Zneg k => n * 2 ^ Zpos k ?= v
           | _ => n ?= v * 2 ^ e
           end
  end.

(** The order of two numbers; [None] when one of them is NaN. *)
Definition compare (a b : number) : option comparison :=
  match a, b with
  | Int m, Int n => Some (m ?= n)
  | Int m, Float y => Zcompare_float m y
  | Float x, Int n => option_map CompOpp (Zcompare_float n x)
  | Float x, Float y => SFcompare x y
  end.

(** [a <= b] and [a < b]; both are [False] on NaN. *)
Definition leb (a b : number) : bool :=
  match compare a b with
  | Some (Lt | Eq) => true
  | _ => false
  end.

Definition ltb (a b : number) : bool :=
  match compare a b with
  | Some Lt => true
  | _ => false
  end.

(** The integer nearest to [a / b] for [0 <= a] and [0 < b], ties to the
    even one. *)
Definition half_even (a b : Z) : Z :=
  let q := a / b in
  let r := a mod b in
  match 2 * r ?= b with
  | Lt => q
  | Gt => q + 1
  | Eq => if Z.even q then q else q + 1
  end.

(** [m * 2^e] in hundredths, to the nearest integer. *)
Definition cents (m : positive) (e : Z) : Z :=
  match e with
  | Zneg k => half_even (Zpos m * 100) (2 ^ Zpos k)
  | _ => Zpos m * 100 * 2 ^ e
  end.

(** [round(a, 2)].  An [int] is returned as it is.  A finite float is
    rounded, from its exact value, to the nearest multiple of 1/100 (ties to
    the even one), and the result is the float nearest to that decimal; the
    sign is kept; infinities and NaN round to themselves. *)
Definition round2 (a : number) : number :=
  match a with
  | Int n => Int n
  | Float (S754_finite s m e) =>
      let t := cents m e in
      Float (if t =? 0 then S754_zero s
             else ratio (if s then - t else t) 100)
  | Float x => Float x
  end.

End Num.

Export Num (number, Int, Float).

Arguments Int n%_Z.

(** The floats written [n.0] and [n * 10^-k] in the examples. *)
Definition whole (n : Z) : number := Float (Num.of_Z n).
Definition decimal (n k : Z) : number := Float (Num.decimal n k).

(** ** Python values *)

Inductive pyval :=
| VNone
| VBool (b : bool)
| VNum (n : number)
| VStr (s : string).

(** The number a Python value stands for in arithmetic and comparisons:
    [bool] is a subtype of [int]; [None] and [str] raise [TypeError]. *)
Definition as_number (v : pyval) : res number :=
  match v with
  | VNum n => inr n
  | VBool b => inr (Int (if b then 1 else 0))
  | VNone | VStr _ => inl TypeError
  end.

(** The count a Python value stands for in a repetition: an [int] or a
    [bool]. *)
Definition as_index (v : pyval) : res Z :=
  match v with
  | VNum (Int n) => inr n
  | VBool b => inr (if b then 1 else 0)%Z
  | _ => inl TypeError
  end.

(** [a / b], true division; only numbers have it. *)
Definition py_div (a b : pyval) : res number :=
  res_bind (as_number a) (fun x =>
  res_bind (as_number b) (fun y => Num.div x y)).

(** ** Strings *)

Module Str.

(** [s.replace(".P", "")]: every occurrence, scanning left to right. *)
Fixpoint replace_dotP (s : string) : string :=
  match s with
  | EmptyString => EmptyString
  | String c s' =>
      match s' with
      | String c' s'' =>
          if Ascii.eqb c "." && Ascii.eqb c' "P"
          then replace_dotP s''
          else String c (replace_dotP s')
      | EmptyString => String c EmptyString
      end
  end.

(** [s.endswith(suffix)] *)
Definition endswith (s suffix : string) : bool :=
  let n := String.length s in
  let k := String.length suffix in
  (k <=? n)%nat && String.eqb (substring (n - k) k s) suffix.

(** The bytes [10xxxxxx], which continue a character. *)
Definition continuation (c : ascii) : bool :=
  let n := nat_of_ascii c in
  (128 <=? n)%nat && (n <? 192)%nat.

(** [len(s)]: the number of characters. *)
Fixpoint len (s : string) : nat :=
  match s with
  | EmptyString => 0
  | String c s' => (if continuation c then 0 else 1) + len s'
  end.

(** [s[:n]] *)
Fixpoint take (n : nat) (s : string) : string :=
  match s with
  | EmptyString => EmptyString
  | String c s' =>
      if continuation c then String c (take n s')
      else match n with
           | O => EmptyString
           | S n' => String c (take n' s')
           end
  end.

(** [s[:-k]] for [k > 0] *)
Definition drop_last (k : nat) (s : string) : string :=
  take (len s - k) s.

(** [needle in s] *)
Fixpoint contains (needle s : string) : bool :=
  String.prefix needle s ||
  match s with
  | EmptyString => false
  | String _ s' => contains needle s'
  end.

End Str.

(** The builtins taken as given.  [s.upper()], [s.lower()] and [float(s)]
    on a [str] depend on the interpreter's Unicode tables; [float(s)] answers
    [None] where Python raises [ValueError].  [s * n] is the string [s]
    repeated, or the [OverflowError] or [MemoryError] raised when the count
    does not fit an index or the result cannot be built. *)
Class Builtins := {
  str_upper : string -> string;
  str_lower : string -> string;
  str_to_float : string -> option Num.float;
  str_repeat : string -> Z -> res string
}.

Section Conversions.
Context `{!Builtins}.

(** [a * b]: the product of two numbers, the repetition of a [str] by an
    [int]; [TypeError] on anything else. *)
Definition py_mul (a b : pyval) : res pyval :=
  match a, b with
  | VStr s, _ =>
      res_bind (as_index b) (fun n =>
      res_bind (str_repeat s n) (fun t => inr (VStr t)))
  | _, VStr s =>
      res_bind (as_index a) (fun n =>
      res_bind (str_repeat s n) (fun t => inr (VStr t)))
  | _, _ =>
      res_bind (as_number a) (fun x =>
      res_bind (as_number b) (fun y =>
      res_bind (Num.mul x y) (fun z => inr (VNum z))))
  end.

(** [v.replace(".P", "").upper()]; only [str] has the method. *)
Definition py_strip_upper (v : pyval) : res string :=
  match v with
  | VStr s => inr (str_upper (Str.replace_dotP s))
  | _ => inl AttributeError
  end.

(** [v.lower()] *)
Definition py_lower (v : pyval) : res string :=
  match v with
  | VStr s => inr (str_lower s)
  | _ => inl AttributeError
  end.

(** [float(v)] *)
Definition py_float (v : pyval) : res Num.float :=
  match v with
  | VNum n => Num.to_float n
  | VBool b => inr (Num.of_Z (if b then 1 else 0))
  | VStr s => match str_to_float s with
              | Some x => inr x
              | None => inl ValueError
              end
  | VNone => inl TypeError
  end.

End Conversions.

(** [needle in v]: substring test on [str], [TypeError] on [None], numbers
    and booleans (they are not iterable). *)
Definition py_contains (needle : string) (v : pyval) : res bool :=
  match v with
  | VStr s => inr (Str.contains needle s)
  | _ => inl TypeError
  end.

(** [v == s] for a string literal [s] *)
Definition py_eq_str (v : pyval) (s : string) : bool :=
  match v with
  | VStr t => String.eqb t s
  | _ => false
  end.

(** ** Data model *)

(** A signal is the JSON object posted to the webhook. *)
Abbreviation Signal := (gmap string pyval).

(** The two ccxt classes the engine instantiates ([ccxt.binance] with
    [defaultType = future], and [ccxt.upbit]). *)
Inductive Venue := Binance | Upbit.

(** [isinstance(exchange, ccxt.binance)] *)
Definition is_binance (exchange : Venue) : bool :=
  match exchange with
  | Binance => true
  | Upbit => false
  end.

(** An entry of the table returned by [load_markets()]; only ['id'] is read. *)
Record Market := { market_id : string }.
Abbreviation Markets := (gmap string Market).

(** The result of [fetch_balance()]; only [balance['free']] is read. *)
Record Balance := { free : gmap string pyval }.

(** An element of [fetch_positions(...)]: ['side'] and ['contracts'], either
    of which ccxt may report as [None]. *)
Record Position := { side : option string; contracts : option number }.

(** The result of [fetch_ticker(...)]; only ['last'] is read. *)
Record Ticker := { last : pyval }.

(** The receipt returned by the order calls; the engine passes it through. *)
Record Order := { order_id : string }.

(** The calls the engine makes on an exchange object.  The last argument of
    the order calls is the [reduceOnly] flag of the optional [params]
    dictionary: [false] when the engine passes no [params]. *)
Inductive Call :=
| CallFetchBalance (exchange : Venue)
| CallLoadMarkets (exchange : Venue)
| CallFetchPositions (exchange : Venue) (symbols : list string)
| CallSetLeverage (exchange : Venue) (leverage : pyval) (symbol : string)
| CallFetchTicker (exchange : Venue) (symbol : string)
| CallCreateMarketBuyOrder (exchange : Venue) (symbol : string)
                           (quantity : number) (reduce_only : bool)
| CallCreateMarketSellOrder (exchange : Venue) (symbol : string)
                            (quantity : number) (reduce_only : bool).

(** The venue behind the exchange objects: any state [X] with one transition
    per call, each answering with a value or raising. *)
Class Gateway (X : Type) := {
  gw_fetch_balance : Venue -> X -> res Balance * X;
  gw_load_markets : Venue -> X -> res Markets * X;
  gw_fetch_positions : Venue -> list string -> X -> res (list Position) * X;
  gw_set_leverage : Venue -> pyval -> string -> X -> res unit * X;
  gw_fetch_ticker : Venue -> string -> X -> res Ticker * X;
  gw_create_market_buy_order :
    Venue -> string -> number -> bool -> X -> res Order * X;
  gw_create_market_sell_order :
    Venue -> string -> number -> bool -> X -> res Order * X
}.

(** The human-readable messages of the results, one constructor per format
    string of the source (the line of the string is given with each); the
    arguments are the values the string interpolates. *)
Inductive Message :=
| MsgTradingDisabled                                  (* line 91 *)
| MsgExchangeNotConnected (exchange_name : string)    (* line 99 *)
| MsgUnknownAction (action : pyval)                   (* line 140 *)
| MsgExecutionError (e : exn)                         (* line 148 *)
| MsgAlreadyLong                                      (* line 213 *)
| MsgAlreadyShort                                     (* line 291 *)
| MsgShortCloseFailed (close_message : Message)       (* line 224 *)
| MsgLongCloseFailed (close_message : Message)        (* line 302 *)
| MsgLongEntryOk                                      (* line 260 *)
| MsgShortEntryOk                                     (* line 338 *)
| MsgLongEntryFailed (e : exn)                        (* line 276 *)
| MsgShortEntryFailed (e : exn)                       (* line 354 *)
| MsgCloseRatioRange (percent : pyval)                (* lines 367, 441 *)
| MsgNoLongPosition                                   (* line 379 *)
| MsgNoShortPosition                                  (* line 453 *)
| MsgCloseQuantityNotPositive (position_size : number) (percent : pyval)
                                                      (* lines 391, 465 *)
| MsgLongExitOk (percent : pyval)                     (* line 412 *)
| MsgShortExitOk (percent : pyval)                    (* line 486 *)
| MsgLongExitFailed (e : exn)                         (* line 428 *)
| MsgShortExitFailed (e : exn).                       (* line 502 *)

(** The ["details"] entry of a successful result. *)
Inductive Details :=
| EntryDetails (symbol : pyval) (order_side : string) (quantity : number)
               (price : pyval) (leverage : pyval)
| ExitDetails (symbol : pyval) (order_side : string) (quantity : number)
              (position_size : number) (percent : pyval).

(** The dictionary every handler returns.  ["order"] and ["details"] are
    present on successful order placement only.  ["signal"] is the signal
    object itself (not a copy): [r_signal] is its content at return. *)
Record Result := {
  success : bool;
  message : Message;
  order : option Order;
  r_signal : Signal;
  details : option Details
}.

Definition failure (m : Message) (signal : Signal) : Result :=
  {| success := false; message := m; order := None; r_signal := signal;
     details := None |}.

Definition informational (m : Message) (signal : Signal) : Result :=
  {| success := true; message := m; order := None; r_signal := signal;
     details := None |}.

Definition placed (m : Message) (o : Order) (signal : Signal) (d : Details)
  : Result :=
  {| success := true; message := m; order := Some o; r_signal := signal;
     details := Some d |}.

(** [self.exchanges] and the two settings of [self.config["trading"]] the
    engine reads. *)
Record TradingEngine := {
  exchanges : gmap string Venue;
  enable_trading : bool;
  default_leverage : pyval
}.

(** ** Effects: venue state, call journal, exceptions *)

Section Effects.
Context {X : Type}.

Record World := { venue : X; calls : list Call }.

(** A computation that always returns. *)
Definition St (A : Type) : Type := World -> A * World.

(** A computation that returns or raises. *)
Definition M (A : Type) : Type := St (res A).

Definition ret {A} (a : A) : M A := fun w => (inr a, w).

Definition raise {A} (e : exn) : M A := fun w => (inl e, w).

Definition bind {A B} (m : M A) (k : A -> M B) : M B :=
  fun w =>
    match m w with
    | (inr a, w') => k a w'
    | (inl e, w') => (inl e, w')
    end.

(** A pure step that may raise. *)
Definition lift {A} (r : res A) : M A := fun w => (r, w).

(** A call of a function that handles its own exceptions. *)
Definition call {A} (m : St A) : M A :=
  fun w => let (a, w') := m w in (inr a, w').

(** [try: m  except Exception as e: return h e] around a whole body. *)
Definition catch_all {A} (m : M A) (h : exn -> A) : St A :=
  fun w =>
    match m w with
    | (inr a, w') => (a, w')
    | (inl e, w') => (h e, w')
    end.

(** One call on the exchange object: journal it, then let the venue answer. *)
Definition invoke {A} (c : Call) (f : X -> res A * X) : M A :=
  fun w =>
    let (r, x') := f (venue w) in
    (r, {| venue := x'; calls := calls w ++ [c] |}).

End Effects.

Arguments World : clear implicits.
Arguments St : clear implicits.
Arguments M : clear implicits.

Declare Scope engine_scope.
Delimit Scope engine_scope with engine.
Notation "x <- m ;; k" := (bind m (fun x => k))
  (at level 100, m at next level, right associativity) : engine_scope.

(** ** The engine *)

(** [key in signal] *)
Definition has_key (key : string) (signal : Signal) : bool :=
  match signal !! key with
  | Some _ => true
  | None => false
  end.

(** [percent <= 0 or percent > 100] *)
Definition percent_out_of_range (percent : pyval) : res bool :=
  res_bind (as_number percent) (fun p =>
  inr (Num.leb p (Int 0) || Num.ltb (Int 100) p)).

(** [percent / 100] *)
Definition percent_ratio (percent : pyval) : res number :=
  res_bind (as_number percent) (fun p => Num.div p (Int 100)).

(** Lines 395-397 and 469-471: a close quantity above the position size is
    replaced by the position size. *)
Definition clamp_to (position_size close_quantity : number) : number :=
  if Num.ltb position_size close_quantity then position_size
  else close_quantity.

(** Lines 114-118: the 10-unit floor and the rounding of compound mode. *)
Definition floor_and_round (calculated_amount : number) : number :=
  Num.round2 (if Num.ltb calculated_amount (Int 10) then Int 11
              else calculated_amount).

(** Lines 112-118: the amount compound mode derives from the free balance
    and the percent,
    [round(free_usdt * (float(percent) / 100.0), 2)] with the floor. *)
Definition compound_of `{!Builtins} (free_usdt percent : pyval) : res number :=
  res_bind (py_float percent) (fun p =>
  res_bind (Num.div (Float p) (whole 100)) (fun ratio =>
  res_bind (py_mul free_usdt (VNum ratio)) (fun product =>
  res_bind (as_number product) (fun calculated_amount =>
  inr (floor_and_round calculated_amount))))).

(** [position['contracts']] used as a number *)
Definition position_contracts (position : Position) : res number :=
  match contracts position with
  | Some c => inr c
  | None => inl TypeError
  end.

(** [p['side'] == side] *)
Definition side_is (side_ : string) (p : Position) : bool :=
  match side p with
  | Some s => String.eqb s side_
  | None => false
  end.

(** What [execute_signal] decides before it touches the exchange (lines
    76-103): an early result, or the exchange object and the symbol to use. *)
Inductive Routing :=
| Rejected (r : Result)
| Routed (exchange : Venue) (symbol : pyval).

Definition route `{!Builtins} (self : TradingEngine) (signal : Signal)
  : res Routing :=
  let symbol := default (VStr "BTCUSDT") (signal !! "symbol") in
  res_bind (py_lower (default (VStr "binance") (signal !! "exchange")))
    (fun exchange_name =>
  res_bind (if String.eqb exchange_name "binance"
            then res_bind (py_strip_upper symbol) (fun s => inr (VStr s))
            else inr symbol)
    (fun symbol =>
  if negb (enable_trading self)
  then inr (Rejected (failure MsgTradingDisabled signal))
  else
    match exchanges self !! exchange_name with
    | None =>
        inr (Rejected (failure (MsgExchangeNotConnected exchange_name) signal))
    | Some exchange => inr (Routed exchange symbol)
    end)).

Section Engine.
Context `{!Builtins} {X : Type} `{!Gateway X}.
Local Open Scope engine_scope.

(** *** Calls on the exchange object *)

Definition fetch_balance (exchange : Venue) : M X Balance :=
  invoke (CallFetchBalance exchange) (gw_fetch_balance exchange).

Definition load_markets (exchange : Venue) : M X Markets :=
  invoke (CallLoadMarkets exchange) (gw_load_markets exchange).

Definition fetch_positions (exchange : Venue) (symbols : list string)
  : M X (list Position) :=
  invoke (CallFetchPositions exchange symbols)
         (gw_fetch_positions exchange symbols).

Definition set_leverage (exchange : Venue) (leverage : pyval)
  (symbol : string) : M X unit :=
  invoke (CallSetLeverage exchange leverage symbol)
         (gw_set_leverage exchange leverage symbol).

Definition fetch_ticker (exchange : Venue) (symbol : string) : M X Ticker :=
  invoke (CallFetchTicker exchange symbol) (gw_fetch_ticker exchange symbol).

Definition create_market_buy_order (exchange : Venue) (symbol : string)
  (quantity : number) (reduce_only : bool) : M X Order :=
  invoke (CallCreateMarketBuyOrder exchange symbol quantity reduce_only)
         (gw_create_market_buy_order exchange symbol quantity reduce_only).

Definition create_market_sell_order (exchange : Venue) (symbol : string)
  (quantity : number) (reduce_only : bool) : M X Order :=
  invoke (CallCreateMarketSellOrder exchange symbol quantity reduce_only)
         (gw_create_market_sell_order exchange symbol quantity reduce_only).

(** *** [_normalize_symbol] (lines 152-186)

    The local [symbol] is reassigned on line 157; the [except] branch
    strips and upper-cases whatever [symbol] holds when it runs: the
    argument if line 157 itself raised (and then it raises again), the
    already stripped ticker otherwise. *)
Definition _normalize_symbol (exchange : Venue) (symbol : pyval)
  : M X string :=
  match py_strip_upper symbol with
  | inl _ => lift (py_strip_upper symbol)
  | inr symbol =>
      call (catch_all
        (if is_binance exchange then
           markets <- load_markets exchange ;;
           match markets !! symbol with
           | Some market => ret (market_id market)
           | None =>
               if (4 <? Str.len symbol)%nat && Str.endswith symbol "USDT"
               then
                 let base := Str.drop_last 4 symbol in
                 let unified_symbol := base ++ "/USDT:USDT" in
                 match markets !! unified_symbol with
                 | Some market => ret (market_id market)
                 | None => ret symbol
                 end
               else ret symbol
           end
         else ret symbol)
        (fun _ => str_upper (Str.replace_dotP symbol)))
  end.

(** *** [_get_position] (lines 188-200) *)
Definition _get_position (exchange : Venue) (symbol : pyval) (side_ : string)
  : St X (option Position) :=
  catch_all
    (normalized_symbol <- _normalize_symbol exchange symbol ;;
     positions <- fetch_positions exchange [normalized_symbol] ;;
     match List.find (side_is side_) positions with
     | Some position =>
         c <- lift (position_contracts position) ;;
         ret (if Num.ltb (Int 0) c then Some position else None)
     | None => ret None
     end)
    (fun _ => None).

(** Lines 383-422 of [_execute_long_exit]: sizing and placing the closing
    order once a long position has been found. *)
Definition close_long_position (exchange : Venue) (symbol : pyval)
  (signal : Signal) (percent : pyval) (long_position : Position)
  : M X Result :=
  position_size <- lift (position_contracts long_position) ;;
  ratio <- lift (percent_ratio percent) ;;
  close_quantity <- lift (Num.mul position_size ratio) ;;
  if Num.leb close_quantity (Int 0)
  then ret (failure (MsgCloseQuantityNotPositive position_size percent)
              signal)
  else
    let close_quantity := clamp_to position_size close_quantity in
    normalized_symbol <- _normalize_symbol exchange symbol ;;
    order <- create_market_sell_order exchange normalized_symbol
               close_quantity true ;;
    ret (placed (MsgLongExitOk percent) order signal
           (ExitDetails symbol "sell" close_quantity position_size percent)).

(** Lines 457-496 of [_execute_short_exit]. *)
Definition close_short_position (exchange : Venue) (symbol : pyval)
  (signal : Signal) (percent : pyval) (short_position : Position)
  : M X Result :=
  position_size <- lift (position_contracts short_position) ;;
  ratio <- lift (percent_ratio percent) ;;
  close_quantity <- lift (Num.mul position_size ratio) ;;
  if Num.leb close_quantity (Int 0)
  then ret (failure (MsgCloseQuantityNotPositive position_size percent)
              signal)
  else
    let close_quantity := clamp_to position_size close_quantity in
    normalized_symbol <- _normalize_symbol exchange symbol ;;
    order <- create_market_buy_order exchange normalized_symbol
               close_quantity true ;;
    ret (placed (MsgShortExitOk percent) order signal
           (ExitDetails symbol "buy" close_quantity position_size percent)).

(** *** [_execute_long_exit] (lines 358-430) *)
Definition _execute_long_exit (exchange : Venue) (symbol : pyval)
  (signal : Signal) : St X Result :=
  catch_all
    (let percent := default (VNum (Int 100)) (signal !! "percent") in
     out_of_range <- lift (percent_out_of_range percent) ;;
     if out_of_range
     then ret (failure (MsgCloseRatioRange percent) signal)
     else
       long_position <- call (_get_position exchange symbol "long") ;;
       match long_position with
       | None => ret (informational MsgNoLongPosition signal)
       | Some long_position =>
           close_long_position exchange symbol signal percent long_position
       end)
    (fun e => failure (MsgLongExitFailed e) signal).

(** *** [_execute_short_exit] (lines 432-504) *)
Definition _execute_short_exit (exchange : Venue) (symbol : pyval)
  (signal : Signal) : St X Result :=
  catch_all
    (let percent := default (VNum (Int 100)) (signal !! "percent") in
     out_of_range <- lift (percent_out_of_range percent) ;;
     if out_of_range
     then ret (failure (MsgCloseRatioRange percent) signal)
     else
       short_position <- call (_get_position exchange symbol "short") ;;
       match short_position with
       | None => ret (informational MsgNoShortPosition signal)
       | Some short_position =>
           close_short_position exchange symbol signal percent short_position
       end)
    (fun e => failure (MsgShortExitFailed e) signal).

(** The best-effort leverage setting of the entry handlers (lines 236-242
    and 314-320): Binance only, any exception swallowed. *)
Definition set_leverage_best_effort (exchange : Venue) (leverage : pyval)
  (normalized_symbol : string) : St X unit :=
  if is_binance exchange
  then catch_all (set_leverage exchange leverage normalized_symbol)
                 (fun _ => tt)
  else fun w => (tt, w).

(** Lines 229-270 of [_execute_long_entry]: what runs once the position
    checks have let the entry through. *)
Definition place_long_entry (self : TradingEngine) (exchange : Venue)
  (symbol : pyval) (signal : Signal) : M X Result :=
  let leverage := default (default_leverage self) (signal !! "leverage") in
  let amount_usdt := default (VNum (Int 100)) (signal !! "amount") in
  normalized_symbol <- _normalize_symbol exchange symbol ;;
  _ <- call (set_leverage_best_effort exchange leverage normalized_symbol) ;;
  ticker <- fetch_ticker exchange normalized_symbol ;;
  let current_price := last ticker in
  notional <- lift (py_mul amount_usdt leverage) ;;
  quantity <- lift (py_div notional current_price) ;;
  order <- create_market_buy_order exchange normalized_symbol quantity false ;;
  ret (placed MsgLongEntryOk order signal
         (EntryDetails symbol "buy" quantity current_price leverage)).

(** Lines 307-348 of [_execute_short_entry]. *)
Definition place_short_entry (self : TradingEngine) (exchange : Venue)
  (symbol : pyval) (signal : Signal) : M X Result :=
  let leverage := default (default_leverage self) (signal !! "leverage") in
  let amount_usdt := default (VNum (Int 100)) (signal !! "amount") in
  normalized_symbol <- _normalize_symbol exchange symbol ;;
  _ <- call (set_leverage_best_effort exchange leverage normalized_symbol) ;;
  ticker <- fetch_ticker exchange normalized_symbol ;;
  let current_price := last ticker in
  notional <- lift (py_mul amount_usdt leverage) ;;
  quantity <- lift (py_div notional current_price) ;;
  order <- create_market_sell_order exchange normalized_symbol quantity false ;;
  ret (placed MsgShortEntryOk order signal
         (EntryDetails symbol "sell" quantity current_price leverage)).

(** *** [_execute_long_entry] (lines 202-278) *)
Definition _execute_long_entry (self : TradingEngine) (exchange : Venue)
  (symbol : pyval) (signal : Signal) : St X Result :=
  catch_all
    (long_position <- call (_get_position exchange symbol "long") ;;
     short_position <- call (_get_position exchange symbol "short") ;;
     match long_position with
     | Some _ => ret (failure MsgAlreadyLong signal)
     | None =>
         match short_position with
         | Some _ =>
             close_result <-
               call (_execute_short_exit exchange symbol
                       {["percent" := VNum (Int 100)]}) ;;
             if negb (success close_result)
             then ret (failure
                         (MsgShortCloseFailed (message close_result)) signal)
             else place_long_entry self exchange symbol signal
         | None => place_long_entry self exchange symbol signal
         end
     end)
    (fun e => failure (MsgLongEntryFailed e) signal).

(** *** [_execute_short_entry] (lines 280-356) *)
Definition _execute_short_entry (self : TradingEngine) (exchange : Venue)
  (symbol : pyval) (signal : Signal) : St X Result :=
  catch_all
    (long_position <- call (_get_position exchange symbol "long") ;;
     short_position <- call (_get_position exchange symbol "short") ;;
     match short_position with
     | Some _ => ret (failure MsgAlreadyShort signal)
     | None =>
         match long_position with
         | Some _ =>
             close_result <-
               call (_execute_long_exit exchange symbol
                       {["percent" := VNum (Int 100)]}) ;;
             if negb (success close_result)
             then ret (failure
                         (MsgLongCloseFailed (message close_result)) signal)
             else place_short_entry self exchange symbol signal
         | None => place_short_entry self exchange symbol signal
         end
     end)
    (fun e => failure (MsgShortEntryFailed e) signal).

(** The compound-mode sizing of [execute_signal] (the [try] of lines
    107-126): the signal with its ["amount"] entry assigned. *)
Definition compound_amount (exchange : Venue) (signal : Signal)
  : St X Signal :=
  catch_all
    (balance <- fetch_balance exchange ;;
     match free balance !! "USDT" with
     | Some free_usdt =>
         amount <-
           lift (compound_of free_usdt (default VNone (signal !! "percent"))) ;;
         ret (<["amount" := VNum amount]> signal)
     | None => ret (<["amount" := VNum (Int 100)]> signal)
     end)
    (fun _ => <["amount" := VNum (Int 100)]> signal).

(** Lines 128-142: the action switch. *)
Definition dispatch (self : TradingEngine) (exchange : Venue)
  (symbol action : pyval) (signal : Signal) : St X Result :=
  if py_eq_str action "long_entry"
  then _execute_long_entry self exchange symbol signal
  else if py_eq_str action "short_entry"
  then _execute_short_entry self exchange symbol signal
  else if py_eq_str action "long_exit"
  then _execute_long_exit exchange symbol signal
  else if py_eq_str action "short_exit"
  then _execute_short_exit exchange symbol signal
  else fun w => (failure (MsgUnknownAction action) signal, w).

(** *** [execute_signal] (lines 58-150)

    The only statement of the body that can raise after [route] is the
    test ["entry" in action], which precedes the assignment to
    [signal['amount']]; the outer [except] therefore echoes the signal as
    received. *)
Definition execute_signal (self : TradingEngine) (signal : Signal)
  : St X Result :=
  catch_all
    (let action := default VNone (signal !! "action") in
     routing <- lift (route self signal) ;;
     match routing with
     | Rejected r => ret r
     | Routed exchange symbol =>
         compound <-
           (if has_key "percent" signal && negb (has_key "amount" signal)
            then lift (py_contains "entry" action)
            else ret false) ;;
         signal <- (if compound : bool
                    then call (compound_amount exchange signal)
                    else ret signal) ;;
         call (dispatch self exchange symbol action signal)
     end)
    (fun e => failure (MsgExecutionError e) signal).

End Engine.

(** ** The two directions

    The long and the short handlers are mirror images; the statements below
    are written once for both. *)

Inductive Direction := Long | Short.

Definition opposite (d : Direction) : Direction :=
  match d with
  | Long => Short
  | Short => Long
  end.

Definition side_name (d : Direction) : string :=
  match d with
  | Long => "long"
  | Short => "short"
  end.

Definition entry_action (d : Direction) : string :=
  match d with
  | Long => "long_entry"
  | Short => "short_entry"
  end.

Definition exit_action (d : Direction) : string :=
  match d with
  | Long => "long_exit"
  | Short => "short_exit"
  end.

(** The order that opens a position in direction [d] (no [params]). *)
Definition opening_order (d : Direction) (exchange : Venue) (symbol : string)
  (quantity : number) : Call :=
  match d with
  | Long => CallCreateMarketBuyOrder exchange symbol quantity false
  | Short => CallCreateMarketSellOrder exchange symbol quantity false
  end.

(** The reduce-only order that closes a position of direction [d]. *)
Definition closing_order (d : Direction) (exchange : Venue) (symbol : string)
  (quantity : number) : Call :=
  match d with
  | Long => CallCreateMarketSellOrder exchange symbol quantity true
  | Short => CallCreateMarketBuyOrder exchange symbol quantity true
  end.

Definition msg_already (d : Direction) : Message :=
  match d with
  | Long => MsgAlreadyLong
  | Short => MsgAlreadyShort
  end.

Definition msg_no_position (d : Direction) : Message :=
  match d with
  | Long => MsgNoLongPosition
  | Short => MsgNoShortPosition
  end.

(** The message of an entry in direction [d] whose flip failed. *)
Definition msg_flip_failed (d : Direction) (close_message : Message) : Message :=
  match d with
  | Long => MsgShortCloseFailed close_message
  | Short => MsgLongCloseFailed close_message
  end.

Definition msg_entry_failed (d : Direction) (e : exn) : Message :=
  match d with
  | Long => MsgLongEntryFailed e
  | Short => MsgShortEntryFailed e
  end.

Definition msg_entry_ok (d : Direction) : Message :=
  match d with
  | Long => MsgLongEntryOk
  | Short => MsgShortEntryOk
  end.

Definition msg_exit_failed (d : Direction) (e : exn) : Message :=
  match d with
  | Long => MsgLongExitFailed e
  | Short => MsgShortExitFailed e
  end.

Definition msg_exit_ok (d : Direction) (percent : pyval) : Message :=
  match d with
  | Long => MsgLongExitOk percent
  | Short => MsgShortExitOk percent
  end.

Definition order_side (d : Direction) : string :=
  match d with
  | Long => "buy"
  | Short => "sell"
  end.

(** Of the two lookups an entry handler makes, the one for direction [d]. *)
Definition found (d : Direction) (long_position short_position : option Position)
  : option Position :=
  match d with
  | Long => long_position
  | Short => short_position
  end.

Section Handlers.
Context `{!Builtins} {X : Type} `{!Gateway X}.

Definition entry_handler (d : Direction)
  : TradingEngine -> Venue -> pyval -> Signal -> St X Result :=
  match d with
  | Long => _execute_long_entry
  | Short => _execute_short_entry
  end.

Definition exit_handler (d : Direction)
  : Venue -> pyval -> Signal -> St X Result :=
  match d with
  | Long => _execute_long_exit
  | Short => _execute_short_exit
  end.

Definition close_position (d : Direction)
  : Venue -> pyval -> Signal -> pyval -> Position -> M X Result :=
  match d with
  | Long => close_long_position
  | Short => close_short_position
  end.

(** The order call with which the exit handler of direction [d] closes. *)
Definition place_closing_order (d : Direction) (exchange : Venue)
  (symbol : string) (quantity : number) : M X Order :=
  match d with
  | Long => create_market_sell_order exchange symbol quantity true
  | Short => create_market_buy_order exchange symbol quantity true
  end.

(** The order call with which the entry handler of direction [d] opens. *)
Definition place_opening_order (d : Direction) (exchange : Venue)
  (symbol : string) (quantity : number) : M X Order :=
  match d with
  | Long => create_market_buy_order exchange symbol quantity false
  | Short => create_market_sell_order exchange symbol quantity false
  end.

Definition place_entry (d : Direction)
  : TradingEngine -> Venue -> pyval -> Signal -> M X Result :=
  match d with
  | Long => place_long_entry
  | Short => place_short_entry
  end.

End Handlers.

(** ** The call journal *)

(** The quantity of an order call. *)
Definition order_quantity (c : Call) : option number :=
  match c with
  | CallCreateMarketBuyOrder _ _ q _ | CallCreateMarketSellOrder _ _ q _ => Some q
  | _ => None
  end.

Definition is_order (c : Call) : bool :=
  match order_quantity c with
  | Some _ => true
  | None => false
  end.

(** An order placed without [reduceOnly]: it may open a position. *)
Definition opens_position (c : Call) : bool :=
  match c with
  | CallCreateMarketBuyOrder _ _ _ r | CallCreateMarketSellOrder _ _ _ r => negb r
  | _ => false
  end.


(** A call that is not an order, or an order for at most [size]: its
    quantity is not [> size], and is [<= size] unless it is NaN. *)
Definition order_within (size : number) (c : Call) : Prop :=
  match order_quantity c with
  | Some q => Num.ltb size q = false /\
              (Num.is_nan q = false -> Num.leb q size = true)
  | None => True
  end.

(** A call that places no order. *)
Definition query (c : Call) : Prop := is_order c = false.

(** [w'] is [w] after further calls, all of which satisfy [P]. *)
Definition extends {X} (P : Call -> Prop) (w w' : World X) : Prop :=
  exists cs, calls w' = (calls w ++ cs)%list /\ Forall P cs.

(** Every call a computation makes satisfies [P]. *)
Definition emits {X A} (P : Call -> Prop) (m : St X A) : Prop :=
  forall w, extends P w (snd (m w)).

(** A computation that, when it returns a result, echoes [signal] in it. *)
Definition echoes {X} (signal : Signal) (m : M X Result) : Prop :=
  forall w, match fst (m w) with
            | inr r => r_signal r = signal
            | inl _ => True
            end.

(** A result with its ["signal"] entry replaced. *)
Definition with_signal (signal : Signal) (r : Result) : Result :=
  {| success := success r; message := message r; order := order r;
     r_signal := signal; details := details r |}.

(** The outcome of a handler run with the echoed signal replaced. *)
Definition echo_as {X} (signal : Signal) (out : Result * World X)
  : Result * World X :=
  (with_signal signal (fst out), snd out).

(** Two computations that differ only in the signal their result echoes. *)
Definition alike {X} (signal : Signal) (m m' : M X Result) : Prop :=
  forall w,
    m w = (match fst (m' w) with
           | inl e => inl e
           | inr r => inr (with_signal signal r)
           end, snd (m' w)).

(** ** A scripted venue

    A venue whose answers are fixed in advance; it serves as the concrete
    gateway on which the engine is run in examples. *)

Record Script := {
  on_fetch_balance : res Balance;
  on_load_markets : res Markets;
  on_fetch_positions : res (list Position);
  on_set_leverage : res unit;
  on_fetch_ticker : res Ticker;
  on_create_order : res Order
}.

#[global] Instance script_gateway : Gateway Script := {|
  gw_fetch_balance _ x := (on_fetch_balance x, x);
  gw_load_markets _ x := (on_load_markets x, x);
  gw_fetch_positions _ _ x := (on_fetch_positions x, x);
  gw_set_leverage _ _ _ x := (on_set_leverage x, x);
  gw_fetch_ticker _ _ x := (on_fetch_ticker x, x);
  gw_create_market_buy_order _ _ _ _ x := (on_create_order x, x);
  gw_create_market_sell_order _ _ _ _ x := (on_create_order x, x)
|}.

Definition at_start (x : Script) : World Script := {| venue := x; calls := [] |}.

(** An engine with both exchanges connected and the default settings of
    [config_manager]. *)
Definition engine0 : TradingEngine :=
  {| exchanges := {[ "binance" := Binance; "upbit" := Upbit ]};
     enable_trading := true;
     default_leverage := VNum (Int 1) |}.

(** A venue with a free balance of [usdt] USDT, a last price of 50.0, the
    given open positions and no market table entry. *)
Definition venue_with (usdt : number) (positions : list Position) : Script :=
  {| on_fetch_balance := inr {| free := {[ "USDT" := VNum usdt ]} |};
     on_load_markets := inr ∅;
     on_fetch_positions := inr positions;
     on_set_leverage := inr tt;
     on_fetch_ticker := inr {| last := VNum (whole 50) |};
     on_create_order := inr {| order_id := "1" |} |}.

Definition long_of (c : number) : Position :=
  {| side := Some "long"; contracts := Some c |}.

Definition short_of (c : number) : Position :=
  {| side := Some "short"; contracts := Some c |}.

(** The same venue, refusing every order. *)
Definition venue_refusing_orders (positions : list Position) : Script :=
  {| on_fetch_balance := inr {| free := {[ "USDT" := VNum (whole 1000) ]} |};
     on_load_markets := inr ∅;
     on_fetch_positions := inr positions;
     on_set_leverage := inr tt;
     on_fetch_ticker := inr {| last := VNum (whole 50) |};
     on_create_order := inl (ExchangeError "order refused") |}.

(** A venue whose position endpoint is down. *)
Definition venue_positions_down : Script :=
  {| on_fetch_balance := inr {| free := {[ "USDT" := VNum (whole 1000) ]} |};
     on_load_markets := inr ∅;
     on_fetch_positions := inl (ExchangeError "timeout");
     on_set_leverage := inr tt;
     on_fetch_ticker := inr {| last := VNum (whole 50) |};
     on_create_order := inr {| order_id := "1" |} |}.

(** A venue with the given answer to [load_markets]. *)
Definition venue_listing (markets : res Markets) : Script :=
  {| on_fetch_balance := inr {| free := {[ "USDT" := VNum (whole 1000) ]} |};
     on_load_markets := markets;
     on_fetch_positions := inr [];
     on_set_leverage := inr tt;
     on_fetch_ticker := inr {| last := VNum (whole 50) |};
     on_create_order := inr {| order_id := "1" |} |}.

Definition BTCUSDT : pyval := VStr "BTCUSDT".

(** [{"action": action, "symbol": "BTCUSDT"}] with one more entry. *)
Definition signal_with (action key : string) (value : pyval) : Signal :=
  {[ "action" := VStr action; "symbol" := BTCUSDT; key := value ]}.

(** ** Counting calls and reading results *)

(** The number of calls of a journal segment that satisfy [f]. *)
Definition count (f : Call -> bool) (cs : list Call) : nat :=
  length (List.filter f cs).

(** A computation that makes at most [n] calls satisfying [f]. *)
Definition within {X A} (f : Call -> bool) (n : nat) (m : St X A) : Prop :=
  forall w, exists cs,
    calls (snd (m w)) = (calls w ++ cs)%list /\ (count f cs <= n)%nat.

(** A computation whose result, when it returns one, satisfies [good]
    together with the world it leaves. *)
Definition settles {X} (good : Result -> World X -> Prop) (m : M X Result)
  : Prop :=
  forall w, match m w with
            | (inr r, w') => good r w'
            | (inl _, _) => True
            end.

(** The four actions of the switch of lines 128-136. *)
Definition known_action (action : pyval) : bool :=
  py_eq_str action "long_entry" || py_eq_str action "short_entry"
  || py_eq_str action "long_exit" || py_eq_str action "short_exit".

(** The calls guarded by [isinstance(exchange, ccxt.binance)]. *)
Definition binance_only (c : Call) : bool :=
  match c with
  | CallLoadMarkets _ | CallSetLeverage _ _ _ => true
  | _ => false
  end.

(** What a successful entry result says about the journal: the last call
    was the opening order, for the quantity the details report. *)
Definition entry_as_reported {X} (d : Direction) (exchange : Venue)
  (symbol : pyval) (r : Result) (w' : World X) : Prop :=
  success r = true ->
  exists cs n q o price leverage,
    calls w' = (cs ++ [opening_order d exchange n q])%list /\
    order r = Some o /\
    details r = Some (EntryDetails symbol (order_side d) q price leverage).

(** What a successful exit result says about the journal: either nothing
    was to be closed and the result carries no order, or the last call was
    the reduce-only order for the reported quantity [q], computed from the
    reported position size; [q <= 0] and [q > size] are both false: unless
    it is NaN, [q] is positive and at most the position size. *)
Definition exit_as_reported {X} (d : Direction) (exchange : Venue)
  (symbol : pyval) (r : Result) (w' : World X) : Prop :=
  success r = true ->
  (message r = msg_no_position d /\ order r = None /\ details r = None) \/
  (exists cs n q o size percent,
     calls w' = (cs ++ [closing_order d exchange n q])%list /\
     order r = Some o /\
     details r = Some (ExitDetails symbol (order_side (opposite d)) q size
                         percent) /\
     Num.leb q (Int 0) = false /\ Num.ltb size q = false /\
     (Num.is_nan q = false ->
      Num.ltb (Int 0) q = true /\ Num.leb q size = true)).

(** ** The account helpers of the engine (lines 506-531)

    [get_positions] calls [fetch_positions()] without a symbol list, a call
    the signal path never makes; it is given its own venue transition. *)

Class Portfolio (X : Type) := {
  gw_fetch_all_positions : Venue -> X -> res (list Position) * X
}.

(** [p['contracts'] > 0] *)
Definition has_contracts (p : Position) : res bool :=
  res_bind (position_contracts p) (fun c => inr (Num.ltb (Int 0) c)).

(** [[p for p in positions if p['contracts'] > 0]]: the comprehension
    raises as soon as one comparison does. *)
Fixpoint open_positions (positions : list Position) : res (list Position) :=
  match positions with
  | [] => inr []
  | p :: rest =>
      res_bind (has_contracts p) (fun keep =>
      res_bind (open_positions rest) (fun kept =>
      inr (if keep then p :: kept else kept)))
  end.

Section Account.
Context {X : Type} `{!Gateway X} `{!Portfolio X}.

(** [get_balance] (lines 506-517) *)
Definition get_balance (self : TradingEngine) (exchange_name : string)
  : X -> option Balance * X :=
  fun x =>
    match exchanges self !! exchange_name with
    | None => (None, x)
    | Some exchange =>
        match gw_fetch_balance exchange x with
        | (inr balance, x') => (Some balance, x')
        | (inl _, x') => (None, x')
        end
    end.

(** [get_positions] (lines 519-531) *)
Definition get_positions (self : TradingEngine) (exchange_name : string)
  : X -> option (list Position) * X :=
  fun x =>
    match exchanges self !! exchange_name with
    | None => (None, x)
    | Some exchange =>
        match gw_fetch_all_positions exchange x with
        | (inr positions, x') =>
            match open_positions positions with
            | inr kept => (Some kept, x')
            | inl _ => (None, x')
            end
        | (inl _, x') => (None, x')
        end
    end.

End Account.

(** ** The secrets store ([config_manager.py], lines 39-101 and 167-190)

    [secrets.enc] holds [cipher.encrypt(json.dumps(secrets).encode())].
    Serialisation and encryption together are a [Cipher]: [seal] depends on
    a nonce (a Fernet token embeds a timestamp and a random IV), and
    [unseal], which is [json.loads(cipher.decrypt(...).decode())], recovers
    what was sealed; it answers [None] where [decrypt] or [json.loads]
    raises (a file written under another key, a damaged file). *)

Abbreviation Credentials := (gmap string pyval).
Abbreviation Secrets := (gmap string Credentials).

Class Cipher (B : Type) := {
  seal : nat -> Secrets -> B;
  unseal : B -> option Secrets;
  unseal_seal : forall nonce secrets, unseal (seal nonce secrets) = Some secrets
}.

(** The host as the store sees it: the content of [secrets.enc] if the file
    exists, whether the file can be opened for writing, whether lines 70-72
    pass ([os.name] is ['nt'], or [os.chmod] on the file succeeds), and the
    source of nonces. *)
Record Host (B : Type) := {
  secrets_file : option B;
  writable : bool;
  chmod_passes : bool;
  entropy : nat
}.
Arguments secrets_file {B} _.
Arguments writable {B} _.
Arguments chmod_passes {B} _.
Arguments entropy {B} _.

Section Store.
Context {B : Type} `{!Cipher B}.

(** [load_secrets] (lines 82-96) *)
Definition load_secrets (h : Host B) : Secrets :=
  match secrets_file h with
  | None => ∅
  | Some encrypted_data =>
      match unseal encrypted_data with
      | Some secrets => secrets
      | None => ∅
      end
  end.

(** [get_api_keys] (lines 98-101) *)
Definition get_api_keys (exchange : string) (h : Host B)
  : option Credentials :=
  load_secrets h !! exchange.

(** Lines 61-68 and 174-180: encrypt, then open the file for writing and
    write; [None] when opening raises.  Once the file is open the write is
    taken to succeed; the stored values are the strings the callers pass,
    so [json.dumps] does not raise. *)
Definition write_secrets (secrets : Secrets) (h : Host B)
  : option (Host B) * Host B :=
  let encrypted_data := seal (entropy h) secrets in
  let h := {| secrets_file := secrets_file h; writable := writable h;
              chmod_passes := chmod_passes h; entropy := S (entropy h) |} in
  if writable h
  then (Some {| secrets_file := Some encrypted_data; writable := true;
                chmod_passes := chmod_passes h; entropy := entropy h |}, h)
  else (None, h).

(** [save_api_keys] (lines 39-80); the answer is the success flag.  When
    [os.chmod] raises (line 72) the file has been written already and the
    [except] of line 77 answers [False]. *)
Definition save_api_keys (exchange : string) (api_key secret_key : pyval)
  (h : Host B) : bool * Host B :=
  let secrets := load_secrets h in
  let secrets :=
    <[exchange := {[ "api_key" := api_key; "secret_key" := secret_key ]}]>
      secrets in
  match write_secrets secrets h with
  | (Some h', _) => (chmod_passes h', h')
  | (None, h') => (false, h')
  end.


(** One block of [initialize_exchanges] (lines 30-43, 46-56): the exchange
    object is created and registered when the stored keys are a non-empty
    dictionary with both entries; a missing entry raises [KeyError] inside
    the [try] and leaves the registry as it was.  (The ccxt constructors
    take the dictionary as it is; they are taken not to raise.) *)
Definition connect (name : string) (exchange : Venue) (h : Host B)
  (registry : gmap string Venue) : gmap string Venue :=
  match get_api_keys name h with
  | Some keys =>
      match keys !! "api_key", keys !! "secret_key" with
      | Some _, Some _ => <[name := exchange]> registry
      | _, _ => registry
      end
  | None => registry
  end.

(** [initialize_exchanges] (lines 27-56), on the registry [self.exchanges] *)
Definition initialize_exchanges (h : Host B) (registry : gmap string Venue)
  : gmap string Venue :=
  connect "upbit" Upbit h (connect "binance" Binance h registry).

End Store.

(** A cipher that stores the secrets as they are. *)
#[global] Instance plain_cipher : Cipher Secrets := {|
  seal _ secrets := secrets;
  unseal data := Some data;
  unseal_seal _ _ := eq_refl
|}.

(** ** The settings ([config_manager.py], lines 116-165)

    A YAML document: a scalar, a sequence or a mapping with string keys. *)

#[warnings="-register-all"]
Inductive yaml :=
| YScalar (v : pyval)
| YSeq (items : list yaml)
| YMap (fields : gmap string yaml).

Abbreviation Config := (gmap string yaml).

(** Python truthiness *)
Definition truthy (v : pyval) : bool :=
  match v with
  | VNone => false
  | VBool b => b
  | VNum n => negb (Num.is_zero n)
  | VStr s => negb (String.eqb s "")
  end.

Definition yaml_truthy (y : yaml) : bool :=
  match y with
  | YScalar v => truthy v
  | YSeq items => negb (bool_decide (items = []))
  | YMap fields => negb (bool_decide (fields = ∅))
  end.

(** [get_default_config] (lines 143-165) *)
Definition get_default_config : Config :=
  {[ "trading" := YMap {[
       "default_exchange" := YScalar (VStr "binance");
       "default_leverage" := YScalar (VNum (Int 1));
       "max_position_size" := YScalar (VNum (Int 100));
       "enable_trading" := YScalar (VBool true);
       "margin_mode" := YScalar (VStr "isolated") ]};
     "security" := YMap {[
       "require_ip_whitelist" := YScalar (VBool false);
       "allowed_ips" := YSeq [];
       "level" := YScalar (VStr "INFO");
       "file" := YScalar (VStr "/var/log/kjbot/kjbot.log") ]};
     "server" := YMap {[
       "host" := YScalar (VStr "0.0.0.0");
       "port" := YScalar (VNum (Int 5000));
       "debug" := YScalar (VBool false) ]} ]}.

(** One turn of the loop of lines 131-135.  [dict.update] lets the loaded
    fields win over the ones already there; on a section of [merged_config]
    that is not a dictionary it raises [AttributeError]. *)
Definition merge_section (section : string) (values : yaml)
  (merged_config : Config) : res Config :=
  match values, merged_config !! section with
  | YMap loaded, Some (YMap present) =>
      inr (<[section := YMap (loaded ∪ present)]> merged_config)
  | YMap _, Some _ => inl AttributeError
  | _, _ => inr (<[section := values]> merged_config)
  end.

(** Lines 130-137: the loop over [loaded_config.items()]. *)
Definition merge_config (default_config loaded_config : Config) : res Config :=
  map_fold (fun section values merged =>
              res_bind merged (merge_section section values))
           (inr default_config) loaded_config.

(** [load_config] (lines 116-141).  [file] is [None] when [config.yaml] does
    not exist, and otherwise what opening and [yaml.safe_load] give: a
    raised exception or the document. *)
Definition load_config (file : option (res yaml)) : Config :=
  let default_config := get_default_config in
  match file with
  | None => default_config
  | Some (inl _) => default_config
  | Some (inr loaded_config) =>
      if negb (yaml_truthy loaded_config) then default_config
      else
        match loaded_config with
        | YMap loaded =>
            match merge_config default_config loaded with
            | inr merged_config => merged_config
            | inl _ => default_config     (* the [except] of line 139 *)
            end
        | _ => default_config     (* [.items()] raises [AttributeError] *)
        end
  end.

(** ** The webhook server ([webhook_server.py])

    What can go wrong in the handlers outside the engine. *)
Inductive fault :=
| KeyError (key : string)
| NotSubscriptable
| NotIterable
| BadRequest.

(** [y[key]] for a string [key] *)
Definition yaml_item (y : yaml) (key : string) : fault + yaml :=
  match y with
  | YMap fields =>
      match fields !! key with
      | Some v => inr v
      | None => inl (KeyError key)
      end
  | _ => inl NotSubscriptable
  end.

(** [y == ip] for a string [ip] *)
Definition yaml_is (ip : string) (y : yaml) : bool :=
  match y with
  | YScalar (VStr s) => String.eqb s ip
  | _ => false
  end.

(** [ip in allowed_ips]: membership in a list, key test on a dictionary,
    substring test on a string, [TypeError] on any other scalar. *)
Definition ip_in (ip : string) (allowed_ips : yaml) : fault + bool :=
  match allowed_ips with
  | YSeq items => inr (existsb (yaml_is ip) items)
  | YMap fields => inr (bool_decide (is_Some (fields !! ip)))
  | YScalar (VStr s) => inr (Str.contains ip s)
  | YScalar _ => inl NotIterable
  end.

(** [check_ip_whitelist] (lines 48-54), on the server's own [config]. *)
Definition check_ip_whitelist (config : Config) (ip : string) : fault + bool :=
  match yaml_item (YMap config) "security" with
  | inl f => inl f
  | inr security =>
      match yaml_item security "require_ip_whitelist" with
      | inl f => inl f
      | inr required =>
          if negb (yaml_truthy required) then inr true
          else
            match yaml_item security "allowed_ips" with
            | inl f => inl f
            | inr allowed_ips => ip_in ip allowed_ips
            end
      end
  end.

(** What a handler reads of the Flask request.  [get_json] is the outcome of
    [request.get_json()]: a raised exception, JSON [null], or an object. *)
Record Request := {
  forwarded_for : option string;
  remote_addr : string;
  is_json : bool;
  get_json : fault + option Signal
}.

(** The bodies of the responses of [webhook] and [test_signal]. *)
Inductive Payload :=
| UnauthorizedIp                       (* line 90 *)
| NotJson                              (* line 98 *)
| MissingAction                        (* line 108 *)
| Outcome (result : Result)            (* line 126 *)
| InternalError (f : fault)            (* lines 132, 340 *)
| Validation (result : Result)         (* lines 330-334 *)
| ValidationOfNull.                    (* the same, for a [null] signal *)

Section Server.
Context `{!Builtins} {X : Type} `{!Gateway X}.

(** [webhook] (lines 67-133): the status code and the body. *)
Definition webhook (config : Config) (engine : TradingEngine) (request : Request)
  : St X (nat * Payload) :=
  fun w =>
    let client_ip := default (remote_addr request) (forwarded_for request) in
    match check_ip_whitelist config client_ip with
    | inl f => ((500, InternalError f), w)
    | inr false => ((403, UnauthorizedIp), w)
    | inr true =>
        if negb (is_json request) then ((400, NotJson), w)
        else
          match get_json request with
          | inl f => ((500, InternalError f), w)
          | inr None => ((500, InternalError NotIterable), w)
          | inr (Some signal) =>
              if negb (has_key "action" signal) then ((400, MissingAction), w)
              else
                let (result, w') := execute_signal engine signal w in
                ((if success result then 200 else 400, Outcome result), w')
          end
    end.

(** [test_signal] (lines 314-341).  [config] is the dictionary of the server
    module (line 45), a different object from the one the engine loaded for
    itself (trading_engine.py, line 24): the handler switches the server's
    ["enable_trading"] off and back on, the engine reads its own.  The
    answer is the status code and the body, then the server's [config] as
    the handler leaves it. *)
Definition test_signal (config : Config) (engine : TradingEngine)
  (request : Request) : St X ((nat * Payload) * Config) :=
  fun w =>
    match get_json request with
    | inl f => (((500, InternalError f), config), w)
    | inr signal =>
        match yaml_item (YMap config) "trading" with
        | inl f => (((500, InternalError f), config), w)
        | inr trading =>
            match yaml_item trading "enable_trading", trading with
            | inr original_state, YMap fields =>
                (* [config] with [config["trading"]["enable_trading"]] set *)
                let switched (state : yaml) : Config :=
                  <["trading" := YMap (<["enable_trading" := state]> fields)]>
                    config in
                (* line 322 gives [switched (YScalar (VBool false))]; nothing
                   reads it until line 328 assigns the original state *)
                match signal with
                | Some signal =>
                    let (result, w') := execute_signal engine signal w in
                    (((200, Validation result), switched original_state), w')
                | None =>
                    (((200, ValidationOfNull), switched original_state), w)
                end
            | inl f, _ => (((500, InternalError f), config), w)
            | inr _, _ => (((500, InternalError NotSubscriptable), config), w)
            end
        end
    end.

End Server.

(** ** Concrete hosts, settings and requests for the examples *)

#[global] Instance script_portfolio : Portfolio Script := {|
  gw_fetch_all_positions _ x := (on_fetch_positions x, x)
|}.

(** A venue on which [set_leverage] raises. *)
Definition venue_without_leverage : Script :=
  {| on_fetch_balance := inr {| free := {[ "USDT" := VNum (whole 1000) ]} |};
     on_load_markets := inr ∅;
     on_fetch_positions := inr [];
     on_set_leverage := inl (ExchangeError "leverage not modified");
     on_fetch_ticker := inr {| last := VNum (whole 50) |};
     on_create_order := inr {| order_id := "1" |} |}.


Definition keys_of (api_key secret_key : string) : Credentials :=
  {[ "api_key" := VStr api_key; "secret_key" := VStr secret_key ]}.

(** A writable host that holds keys for Upbit. *)
Definition host_with_upbit : Host Secrets :=
  {| secrets_file := Some {[ "upbit" := keys_of "u-key" "u-secret" ]};
     writable := true; chmod_passes := true; entropy := 0 |}.

(** The default settings with the whitelist on and one address allowed. *)
Definition config_allowing (ip : string) : Config :=
  <["security" := YMap {[
      "require_ip_whitelist" := YScalar (VBool true);
      "allowed_ips" := YSeq [YScalar (VStr ip)] ]}]> get_default_config.

(** A JSON request carrying [signal]. *)
Definition post (forwarded : option string) (remote : string)
  (signal : Signal) : Request :=
  {| forwarded_for := forwarded; remote_addr := remote; is_json := true;
     get_json := inr (Some signal) |}.

(** The builtins on ASCII text, for the examples: [upper] and [lower]
    change the letters a-z and A-Z, which is what Python does to a string
    of ASCII characters; [float] reads the plain decimal literals (an
    optional sign, digits, an optional fraction) and refuses any other
    text, which is right of the texts the examples give it. *)
Module Ascii7.

Definition upper_ascii (c : ascii) : ascii :=
  let n := nat_of_ascii c in
  if (97 <=? n)%nat && (n <=? 122)%nat then ascii_of_nat (n - 32) else c.

Definition lower_ascii (c : ascii) : ascii :=
  let n := nat_of_ascii c in
  if (65 <=? n)%nat && (n <=? 90)%nat then ascii_of_nat (n + 32) else c.

Fixpoint map (f : ascii -> ascii) (s : string) : string :=
  match s with
  | EmptyString => EmptyString
  | String c s' => String (f c) (map f s')
  end.

Definition digit (c : ascii) : option Z :=
  let n := nat_of_ascii c in
  if (48 <=? n)%nat && (n <=? 57)%nat then Some (Z.of_nat (n - 48)) else None.

(** The digits read so far are [acc], of which [places] after the point. *)
Fixpoint digits (s : string) (acc places : Z) (frac seen : bool)
  : option Num.float :=
  match s with
  | EmptyString => if seen then Some (Num.decimal acc places) else None
  | String c s' =>
      match digit c with
      | Some d =>
          digits s' (acc * 10 + d)%Z (if frac then places + 1 else places)%Z
                 frac true
      | None =>
          if Ascii.eqb c "." && negb frac then digits s' acc places true seen
          else None
      end
  end.

Definition parse_decimal (s : string) : option Num.float :=
  match s with
  | String "-" s' => option_map SFopp (digits s' 0 0 false false)
  | String "+" s' => digits s' 0 0 false false
  | _ => digits s 0 0 false false
  end.

Fixpoint copies (k : nat) (s : string) : string :=
  match k with
  | O => EmptyString
  | S k' => s ++ copies k' s
  end.

(** [s * n] with memory to spare: the count must fit a 64-bit index, and so
    must the length of the result. *)
Definition repeat (s : string) (n : Z) : res string :=
  if (n <? - 2 ^ 63)%Z || (2 ^ 63 <=? n)%Z then inl OverflowError
  else if (n <=? 0)%Z || (String.length s =? 0)%nat then inr EmptyString
  else if (2 ^ 63 <=? Z.of_nat (Str.len s) * n)%Z then inl OverflowError
  else inr (copies (Z.to_nat n) s).

End Ascii7.

Definition ascii_builtins : Builtins :=
  {| str_upper := Ascii7.map Ascii7.upper_ascii;
     str_lower := Ascii7.map Ascii7.lower_ascii;
     str_to_float := Ascii7.parse_decimal;
     str_repeat := Ascii7.repeat |}.

(** A venue that holds positions while its position endpoint is down: the
    next [outage] position requests time out, the later ones are answered
    with the positions held. *)
Record Outage := { held : list Position; outage : nat }.

#[global] Instance outage_gateway : Gateway Outage := {|
  gw_fetch_balance _ x :=
    (inr {| free := {[ "USDT" := VNum (whole 1000) ]} |}, x);
  gw_load_markets _ x := (inr ∅, x);
  gw_fetch_positions _ _ x :=
    match outage x with
    | S n => (inl (ExchangeError "timeout"), {| held := held x; outage := n |})
    | O => (inr (held x), x)
    end;
  gw_set_leverage _ _ _ x := (inr tt, x);
  gw_fetch_ticker _ _ x := (inr {| last := VNum (whole 50) |}, x);
  gw_create_market_buy_order _ _ _ _ x := (inr {| order_id := "1" |}, x);
  gw_create_market_sell_order _ _ _ _ x := (inr {| order_id := "1" |}, x)
|}.

(** * Properties *)

(** ** The arithmetic on known values *)

(** [3 * (10 / 100)] is [0.30000000000000004]. *)
Example product_is_rounded :
  res_bind (Num.div (Int 10) (Int 100)) (Num.mul (whole 3))
    = inr (decimal 30000000000000004 17).
Proof. vm_compute. reflexivity. Qed.

(** [round(50.0625, 2)] is [50.06], [round(0.125, 2)] is [0.12] (a tie, to
    the even digit), [round(2.675, 2)] is [2.67] (the float is below the
    tie) and [round(11, 2)] is the integer [11]. *)
Example round2_cents :
  Num.round2 (decimal 500625 4) = decimal 5006 2 /\
  Num.round2 (decimal 125 3) = decimal 12 2 /\
  Num.round2 (decimal 2675 3) = decimal 267 2 /\
  Num.round2 (Int 11) = Int 11.
Proof. vm_compute. repeat split. Qed.

(** [float(10**400)] and [10**400 / 50.0] raise; [10**400 / 10**399] is
    [10.0]; a float product that overflows is an infinity. *)
Example overflow_raises :
  Num.to_float (Int (10 ^ 400)) = inl OverflowError /\
  Num.div (Int (10 ^ 400)) (whole 50) = inl OverflowError /\
  Num.div (Int (10 ^ 400)) (Int (10 ^ 399)) = inr (whole 10) /\
  Num.mul (whole (10 ^ 308)) (whole (10 ^ 308))
    = inr (Float (S754_infinity false)).
Proof. vm_compute. repeat split. Qed.

(** An [int] and a float are compared by value: [2**53 + 1 > 2.0**53],
    although [float(2**53 + 1)] is [2.0**53]. *)
Example compare_is_exact :
  Num.ltb (whole (2 ^ 53)) (Int (2 ^ 53 + 1)) = true /\
  Num.to_float (Int (2 ^ 53 + 1)) = inr (Num.of_Z (2 ^ 53)).
Proof. vm_compute. repeat split. Qed.

(** NaN passes every comparison of the engine as [False]. *)
Example nan_compares_false :
  Num.leb (Float S754_nan) (Int 0) = false /\
  Num.ltb (Int 100) (Float S754_nan) = false /\
  percent_out_of_range (VNum (Float S754_nan)) = inr false.
Proof. vm_compute. repeat split. Qed.

Example contains_entry : Str.contains "entry" "short_entry" = true.
Proof. reflexivity. Qed.

(** [len] and [s[:-4]] count characters: "€USDT" has five. *)
Example characters_not_bytes :
  String.length "€USDT" = 7 /\ Str.len "€USDT" = 5 /\
  Str.drop_last 4 "€USDT" = "€".
Proof. vm_compute. repeat split. Qed.

(** ** Reasoning about the journal *)

Section Journal.
Context {X : Type}.
Implicit Types (w : World X) (P Q : Call -> Prop).

Lemma extends_refl P w : extends P w w.
Proof. exists []. split; [by rewrite app_nil_r | constructor]. Qed.

Lemma extends_trans P w1 w2 w3 :
  extends P w1 w2 -> extends P w2 w3 -> extends P w1 w3.
Proof.
  intros (cs1 & E1 & F1) (cs2 & E2 & F2). exists (cs1 ++ cs2)%list. split.
  - by rewrite E2, E1, app_assoc.
  - by apply Forall_app.
Qed.

Lemma extends_weaken P Q w w' :
  (forall c, P c -> Q c) -> extends P w w' -> extends Q w w'.
Proof.
  intros HPQ (cs & E & F). exists cs. split; [done |].
  eapply Forall_impl; eauto.
Qed.

Lemma emits_ret {A} P (a : A) : emits P (ret (X := X) a).
Proof. intros w. apply extends_refl. Qed.

Lemma emits_raise {A} P e : emits P (raise (X := X) (A := A) e).
Proof. intros w. apply extends_refl. Qed.

Lemma emits_lift {A} P (r : res A) : emits P (lift (X := X) r).
Proof. intros w. apply extends_refl. Qed.

Lemma emits_pure {A} P (a : A) : emits P (fun w : World X => (a, w)).
Proof. intros w. apply extends_refl. Qed.

Lemma emits_bind {A B} P (m : M X A) (k : A -> M X B) :
  emits P m -> (forall a, emits P (k a)) -> emits P (bind m k).
Proof.
  intros Hm Hk w. unfold bind. specialize (Hm w).
  destruct (m w) as [[e | a] w']; simpl in *; [done |].
  eapply extends_trans; [exact Hm | apply Hk].
Qed.

Lemma emits_call {A} P (m : St X A) : emits P m -> emits P (call m).
Proof.
  intros Hm w. unfold call. specialize (Hm w). by destruct (m w).
Qed.


Lemma emits_catch_all {A} P (m : M X A) (h : exn -> A) :
  emits P m -> emits P (catch_all m h).
Proof.
  intros Hm w. unfold catch_all. specialize (Hm w).
  by destruct (m w) as [[e | a] w'].
Qed.

Lemma emits_invoke {A} P c (f : X -> res A * X) :
  P c -> emits P (invoke c f).
Proof.
  intros Hc w. unfold invoke. destruct (f (venue w)) as [r x']. simpl.
  exists [c]. split; [done | by constructor].
Qed.

Lemma emits_weaken {A} P Q (m : St X A) :
  (forall c, P c -> Q c) -> emits P m -> emits Q m.
Proof. intros HPQ Hm w. eapply extends_weaken; eauto. Qed.

Lemma echoes_ret signal r :
  r_signal r = signal -> echoes (X := X) signal (ret r).
Proof. intros E w. exact E. Qed.

Lemma echoes_bind {A} signal (m : M X A) (k : A -> M X Result) :
  (forall a, echoes signal (k a)) -> echoes signal (bind m k).
Proof.
  intros Hk w. unfold bind. destruct (m w) as [[e | a] w']; [done |].
  apply Hk.
Qed.

Lemma bind_lift {A B} (r : res A) (k : A -> M X B) :
  bind (lift r) k = match r with
                    | inl e => raise e
                    | inr a => k a
                    end.
Proof. by destruct r. Qed.

Lemma catch_all_echoes signal (m : M X Result) (h : exn -> Result) w :
  echoes signal m -> (forall e, r_signal (h e) = signal) ->
  r_signal (fst (catch_all m h w)) = signal.
Proof.
  intros Hm Hh. unfold catch_all. specialize (Hm w).
  destruct (m w) as [[e | r] w']; simpl in *; [apply Hh | exact Hm].
Qed.

End Journal.

(** Closes goals [emits P m] and [echoes s m] by following the structure of
    [m]; [tac] discharges the side conditions on single calls. *)
Ltac step_emits tac :=
  lazymatch goal with
  | |- emits _ (bind _ _) => apply emits_bind; [| intros ?]
  | |- emits _ (call _) => apply emits_call
  | |- emits _ (catch_all _ _) => apply emits_catch_all
  | |- emits _ (invoke _ _) => apply emits_invoke; tac
  | |- emits _ (ret _) => apply emits_ret
  | |- emits _ (raise _) => apply emits_raise
  | |- emits _ (lift _) => apply emits_lift
  | |- emits _ (fun w => (_, w)) => apply emits_pure
  | |- emits _ (match ?x with _ => _ end) => destruct x
  | |- emits _ (if ?x then _ else _) => destruct x
  end.

Ltac step_echoes :=
  lazymatch goal with
  | |- echoes _ (bind _ _) => apply echoes_bind; intros ?
  | |- echoes _ (ret _) => apply echoes_ret; reflexivity
  | |- echoes _ (match ?x with _ => _ end) => destruct x
  | |- echoes _ (if ?x then _ else _) => destruct x
  end.

(** ** The symbol normalizer and the position resolver *)

Section Resolver.
Context `{!Builtins} {X : Type} `{!Gateway X}.
Implicit Types (w : World X) (exchange : Venue).

Lemma normalize_symbol_str exchange s w :
  _normalize_symbol exchange (VStr s) w =
    call (catch_all
      (if is_binance exchange then
         bind (load_markets exchange) (fun markets =>
           let symbol := str_upper (Str.replace_dotP s) in
           match markets !! symbol with
           | Some market => ret (market_id market)
           | None =>
               if (4 <? Str.len symbol)%nat
                  && Str.endswith symbol "USDT"
               then
                 match markets !! (Str.drop_last 4 symbol ++ "/USDT:USDT") with
                 | Some market => ret (market_id market)
                 | None => ret symbol
                 end
               else ret symbol
           end)
       else ret (str_upper (Str.replace_dotP s)))
      (fun _ => str_upper (Str.replace_dotP (str_upper (Str.replace_dotP s))))) w.
Proof. reflexivity. Qed.

(** On a [str] the normalizer returns. *)
Lemma normalize_symbol_returns exchange s w :
  exists n, fst (_normalize_symbol exchange (VStr s) w) = inr n.
Proof.
  rewrite normalize_symbol_str. unfold call.
  destruct (catch_all _ _ w) as [n w']. by exists n.
Qed.

(** On anything else it raises before any call is made. *)
Lemma normalize_symbol_not_str exchange symbol w :
  (forall s, symbol <> VStr s) ->
  _normalize_symbol exchange symbol w = (inl AttributeError, w).
Proof. intros Hs. destruct symbol; try done. by destruct (Hs s). Qed.

Lemma normalize_symbol_emits exchange symbol :
  emits query (_normalize_symbol exchange symbol).
Proof.
  unfold _normalize_symbol, load_markets.
  destruct (py_strip_upper symbol); repeat step_emits ltac:(reflexivity).
Qed.

Lemma get_position_emits exchange symbol side_ :
  emits query (_get_position exchange symbol side_).
Proof.
  unfold _get_position, fetch_positions.
  repeat first [apply normalize_symbol_emits | step_emits ltac:(reflexivity)].
Qed.

(** A position is reported only for a [str] symbol, on the requested side
    and with [contracts > 0]. *)
Lemma get_position_found exchange symbol side_ w pos w' :
  _get_position exchange symbol side_ w = (Some pos, w') ->
  exists s c, symbol = VStr s /\ side_is side_ pos = true /\
              contracts pos = Some c /\ Num.ltb (Int 0) c = true.
Proof.
  unfold _get_position, catch_all, bind. intros Hrun.
  destruct symbol as [| b | q | s]; try discriminate Hrun.
  destruct (_normalize_symbol exchange (VStr s) w) as [[e | n] w1];
    [discriminate |].
  destruct (fetch_positions exchange [n] w1) as [[e | ps] w2];
    [discriminate |].
  destruct (List.find (side_is side_) ps) as [p |] eqn:Hfind;
    [| discriminate].
  apply find_some in Hfind as [_ Hside].
  unfold lift, position_contracts, ret in Hrun.
  destruct (contracts p) as [c |] eqn:Hc; [| discriminate].
  destruct (Num.ltb (Int 0) c) eqn:Hpos; [| discriminate].
  injection Hrun as -> ->. by exists s, c.
Qed.

(** A failing [fetch_positions] is reported as "no position". *)
Lemma get_position_fetch_error exchange s side_ w n w1 e x2 :
  _normalize_symbol exchange (VStr s) w = (inr n, w1) ->
  gw_fetch_positions exchange [n] (venue w1) = (inl e, x2) ->
  fst (_get_position exchange (VStr s) side_ w) = None.
Proof.
  intros Hn Hf. unfold _get_position, catch_all, bind.
  rewrite Hn. unfold fetch_positions, invoke. by rewrite Hf.
Qed.

End Resolver.

(** ** Comparisons and the sizing rules

    The comparisons of Python numbers: an order on everything but NaN, on
    which every comparison is false. *)

Section Comparisons.
Implicit Types (a b c : number).

Lemma SFcompare_antisym (x y : Num.float) :
  SFcompare y x = option_map CompOpp (SFcompare x y).
Proof.
  destruct x as [s1 | s1 | | s1 m1 e1], y as [s2 | s2 | | s2 m2 e2];
    try done; try (by destruct s1); try (by destruct s2);
    try (by destruct s1, s2).
  simpl. rewrite (Z.compare_antisym e1 e2).
  pose proof (Pos.compare_cont_antisym m1 m2 Eq) as Hm. simpl in Hm.
  rewrite <- Hm.
  destruct s1, s2; try done;
    destruct (e1 ?= e2)%Z; simpl; try done;
    by destruct (Pos.compare_cont Eq m1 m2).
Qed.

Lemma compare_antisym a b :
  Num.compare b a = option_map CompOpp (Num.compare a b).
Proof.
  destruct a as [m | x], b as [n | y]; simpl.
  - by rewrite (Z.compare_antisym m n).
  - done.
  - by destruct (Num.Zcompare_float n x) as [[| |] |].
  - apply SFcompare_antisym.
Qed.

Lemma compare_unordered a b :
  Num.compare a b = None <-> Num.is_nan a = true \/ Num.is_nan b = true.
Proof.
  destruct a as [m | x], b as [n | y]; simpl.
  - split; [done | by intros [|]].
  - destruct y; simpl; split; try done; try (by intros [|]); by right.
  - destruct x; simpl; split; try done; try (by intros [|]); by left.
  - destruct x as [s1 | s1 | | s1 m1 e1], y as [s2 | s2 | | s2 m2 e2]; simpl;
      split; try done; try (by intros [|]); try (by left); by right.
Qed.

Lemma compare_refl a : Num.is_nan a = false -> Num.compare a a = Some Eq.
Proof.
  destruct a as [m | x]; simpl.
  - by rewrite Z.compare_refl.
  - destruct x as [s1 | s1 | | s1 m1 e1]; simpl; try done.
    + by destruct s1.
    + intros _. rewrite Z.compare_refl.
      change (Pos.compare_cont Eq m1 m1) with (m1 ?= m1)%positive.
      rewrite Pos.compare_refl. by destruct s1.
Qed.

(** [a < a] is false. *)
Lemma ltb_irrefl a : Num.ltb a a = false.
Proof.
  unfold Num.ltb. destruct (Num.is_nan a) eqn:Hn.
  - assert (Num.compare a a = None) as -> by (apply compare_unordered; by left).
    done.
  - by rewrite compare_refl.
Qed.

(** [a < b] excludes NaN on both sides. *)
Lemma ltb_ordered a b :
  Num.ltb a b = true -> Num.is_nan a = false /\ Num.is_nan b = false.
Proof.
  unfold Num.ltb. intros Hlt.
  destruct (Num.is_nan a) eqn:Ha.
  { assert (Num.compare a b = None) as E by (apply compare_unordered; by left).
    by rewrite E in Hlt. }
  destruct (Num.is_nan b) eqn:Hb; [| done].
  assert (Num.compare a b = None) as E by (apply compare_unordered; by right).
  by rewrite E in Hlt.
Qed.

(** When [a <= b] is false, [b < a] is true unless one of them is NaN. *)
Lemma leb_false a b :
  Num.leb a b = false ->
  Num.ltb b a = true \/ Num.is_nan a = true \/ Num.is_nan b = true.
Proof.
  unfold Num.leb, Num.ltb. rewrite (compare_antisym a b).
  destruct (Num.compare a b) as [[| |] |] eqn:Hc; simpl; try done.
  - by left.
  - intros _. right. by apply compare_unordered.
Qed.

(** When [a < b] is false, [b <= a] is true unless one of them is NaN. *)
Lemma ltb_false a b :
  Num.ltb a b = false ->
  Num.is_nan a = false -> Num.is_nan b = false -> Num.leb b a = true.
Proof.
  unfold Num.leb, Num.ltb. rewrite (compare_antisym a b).
  intros Hlt Ha Hb.
  destruct (Num.compare a b) as [[| |] |] eqn:Hc; simpl; try done.
  apply compare_unordered in Hc as [Hc | Hc]; congruence.
Qed.

Lemma ltb_leb_false a b : Num.ltb a b = true -> Num.leb b a = false.
Proof.
  unfold Num.leb, Num.ltb. rewrite (compare_antisym a b).
  by destruct (Num.compare a b) as [[| |] |].
Qed.

Lemma leb_refl a : Num.is_nan a = false -> Num.leb a a = true.
Proof. intros Ha. unfold Num.leb. by rewrite compare_refl. Qed.

Lemma leb_ltb_false a b : Num.leb a b = true -> Num.ltb b a = false.
Proof.
  unfold Num.leb, Num.ltb. rewrite (compare_antisym a b).
  by destruct (Num.compare a b) as [[| |] |].
Qed.

(** A percent with [0 < p <= 100] passes the range check. *)
Lemma percent_in_range p :
  Num.ltb (Int 0) p = true -> Num.leb p (Int 100) = true ->
  percent_out_of_range (VNum p) = inr false.
Proof.
  intros Hpos Hle. unfold percent_out_of_range. simpl.
  by rewrite (ltb_leb_false _ _ Hpos), (leb_ltb_false _ _ Hle).
Qed.

(** A percent with [p <= 0] or [p > 100] fails it. *)
Lemma percent_outside_range p :
  Num.leb p (Int 0) = true \/ Num.ltb (Int 100) p = true ->
  percent_out_of_range (VNum p) = inr true.
Proof.
  intros [Hle | Hgt]; unfold percent_out_of_range; simpl.
  - by rewrite Hle.
  - by rewrite Hgt, orb_true_r.
Qed.

(** What the guard of lines 388 and 462 and the clamp of lines 395-397 and
    469-471 leave of a computed quantity [c] for a position of size
    [size > 0]: a quantity for which neither [q <= 0] nor [q > size]
    holds; unless it is NaN it is positive and at most [size]. *)
Lemma clamp_to_facts size c :
  Num.ltb (Int 0) size = true -> Num.leb c (Int 0) = false ->
  let q := clamp_to size c in
  (q = c \/ (Num.ltb size c = true /\ q = size)) /\
  Num.leb q (Int 0) = false /\
  Num.ltb size q = false /\
  (Num.ltb (Int 0) q = true \/ Num.is_nan q = true) /\
  (Num.is_nan q = false -> Num.ltb (Int 0) q = true /\ Num.leb q size = true).
Proof.
  intros Hsize Hc q. unfold q, clamp_to.
  destruct (ltb_ordered _ _ Hsize) as [_ Hreal].
  destruct (Num.ltb size c) eqn:Hclamp.
  - split; [by right |]. split; [by apply ltb_leb_false |].
    split; [apply ltb_irrefl |]. split; [by left |].
    intros _. split; [done | by apply leb_refl].
  - split; [by left |]. split; [done |]. split; [done |].
    destruct (leb_false _ _ Hc) as [Hpos | [Hnan | Hnan]]; try done.
    + split; [by left |]. intros Hq. split; [done |]. by apply ltb_false.
    + split; [by right |]. intros Hq. congruence.
Qed.

(** On two numbers [a * b] is their product. *)
Lemma py_mul_numbers `{!Builtins} (u v : pyval) x y :
  as_number u = inr x -> as_number v = inr y ->
  py_mul u v = res_bind (Num.mul x y) (fun z => inr (VNum z)).
Proof.
  destruct u, v; simpl; try done; intros [= <-] [= <-]; done.
Qed.

End Comparisons.

(** ** The exit handlers *)

Section Exits.
Context `{!Builtins} {X : Type} `{!Gateway X}.
Implicit Types (w : World X) (exchange : Venue) (d : Direction).

(** An out-of-range percent is answered before the venue is consulted. *)
Lemma exit_rejects_percent d exchange symbol signal w :
  percent_out_of_range (default (VNum (Int 100)) (signal !! "percent")) = inr true ->
  exit_handler d exchange symbol signal w =
    (failure (MsgCloseRatioRange (default (VNum (Int 100)) (signal !! "percent")))
             signal, w).
Proof.
  intros Hout.
  destruct d; simpl; unfold _execute_long_exit, _execute_short_exit,
    catch_all, bind, lift; by rewrite Hout.
Qed.

(** With a percent in range and no position found, the exit is a no-op
    reported as a success. *)
Lemma exit_without_position d exchange symbol signal w w1 :
  percent_out_of_range (default (VNum (Int 100)) (signal !! "percent")) = inr false ->
  _get_position exchange symbol (side_name d) w = (None, w1) ->
  exit_handler d exchange symbol signal w =
    (informational (msg_no_position d) signal, w1).
Proof.
  intros Hin Hget.
  destruct d; simpl in *; unfold _execute_long_exit, _execute_short_exit,
    catch_all, bind, lift, call; by rewrite Hin, Hget.
Qed.

(** With a percent that passes the range check and a position of size
    [size] found, the handler computes [c = size * (percent / 100)].  When
    the arithmetic raises, the [except] answers. *)
Lemma exit_arithmetic_raises d exchange symbol signal w pos w1 size e :
  percent_out_of_range (default (VNum (Int 100)) (signal !! "percent"))
    = inr false ->
  _get_position exchange symbol (side_name d) w = (Some pos, w1) ->
  contracts pos = Some size ->
  res_bind (percent_ratio (default (VNum (Int 100)) (signal !! "percent")))
           (Num.mul size) = inl e ->
  exit_handler d exchange symbol signal w
    = (failure (msg_exit_failed d e) signal, w1).
Proof.
  intros Hin Hget Hsize Hraise.
  destruct d; simpl in *; unfold _execute_long_exit, _execute_short_exit,
    close_long_position, close_short_position,
    catch_all, bind, lift, call, position_contracts.
  all: rewrite Hin, Hget, Hsize.
  all: destruct (percent_ratio _) as [e' | ratio]; simpl in Hraise;
    [by injection Hraise as -> | by rewrite Hraise].
Qed.

(** When [c <= 0], the guard answers and the venue is not called. *)
Lemma exit_quantity_rejected d exchange symbol signal w pos w1 size c :
  percent_out_of_range (default (VNum (Int 100)) (signal !! "percent"))
    = inr false ->
  _get_position exchange symbol (side_name d) w = (Some pos, w1) ->
  contracts pos = Some size ->
  res_bind (percent_ratio (default (VNum (Int 100)) (signal !! "percent")))
           (Num.mul size) = inr c ->
  Num.leb c (Int 0) = true ->
  exit_handler d exchange symbol signal w
    = (failure (MsgCloseQuantityNotPositive size
                  (default (VNum (Int 100)) (signal !! "percent"))) signal,
       w1).
Proof.
  intros Hin Hget Hsize Hc Hle.
  destruct d; simpl in *; unfold _execute_long_exit, _execute_short_exit,
    close_long_position, close_short_position,
    catch_all, bind, lift, call, position_contracts.
  all: rewrite Hin, Hget, Hsize.
  all: destruct (percent_ratio _) as [e' | ratio]; simpl in Hc;
    [done | by rewrite Hc, Hle].
Qed.

(** Otherwise the handler normalizes the symbol and places one reduce-only
    order for [c], or for [size] when [c > size]. *)
Lemma exit_with_position d exchange symbol signal w pos w1 size c :
  percent_out_of_range (default (VNum (Int 100)) (signal !! "percent"))
    = inr false ->
  _get_position exchange symbol (side_name d) w = (Some pos, w1) ->
  contracts pos = Some size ->
  res_bind (percent_ratio (default (VNum (Int 100)) (signal !! "percent")))
           (Num.mul size) = inr c ->
  Num.leb c (Int 0) = false ->
  exists n w2,
    _normalize_symbol exchange symbol w1 = (inr n, w2) /\
    let q := clamp_to size c in
    let percent := default (VNum (Int 100)) (signal !! "percent") in
    exit_handler d exchange symbol signal w =
      catch_all
        (bind (place_closing_order d exchange n q) (fun o =>
           ret (placed (msg_exit_ok d percent) o signal
                  (ExitDetails symbol (order_side (opposite d)) q size
                     percent))))
        (fun e => failure (msg_exit_failed d e) signal) w2.
Proof.
  intros Hin Hget Hsize Hc Hpos.
  destruct (get_position_found _ _ _ _ _ _ Hget)
    as (s & c' & -> & _ & _ & _).
  destruct (_normalize_symbol exchange (VStr s) w1) as [r w2] eqn:Hn.
  destruct (normalize_symbol_returns exchange s w1) as [n Hr].
  rewrite Hn in Hr. simpl in Hr. subst r. exists n, w2. split; [done |].
  intros q percent.
  destruct d; simpl in *; unfold _execute_long_exit, _execute_short_exit,
    close_long_position, close_short_position,
    catch_all, bind, lift, call, position_contracts.
  all: rewrite Hin, Hget, Hsize.
  all: destruct (percent_ratio _) as [e' | ratio]; simpl in Hc; [done |].
  all: rewrite Hc, Hpos, Hn; reflexivity.
Qed.

Lemma exit_echoes d exchange symbol signal w :
  r_signal (fst (exit_handler d exchange symbol signal w)) = signal.
Proof.
  destruct d; simpl; unfold _execute_long_exit, _execute_short_exit,
    close_long_position, close_short_position.
  all: apply catch_all_echoes; [repeat step_echoes | done].
Qed.

End Exits.

Section ExitJournal.
Context `{!Builtins} {X : Type} `{!Gateway X}.
Implicit Types (w : World X) (exchange : Venue) (d : Direction).


Lemma query_not_opening c : query c -> opens_position c = false.
Proof. by destruct c. Qed.

(** The only order an exit handler places is a reduce-only one. *)
Lemma exit_emits_reduce_only d exchange symbol signal :
  emits (fun c => opens_position c = false)
        (exit_handler d exchange symbol signal).
Proof.
  destruct d; simpl; unfold _execute_long_exit, _execute_short_exit,
    close_long_position, close_short_position,
    create_market_sell_order, create_market_buy_order.
  all: repeat first
         [ eapply emits_weaken;
           [apply query_not_opening | apply get_position_emits]
         | eapply emits_weaken;
           [apply query_not_opening | apply normalize_symbol_emits]
         | step_emits ltac:(reflexivity) ].
Qed.


(** Every order an exit handler places for a position of size [size] is
    for at most [size]. *)
Lemma close_position_within d exchange symbol signal percent pos size :
  contracts pos = Some size ->
  Num.ltb (Int 0) size = true ->
  emits (order_within size)
        (close_position d exchange symbol signal percent pos).
Proof.
  intros Hsize Hpos.
  assert (forall c, query c -> order_within size c) as Hquery.
  { intros c. unfold query, is_order, order_within.
    by destruct (order_quantity c). }
  destruct d; simpl; unfold close_long_position, close_short_position,
    create_market_sell_order, create_market_buy_order.
  all: unfold position_contracts; rewrite Hsize, bind_lift.
  all: apply emits_bind; [apply emits_lift | intros ratio].
  all: apply emits_bind; [apply emits_lift | intros q]; simpl.
  all: destruct (Num.leb q (Int 0)) eqn:Hq; [apply emits_ret |].
  all: apply emits_bind;
    [ eapply emits_weaken; [apply Hquery | apply normalize_symbol_emits]
    | intros n ].
  all: apply emits_bind; [| intros o; apply emits_ret].
  all: apply emits_invoke; unfold order_within; simpl.
  all: destruct (clamp_to_facts size q Hpos Hq) as (_ & _ & Hle & _ & Hreal).
  all: split; [exact Hle | intros Hnan; by apply Hreal].
Qed.

End ExitJournal.

(** ** The entry handlers *)

Section Entries.
Context `{!Builtins} {X : Type} `{!Gateway X}.
Implicit Types (w : World X) (exchange : Venue) (d : Direction)
  (self : TradingEngine).

(** The duplicate-direction guard: with a position of direction [d]
    found, the entry returns right after the two lookups. *)
Lemma entry_blocked d self exchange symbol signal w lp w1 sp w2 pos :
  _get_position exchange symbol "long" w = (lp, w1) ->
  _get_position exchange symbol "short" w1 = (sp, w2) ->
  found d lp sp = Some pos ->
  entry_handler d self exchange symbol signal w =
    (failure (msg_already d) signal, w2).
Proof.
  intros Hl Hs Hf.
  destruct d; simpl in *; subst; unfold _execute_long_entry,
    _execute_short_entry, catch_all, bind, call; by rewrite Hl, Hs.
Qed.

(** The flip: with no position of direction [d] and one of the opposite
    direction, the opposite exit handler runs once on [{"percent": 100}]
    and its result decides whether the entry goes on. *)
Lemma entry_flips d self exchange symbol signal w lp w1 sp w2 pos :
  _get_position exchange symbol "long" w = (lp, w1) ->
  _get_position exchange symbol "short" w1 = (sp, w2) ->
  found d lp sp = None ->
  found (opposite d) lp sp = Some pos ->
  entry_handler d self exchange symbol signal w =
    let (close_result, w3) :=
      exit_handler (opposite d) exchange symbol {["percent" := VNum (Int 100)]} w2 in
    if success close_result
    then catch_all (place_entry d self exchange symbol signal)
                   (fun e => failure (msg_entry_failed d e) signal) w3
    else (failure (msg_flip_failed d (message close_result)) signal, w3).
Proof.
  intros Hl Hs Hsame Hopp.
  destruct d; simpl in *; subst; unfold _execute_long_entry,
    _execute_short_entry, catch_all, bind, call; rewrite Hl, Hs.
  - destruct (_execute_short_exit _ _ _ w2) as [cr w3].
    by destruct (success cr).
  - destruct (_execute_long_exit _ _ _ w2) as [cr w3].
    by destruct (success cr).
Qed.

(** With no position on either side the entry goes straight on. *)
Lemma entry_from_flat d self exchange symbol signal w w1 w2 :
  _get_position exchange symbol "long" w = (None, w1) ->
  _get_position exchange symbol "short" w1 = (None, w2) ->
  entry_handler d self exchange symbol signal w =
    catch_all (place_entry d self exchange symbol signal)
              (fun e => failure (msg_entry_failed d e) signal) w2.
Proof.
  intros Hl Hs.
  destruct d; simpl in *; unfold _execute_long_entry,
    _execute_short_entry, catch_all, bind, call; by rewrite Hl, Hs.
Qed.

Lemma place_entry_echoes d self exchange symbol signal :
  echoes signal (place_entry d self exchange symbol signal).
Proof.
  destruct d; simpl; unfold place_long_entry, place_short_entry;
    repeat step_echoes.
Qed.

Lemma entry_echoes d self exchange symbol signal w :
  r_signal (fst (entry_handler d self exchange symbol signal w)) = signal.
Proof.
  destruct d; simpl; unfold _execute_long_entry, _execute_short_entry.
  all: apply catch_all_echoes; [| done].
  all: repeat first
         [ apply (place_entry_echoes Long)
         | apply (place_entry_echoes Short)
         | step_echoes ].
Qed.

(** What [place_entry] does when the venue cooperates and the quantity
    [(amount * leverage) / price] can be computed: one opening order for
    it. *)
Lemma place_entry_order d self exchange symbol signal w n w1 tk w3 notional q :
  let leverage := default (default_leverage self) (signal !! "leverage") in
  _normalize_symbol exchange symbol w = (inr n, w1) ->
  fetch_ticker exchange n
    (snd (set_leverage_best_effort exchange leverage n w1)) = (inr tk, w3) ->
  py_mul (default (VNum (Int 100)) (signal !! "amount")) leverage
    = inr notional ->
  py_div notional (last tk) = inr q ->
  place_entry d self exchange symbol signal w =
    bind (place_opening_order d exchange n q)
      (fun o =>
         ret (placed (msg_entry_ok d) o signal
                (EntryDetails symbol (order_side d) q (last tk) leverage)))
      w3.
Proof.
  intros leverage Hn Ht Hmul Hdiv.
  destruct d; simpl; unfold place_long_entry, place_short_entry.
  all: unfold bind at 1; rewrite Hn.
  all: unfold bind at 1, call at 1.
  all: fold leverage.
  all: destruct (set_leverage_best_effort _ _ _ w1) as [[] w2]; simpl in Ht.
  all: unfold bind at 1; rewrite Ht.
  all: unfold bind at 1, lift at 1; rewrite Hmul.
  all: unfold bind at 1, lift at 1; rewrite Hdiv.
  all: reflexivity.
Qed.

(** When the quantity cannot be computed the entry is over once the price
    has been fetched: no order is placed. *)
Lemma place_entry_arithmetic_raises
    d self exchange symbol signal w n w1 tk w3 e :
  let leverage := default (default_leverage self) (signal !! "leverage") in
  _normalize_symbol exchange symbol w = (inr n, w1) ->
  fetch_ticker exchange n
    (snd (set_leverage_best_effort exchange leverage n w1)) = (inr tk, w3) ->
  res_bind (py_mul (default (VNum (Int 100)) (signal !! "amount")) leverage)
           (fun notional => py_div notional (last tk)) = inl e ->
  place_entry d self exchange symbol signal w = (inl e, w3).
Proof.
  intros leverage Hn Ht Hraise.
  destruct d; simpl; unfold place_long_entry, place_short_entry.
  all: unfold bind at 1; rewrite Hn.
  all: unfold bind at 1, call at 1.
  all: fold leverage.
  all: destruct (set_leverage_best_effort _ _ _ w1) as [[] w2]; simpl in Ht.
  all: unfold bind at 1; rewrite Ht.
  all: unfold bind, lift.
  all: destruct (py_mul _ _) as [e' | notional]; simpl in Hraise;
    [by injection Hraise as -> | by rewrite Hraise].
Qed.

End Entries.

Section EntryDefaults.
Context `{!Builtins} {X : Type} `{!Gateway X}.
Implicit Types (w : World X) (exchange : Venue) (d : Direction)
  (self : TradingEngine).

Lemma alike_bind {A} signal (m : M X A) (k k' : A -> M X Result) :
  (forall a, alike signal (k a) (k' a)) ->
  alike signal (bind m k) (bind m k').
Proof.
  intros Hk w. unfold bind. destruct (m w) as [[e | a] w1]; [done |].
  apply Hk.
Qed.

Lemma alike_ret signal r r' :
  r = with_signal signal r' -> alike (X := X) signal (ret r) (ret r').
Proof. by intros ->. Qed.

Lemma alike_catch_all signal (m m' : M X Result) (h h' : exn -> Result) w :
  alike signal m m' ->
  (forall e, h e = with_signal signal (h' e)) ->
  catch_all m h w = echo_as signal (catch_all m' h' w).
Proof.
  intros Hm Hh. unfold catch_all, echo_as. rewrite (Hm w).
  destruct (m' w) as [[e | r] w1]; simpl; [by rewrite Hh | done].
Qed.

Lemma place_entry_alike d self exchange symbol signal signal' :
  default (VNum (Int 100)) (signal !! "amount")
    = default (VNum (Int 100)) (signal' !! "amount") ->
  default (default_leverage self) (signal !! "leverage")
    = default (default_leverage self) (signal' !! "leverage") ->
  alike signal (place_entry d self exchange symbol signal)
               (place_entry d self exchange symbol signal').
Proof.
  intros Ha Hl.
  destruct d; simpl; unfold place_long_entry, place_short_entry.
  all: rewrite Ha, Hl.
  all: repeat (apply alike_bind; intros ?).
  all: by apply alike_ret.
Qed.

(** An entry handler reads its signal only through
    [signal.get("amount", 100)] and
    [signal.get("leverage", default_leverage)]: two signals that agree on
    both are handled alike, up to the signal echoed in the result. *)
Lemma entry_same_sizing d self exchange symbol signal signal' w :
  default (VNum (Int 100)) (signal !! "amount")
    = default (VNum (Int 100)) (signal' !! "amount") ->
  default (default_leverage self) (signal !! "leverage")
    = default (default_leverage self) (signal' !! "leverage") ->
  entry_handler d self exchange symbol signal w =
    echo_as signal (entry_handler d self exchange symbol signal' w).
Proof.
  intros Ha Hl.
  pose proof (place_entry_alike Long self exchange symbol _ _ Ha Hl) as HL.
  pose proof (place_entry_alike Short self exchange symbol _ _ Ha Hl) as HS.
  destruct d; simpl; unfold _execute_long_entry, _execute_short_entry.
  all: apply alike_catch_all; [| done].
  all: apply alike_bind; intros lp; apply alike_bind; intros sp.
  all: destruct lp, sp; try (by apply alike_ret); try done.
  all: apply alike_bind; intros cr; destruct (negb (success cr)); try done.
  all: by apply alike_ret.
Qed.

End EntryDefaults.

(** ** Compound-mode sizing and the dispatcher *)

Section Dispatcher.
Context `{!Builtins} {X : Type} `{!Gateway X}.
Implicit Types (w : World X) (exchange : Venue) (d : Direction)
  (self : TradingEngine).

Lemma compound_amount_computed
    exchange signal w bal x1 free_usdt percent amount :
  gw_fetch_balance exchange (venue w) = (inr bal, x1) ->
  free bal !! "USDT" = Some free_usdt ->
  signal !! "percent" = Some percent ->
  compound_of free_usdt percent = inr amount ->
  fst (compound_amount exchange signal w)
    = <["amount" := VNum amount]> signal.
Proof.
  intros Hb Hf Hp Hamount.
  unfold compound_amount, catch_all, bind, fetch_balance, invoke, lift.
  rewrite Hb, Hf, Hp. simpl. by rewrite Hamount.
Qed.

(** An amount that cannot be computed (a percent [float] does not accept, a
    balance that is not a number, an [int] too large for a float) is
    replaced by 100. *)
Lemma compound_amount_raises
    exchange signal w bal x1 free_usdt percent e :
  gw_fetch_balance exchange (venue w) = (inr bal, x1) ->
  free bal !! "USDT" = Some free_usdt ->
  signal !! "percent" = Some percent ->
  compound_of free_usdt percent = inl e ->
  fst (compound_amount exchange signal w)
    = <["amount" := VNum (Int 100)]> signal.
Proof.
  intros Hb Hf Hp Hamount.
  unfold compound_amount, catch_all, bind, fetch_balance, invoke, lift.
  rewrite Hb, Hf, Hp. simpl. by rewrite Hamount.
Qed.

Lemma compound_amount_fetch_fails exchange signal w e x1 :
  gw_fetch_balance exchange (venue w) = (inl e, x1) ->
  fst (compound_amount exchange signal w) = <["amount" := VNum (Int 100)]> signal.
Proof.
  intros Hb.
  unfold compound_amount, catch_all, bind, fetch_balance, invoke.
  by rewrite Hb.
Qed.

Lemma compound_amount_no_usdt exchange signal w bal x1 :
  gw_fetch_balance exchange (venue w) = (inr bal, x1) ->
  free bal !! "USDT" = None ->
  fst (compound_amount exchange signal w) = <["amount" := VNum (Int 100)]> signal.
Proof.
  intros Hb Hf.
  unfold compound_amount, catch_all, bind, fetch_balance, invoke.
  by rewrite Hb, Hf.
Qed.

(** Whatever happens, compound mode assigns [signal['amount']] and
    nothing else. *)
Lemma compound_amount_assigns exchange signal w :
  exists a, fst (compound_amount exchange signal w)
            = <["amount" := VNum a]> signal.
Proof.
  unfold compound_amount, catch_all, bind, lift, ret.
  destruct (fetch_balance exchange w) as [[e | bal] w1]; [by eexists |].
  destruct (free bal !! "USDT") as [fu |]; [| by eexists].
  unfold lift. destruct (compound_of _ _) as [e | amount]; by eexists.
Qed.

Lemma dispatch_entry d self exchange symbol signal :
  dispatch self exchange symbol (VStr (entry_action d)) signal
    = entry_handler d self exchange symbol signal.
Proof. by destruct d. Qed.

Lemma dispatch_exit d self exchange symbol signal :
  dispatch self exchange symbol (VStr (exit_action d)) signal
    = exit_handler d exchange symbol signal.
Proof. by destruct d. Qed.

Lemma dispatch_echoes self exchange symbol action signal w :
  r_signal (fst (dispatch self exchange symbol action signal w)) = signal.
Proof.
  unfold dispatch.
  destruct (py_eq_str action "long_entry");
    [apply (entry_echoes Long) |].
  destruct (py_eq_str action "short_entry");
    [apply (entry_echoes Short) |].
  destruct (py_eq_str action "long_exit"); [apply (exit_echoes Long) |].
  destruct (py_eq_str action "short_exit"); [apply (exit_echoes Short) |].
  reflexivity.
Qed.

(** A routed signal outside compound mode goes to its handler as it is,
    with no call made before. *)
Lemma execute_signal_plain self signal w exchange symbol :
  route self signal = inr (Routed exchange symbol) ->
  has_key "percent" signal && negb (has_key "amount" signal) = false ->
  execute_signal self signal w =
    dispatch self exchange symbol (default VNone (signal !! "action"))
             signal w.
Proof.
  intros Hr Hc. unfold execute_signal, catch_all, bind, lift, call, ret.
  rewrite Hr, Hc.
  by destruct (dispatch _ _ _ _ _ w).
Qed.

(** A routed entry signal in compound mode is sized first and dispatched
    with the amount assigned. *)
Lemma execute_signal_compound self signal w exchange symbol a :
  route self signal = inr (Routed exchange symbol) ->
  has_key "percent" signal && negb (has_key "amount" signal) = true ->
  signal !! "action" = Some (VStr a) ->
  Str.contains "entry" a = true ->
  execute_signal self signal w =
    let (sized, w1) := compound_amount exchange signal w in
    dispatch self exchange symbol (VStr a) sized w1.
Proof.
  intros Hr Hc Ha He. unfold execute_signal, catch_all, bind, lift, call, ret.
  rewrite Hr, Hc, Ha. simpl. rewrite He.
  destruct (compound_amount exchange signal w) as [sized w1].
  by destruct (dispatch _ _ _ _ _ w1).
Qed.

End Dispatcher.

(** ** The claims about the handlers *)

Section HandlerClaims.
Context `{!Builtins} {X : Type} `{!Gateway X}.
Implicit Types (w : World X) (exchange : Venue) (d : Direction)
  (self : TradingEngine).

Lemma lookups_emit_queries exchange symbol w lp w1 sp w2 :
  _get_position exchange symbol "long" w = (lp, w1) ->
  _get_position exchange symbol "short" w1 = (sp, w2) ->
  extends query w w2.
Proof.
  intros Hl Hs.
  pose proof (get_position_emits exchange symbol "long" w) as H1.
  pose proof (get_position_emits exchange symbol "short" w1) as H2.
  rewrite Hl in H1. rewrite Hs in H2. by eapply extends_trans.
Qed.

(** C1 (amended): an entry in direction [d] made while the resolver
    reports no position of direction [d] and a position of the opposite
    direction runs the opposite exit handler exactly once, on the
    synthetic signal [{"percent": 100}], right after the two lookups.  If
    that close succeeds, the entry goes on from the world the close left;
    if it reports [success = false], the entry returns [success = false]
    with the message of the failed close wrapped in its own, and no
    position-opening order has been placed.  In both cases nothing that
    could open a position is called before the close has returned. *)
Theorem C1_flip_closes_opposite_first
    d self exchange symbol signal w lp w1 sp w2 pos :
  _get_position exchange symbol "long" w = (lp, w1) ->
  _get_position exchange symbol "short" w1 = (sp, w2) ->
  found d lp sp = None ->
  found (opposite d) lp sp = Some pos ->
  let close :=
    exit_handler (opposite d) exchange symbol {["percent" := VNum (Int 100)]} w2 in
  extends (fun c => opens_position c = false) w (snd close) /\
  (success (fst close) = true ->
     entry_handler d self exchange symbol signal w =
       catch_all (place_entry d self exchange symbol signal)
                 (fun e => failure (msg_entry_failed d e) signal)
                 (snd close)) /\
  (success (fst close) = false ->
     entry_handler d self exchange symbol signal w =
       (failure (msg_flip_failed d (message (fst close))) signal, snd close)).
Proof.
  intros Hl Hs Hsame Hopp close.
  pose proof (entry_flips d self exchange symbol signal w _ _ _ _ _
                Hl Hs Hsame Hopp) as Hrun.
  fold close in Hrun. destruct close as [cr w3] eqn:Hclose. simpl.
  split; [| split].
  - eapply extends_trans.
    + eapply extends_weaken;
        [apply query_not_opening | by eapply lookups_emit_queries].
    + pose proof (exit_emits_reduce_only (opposite d) exchange symbol
                    {["percent" := VNum (Int 100)]} w2) as Hexit.
      fold close in Hexit. by rewrite Hclose in Hexit.
  - intros Hok. by rewrite Hok in Hrun.
  - intros Hko. by rewrite Hko in Hrun.
Qed.

(** C5: an exit with a percent [p] in (0, 100] on a position of reported
    size [size].  Whatever the venue answers, an order the handler submits is
    for at most [size]: its quantity [q] never has [q > size], and
    [q <= size] holds unless [q] is NaN.  With [c = size * (p / 100)], in the
    floating-point arithmetic of the code: the submitted quantity is [c],
    replaced by [size] exactly when the rounded [c] exceeds [size]; when
    [c <= 0] (a percent so small that the product underflows) the guard
    answers and nothing is submitted; otherwise one reduce-only order is
    submitted, right after the symbol has been normalized; when [c] cannot
    be computed the handler fails without a call. *)
Theorem C5_close_quantity_within_position
    d exchange symbol signal w pos w1 size p :
  let percent := default (VNum (Int 100)) (signal !! "percent") in
  as_number percent = inr p ->
  Num.ltb (Int 0) p = true -> Num.leb p (Int 100) = true ->
  _get_position exchange symbol (side_name d) w = (Some pos, w1) ->
  contracts pos = Some size ->
  let out := exit_handler d exchange symbol signal w in
  extends (order_within size) w (snd out) /\
  (forall ratio c,
     Num.div p (Int 100) = inr ratio ->
     Num.mul size ratio = inr c ->
     let q := clamp_to size c in
     (Num.leb c (Int 0) = true ->
        out = (failure (MsgCloseQuantityNotPositive size percent) signal,
               w1)) /\
     (Num.leb c (Int 0) = false ->
        (q = c \/ (Num.ltb size c = true /\ q = size)) /\
        Num.ltb size q = false /\
        (Num.is_nan q = false -> Num.leb q size = true) /\
        exists n w2,
          _normalize_symbol exchange symbol w1 = (inr n, w2) /\
          calls (snd out)
            = (calls w2 ++ [closing_order d exchange n q])%list)) /\
  (forall e,
     res_bind (Num.div p (Int 100)) (Num.mul size) = inl e ->
     out = (failure (msg_exit_failed d e) signal, w1)).
Proof.
  intros percent Hp Hpos Hle Hget Hsize out. subst percent.
  assert (percent_out_of_range
            (default (VNum (Int 100)) (signal !! "percent")) = inr false)
    as Hin.
  { pose proof (percent_in_range p Hpos Hle) as Hin.
    unfold percent_out_of_range in *. by rewrite Hp. }
  destruct (get_position_found _ _ _ _ _ _ Hget)
    as (s & c0 & _ & _ & Hc0 & Hsize0).
  assert (c0 = size) as -> by congruence.
  assert (percent_ratio (default (VNum (Int 100)) (signal !! "percent"))
          = Num.div p (Int 100)) as Hratio
    by (unfold percent_ratio; by rewrite Hp).
  split; [| split].
  - assert (forall c, query c -> order_within size c) as Hquery.
    { intros c. unfold query, is_order, order_within.
      by destruct (order_quantity c). }
    pose proof (get_position_emits exchange symbol (side_name d) w) as Hlook.
    rewrite Hget in Hlook. simpl in Hlook.
    eapply extends_trans; [eapply extends_weaken; [exact Hquery | exact Hlook] |].
    pose proof (close_position_within d exchange symbol signal
                  (default (VNum (Int 100)) (signal !! "percent")) pos size
                  Hsize Hsize0 w1) as Hclose.
    assert (snd out
            = snd (close_position d exchange symbol signal
                     (default (VNum (Int 100)) (signal !! "percent")) pos w1))
      as ->; [| exact Hclose].
    unfold out.
    destruct d; simpl; unfold _execute_long_exit, _execute_short_exit,
      catch_all, bind, lift, call; simpl in Hget; rewrite Hin, Hget.
    + by destruct (close_long_position _ _ _ _ _ w1) as [[e | r] w2].
    + by destruct (close_short_position _ _ _ _ _ w1) as [[e | r] w2].
  - intros ratio c Hr Hc q.
    assert (res_bind
              (percent_ratio (default (VNum (Int 100)) (signal !! "percent")))
              (Num.mul size) = inr c) as Hcomputed
      by (rewrite Hratio, Hr; exact Hc).
    split.
    + intros Hneg. unfold out.
      by eapply exit_quantity_rejected.
    + intros Hq.
      destruct (clamp_to_facts size c Hsize0 Hq)
        as (Hwhich & _ & Hnot_above & _ & Hreal).
      split; [exact Hwhich |]. split; [exact Hnot_above |].
      split; [intros Hnan; by apply Hreal |].
      destruct (exit_with_position d exchange symbol signal w pos w1 size c
                  Hin Hget Hsize Hcomputed Hq) as (n & w2 & Hn & Hrun).
      exists n, w2. split; [exact Hn |].
      unfold out. simpl in Hrun. rewrite Hrun. unfold catch_all, bind.
      destruct d; simpl; unfold create_market_sell_order,
        create_market_buy_order, invoke.
      * by destruct (gw_create_market_sell_order _ _ _ _ _) as [[e | o] x3].
      * by destruct (gw_create_market_buy_order _ _ _ _ _) as [[e | o] x3].
  - intros e Hraise. unfold out.
    eapply exit_arithmetic_raises; try done. by rewrite Hratio.
Qed.

(** C6 (amended): an entry in direction [d] made while the resolver reports a
    position of direction [d] returns [success = false] right after the
    two lookups; no order call is made. *)
Theorem C6_duplicate_direction_blocked
    d self exchange symbol signal w lp w1 sp w2 pos :
  _get_position exchange symbol "long" w = (lp, w1) ->
  _get_position exchange symbol "short" w1 = (sp, w2) ->
  found d lp sp = Some pos ->
  entry_handler d self exchange symbol signal w
    = (failure (msg_already d) signal, w2) /\
  success (fst (entry_handler d self exchange symbol signal w)) = false /\
  extends query w (snd (entry_handler d self exchange symbol signal w)).
Proof.
  intros Hl Hs Hf.
  rewrite (entry_blocked d self exchange symbol signal w _ _ _ _ _ Hl Hs Hf).
  repeat split. by eapply lookups_emit_queries.
Qed.

(** C7 (amended): an exit whose percent is absent or passes the range
    check, and for which the resolver finds no position, returns
    [success = true] with the informational "no position" message, and no
    order call is made; this is in particular the outcome when the position
    fetch itself raises. *)
Theorem C7_exit_without_position_succeeds d exchange symbol signal w :
  percent_out_of_range (default (VNum (Int 100)) (signal !! "percent")) = inr false ->
  let out := exit_handler d exchange symbol signal w in
  (forall w1,
     _get_position exchange symbol (side_name d) w = (None, w1) ->
     out = (informational (msg_no_position d) signal, w1) /\
     success (fst out) = true /\
     extends query w (snd out)) /\
  (forall s n w1 e x2,
     symbol = VStr s ->
     _normalize_symbol exchange symbol w = (inr n, w1) ->
     gw_fetch_positions exchange [n] (venue w1) = (inl e, x2) ->
     fst out = informational (msg_no_position d) signal /\
     extends query w (snd out)).
Proof.
  intros Hin out.
  assert (forall w1,
     _get_position exchange symbol (side_name d) w = (None, w1) ->
     out = (informational (msg_no_position d) signal, w1) /\
     success (fst out) = true /\
     extends query w (snd out)) as Hnone.
  { intros w1 Hget. unfold out.
    rewrite (exit_without_position d exchange symbol signal w w1 Hin Hget).
    repeat split. simpl.
    pose proof (get_position_emits exchange symbol (side_name d) w) as He.
    by rewrite Hget in He. }
  split; [exact Hnone |].
  intros s n w1 e x2 -> Hn Hfetch.
  pose proof (get_position_fetch_error exchange s (side_name d) w n w1 e x2
                Hn Hfetch) as Hget.
  destruct (_get_position exchange (VStr s) (side_name d) w)
    as [found_position w2] eqn:Hrun.
  simpl in Hget. subst found_position.
  destruct (Hnone w2 eq_refl) as (-> & _ & Hquiet). by split.
Qed.

End HandlerClaims.

(** ** The claims about [execute_signal] *)

Section DispatcherClaims.
Context `{!Builtins} {X : Type} `{!Gateway X}.
Implicit Types (w : World X) (exchange : Venue) (d : Direction)
  (self : TradingEngine).

(** An early result of [route] is a failure echoing the signal. *)
Lemma route_rejected self signal r :
  route self signal = inr (Rejected r) ->
  success r = false /\ r_signal r = signal.
Proof.
  unfold route, res_bind. intros Hr.
  destruct (py_lower _) as [e | name]; [discriminate |].
  destruct (if String.eqb name "binance" then _ else _) as [e | sym];
    [discriminate |].
  destruct (negb (enable_trading self)).
  - injection Hr as <-. done.
  - destruct (exchanges self !! name); [discriminate |].
    injection Hr as <-. done.
Qed.

(** An exit signal never enters compound mode. *)
Lemma execute_signal_exit d self signal w :
  signal !! "action" = Some (VStr (exit_action d)) ->
  execute_signal self signal w =
    match route self signal with
    | inl e => (failure (MsgExecutionError e) signal, w)
    | inr (Rejected r) => (r, w)
    | inr (Routed exchange symbol) => exit_handler d exchange symbol signal w
    end.
Proof.
  intros Ha. unfold execute_signal, catch_all, bind, lift, call, ret.
  rewrite Ha. change (default VNone (Some ?v)) with v.
  destruct (route self signal) as [e | [r | exchange symbol]]; try done.
  assert (py_contains "entry" (VStr (exit_action d)) = inr false) as Hc
    by by destruct d.
  destruct (has_key "percent" signal && negb (has_key "amount" signal));
    rewrite ?Hc; rewrite dispatch_exit;
    by destruct (exit_handler d exchange symbol signal w).
Qed.

(** C2 (amended): an exit signal ([long_exit] or [short_exit]) whose
    percent [p] has [p <= 0] or [p > 100] is answered with
    [success = false] without a single call on the exchange object,
    whatever the engine settings; once routed to an exchange the answer is
    the close-ratio validation message.  (Entry sizing applies no range
    check to the percent.) *)
Theorem C2_exit_percent_rejected_without_call d self signal w p :
  signal !! "action" = Some (VStr (exit_action d)) ->
  signal !! "percent" = Some (VNum p) ->
  Num.leb p (Int 0) = true \/ Num.ltb (Int 100) p = true ->
  success (fst (execute_signal self signal w)) = false /\
  snd (execute_signal self signal w) = w /\
  (forall exchange symbol,
     route self signal = inr (Routed exchange symbol) ->
     execute_signal self signal w
       = (failure (MsgCloseRatioRange (VNum p)) signal, w)) /\
  (forall exchange symbol,
     exit_handler d exchange symbol signal w
       = (failure (MsgCloseRatioRange (VNum p)) signal, w)).
Proof.
  intros Ha Hp Hout.
  assert (forall exchange symbol,
     exit_handler d exchange symbol signal w
       = (failure (MsgCloseRatioRange (VNum p)) signal, w)) as Hexit.
  { intros exchange symbol.
    rewrite (exit_rejects_percent d exchange symbol signal w); rewrite Hp;
      simpl; [done | by apply percent_outside_range]. }
  rewrite (execute_signal_exit d self signal w Ha).
  destruct (route self signal) as [e | [r | exchange symbol]] eqn:Hr.
  - by repeat split.
  - destruct (route_rejected self signal r Hr) as [Hs _].
    by repeat split.
  - rewrite Hexit. by repeat split.
Qed.


(** C9 (amended): [execute_signal] never removes or changes an entry of
    the signal.  The result echoes either the signal as received or, when
    the signal carried a percent and no amount (compound mode), the signal
    with the one entry ["amount"] added by the sizing; the handlers
    themselves echo the signal they are given. *)
Theorem C9_signal_only_gains_amount self signal w :
  (r_signal (fst (execute_signal self signal w)) = signal \/
   (signal !! "amount" = None /\ is_Some (signal !! "percent") /\
    exists a, r_signal (fst (execute_signal self signal w))
              = <["amount" := VNum a]> signal)) /\
  (forall d exchange symbol,
     r_signal (fst (entry_handler d self exchange symbol signal w)) = signal /\
     r_signal (fst (exit_handler d exchange symbol signal w)) = signal).
Proof.
  split; [| intros d exchange symbol; split;
            [apply entry_echoes | apply exit_echoes]].
  destruct (route self signal) as [e | [r | exchange symbol]] eqn:Hr.
  - left. unfold execute_signal, catch_all, bind, lift. by rewrite Hr.
  - left. unfold execute_signal, catch_all, bind, lift, ret. rewrite Hr.
    simpl. by destruct (route_rejected self signal r Hr).
  - destruct (has_key "percent" signal && negb (has_key "amount" signal))
      eqn:Hc.
    + destruct (py_contains "entry" (default VNone (signal !! "action")))
        as [e | [|]] eqn:He.
      * left. unfold execute_signal, catch_all, bind, lift.
        by rewrite Hr, Hc, He.
      * right.
        assert (exists act, signal !! "action" = Some (VStr act) /\
                            Str.contains "entry" act = true)
          as (act & Hact & Hent).
        { destruct (signal !! "action") as [[| b | q | s] |];
            simpl in He; try discriminate.
          exists s. split; [done | congruence]. }
        rewrite (execute_signal_compound self signal w _ _ act
                   Hr Hc Hact Hent).
        destruct (compound_amount_assigns exchange signal w) as [a Hsized].
        destruct (compound_amount exchange signal w) as [sized w1].
        simpl in Hsized. subst sized.
        apply andb_true_iff in Hc as [Hp Ha]. unfold has_key in *.
        destruct (signal !! "amount"); [done |].
        destruct (signal !! "percent"); [| done].
        repeat split; [by eexists |].
        exists a. apply dispatch_echoes.
      * left. unfold execute_signal, catch_all, bind, lift, call, ret.
        rewrite Hr, Hc, He.
        pose proof (dispatch_echoes self exchange symbol
                      (default VNone (signal !! "action")) signal w) as Hecho.
        by destruct (dispatch _ _ _ _ _ w).
    + left. rewrite (execute_signal_plain self signal w _ _ Hr Hc).
      apply dispatch_echoes.
Qed.

End DispatcherClaims.

Section SizingClaims.
Context `{!Builtins} {X : Type} `{!Gateway X}.
Implicit Types (w : World X) (exchange : Venue) (d : Direction)
  (self : TradingEngine).

(** C3 (amended): a routed signal whose action contains "entry", with a
    percent and no amount, is sized before it is dispatched: the dispatcher
    runs on the signal with ["amount"] assigned and the result echoes that
    signal.  With a free USDT balance [f] and [p = float(percent)], the
    amount is [round(c, 2)] for the floating-point product
    [c = f * (p / 100.0)], with [c] replaced by the integer 11 when
    [c < 10]; in particular 50.0 for a balance of 1000.0 and 11 for a
    balance of 100.0 at 5 percent.  If the balance fetch raises, the
    balance has no USDT entry, or the amount cannot be computed, the amount
    is 100, and the signal is dispatched all the same. *)
Theorem C3_compound_amount self signal w exchange symbol a percent :
  route self signal = inr (Routed exchange symbol) ->
  signal !! "action" = Some (VStr a) ->
  Str.contains "entry" a = true ->
  signal !! "percent" = Some percent ->
  signal !! "amount" = None ->
  let sized := compound_amount exchange signal w in
  execute_signal self signal w
    = dispatch self exchange symbol (VStr a) (fst sized) (snd sized) /\
  r_signal (fst (execute_signal self signal w)) = fst sized /\
  (forall bal x1 free_usdt,
     gw_fetch_balance exchange (venue w) = (inr bal, x1) ->
     free bal !! "USDT" = Some free_usdt ->
     (forall p ratio f c,
        py_float percent = inr p ->
        Num.div (Float p) (whole 100) = inr ratio ->
        as_number free_usdt = inr f ->
        Num.mul f ratio = inr c ->
        (Num.ltb c (Int 10) = true ->
           fst sized = <["amount" := VNum (Int 11)]> signal) /\
        (Num.ltb c (Int 10) = false ->
           fst sized = <["amount" := VNum (Num.round2 c)]> signal)) /\
     (forall e,
        compound_of free_usdt percent = inl e ->
        fst sized = <["amount" := VNum (Int 100)]> signal)) /\
  (forall e x1,
     gw_fetch_balance exchange (venue w) = (inl e, x1) ->
     fst sized = <["amount" := VNum (Int 100)]> signal) /\
  (forall bal x1,
     gw_fetch_balance exchange (venue w) = (inr bal, x1) ->
     free bal !! "USDT" = None ->
     fst sized = <["amount" := VNum (Int 100)]> signal) /\
  compound_of (VNum (whole 1000)) (VNum (Int 5)) = inr (whole 50) /\
  compound_of (VNum (whole 100)) (VNum (Int 5)) = inr (Int 11).
Proof.
  intros Hr Ha He Hp Hamt sized.
  assert (has_key "percent" signal && negb (has_key "amount" signal) = true)
    as Hc by (unfold has_key; by rewrite Hp, Hamt).
  assert (execute_signal self signal w
          = dispatch self exchange symbol (VStr a) (fst sized) (snd sized))
    as Hrun.
  { rewrite (execute_signal_compound self signal w _ _ a Hr Hc Ha He).
    fold sized. by destruct sized. }
  split; [exact Hrun |]. split; [rewrite Hrun; apply dispatch_echoes |].
  split; [| split; [| split; [| split]]].
  - intros bal x1 free_usdt Hb Hf. split.
    + intros p ratio f c Hfloat Hratio Hfree Hmul.
      assert (compound_of free_usdt percent = inr (floor_and_round c))
        as Hamount.
      { unfold compound_of. rewrite Hfloat. cbn [res_bind].
        rewrite Hratio. cbn [res_bind].
        rewrite (py_mul_numbers free_usdt (VNum ratio) f ratio Hfree eq_refl).
        by rewrite Hmul. }
      pose proof (compound_amount_computed exchange signal w bal x1
                    free_usdt percent _ Hb Hf Hp Hamount) as Hsized.
      fold sized in Hsized. unfold floor_and_round in Hsized.
      split; intros Hfloor; by rewrite Hfloor in Hsized.
    + intros e Hraise. by eapply compound_amount_raises.
  - intros e x1 Hb. by eapply compound_amount_fetch_fails.
  - intros bal x1 Hb Hf. by eapply compound_amount_no_usdt.
  - vm_compute. reflexivity.
  - vm_compute. reflexivity.
Qed.

(** C10 (amended): an entry signal with neither amount nor percent, once
    routed, goes to its handler unchanged and with no sizing call made
    first.  The handler treats the missing amount exactly as an amount of
    100 and a missing leverage exactly as the configured default leverage.
    From a flat position and with a venue that answers, it places the
    opening order for [(100 * leverage) / price] when that quantity can be
    computed; when it cannot (a leverage or a price that is not a number, a
    price of zero, an [int] too large for a float) the handler fails after
    the price fetch and no order is placed. *)
Theorem C10_entry_defaults d self signal w exchange symbol :
  signal !! "action" = Some (VStr (entry_action d)) ->
  signal !! "amount" = None ->
  signal !! "percent" = None ->
  route self signal = inr (Routed exchange symbol) ->
  let leverage := default (default_leverage self) (signal !! "leverage") in
  execute_signal self signal w
    = entry_handler d self exchange symbol signal w /\
  entry_handler d self exchange symbol signal w
    = echo_as signal
        (entry_handler d self exchange symbol
           (<["amount" := VNum (Int 100)]> signal) w) /\
  (signal !! "leverage" = None ->
     leverage = default_leverage self /\
     entry_handler d self exchange symbol signal w
       = echo_as signal
           (entry_handler d self exchange symbol
              (<["leverage" := default_leverage self]> signal) w)) /\
  (forall w1 w2 n w3 tk w5,
     _get_position exchange symbol "long" w = (None, w1) ->
     _get_position exchange symbol "short" w1 = (None, w2) ->
     _normalize_symbol exchange symbol w2 = (inr n, w3) ->
     fetch_ticker exchange n
       (snd (set_leverage_best_effort exchange leverage n w3)) = (inr tk, w5) ->
     (forall notional q,
        py_mul (VNum (Int 100)) leverage = inr notional ->
        py_div notional (last tk) = inr q ->
        calls (snd (execute_signal self signal w))
          = (calls w5 ++ [opening_order d exchange n q])%list /\
        execute_signal self signal w =
          catch_all
            (bind (place_opening_order d exchange n q) (fun o =>
               ret (placed (msg_entry_ok d) o signal
                      (EntryDetails symbol (order_side d) q (last tk)
                         leverage))))
            (fun e => failure (msg_entry_failed d e) signal) w5) /\
     (forall e,
        res_bind (py_mul (VNum (Int 100)) leverage)
                 (fun notional => py_div notional (last tk)) = inl e ->
        execute_signal self signal w
          = (failure (msg_entry_failed d e) signal, w5))).
Proof.
  intros Ha Hamt Hpct Hr leverage.
  assert (execute_signal self signal w
          = entry_handler d self exchange symbol signal w) as Hrun.
  { rewrite (execute_signal_plain self signal w _ _ Hr).
    - rewrite Ha. simpl. by rewrite dispatch_entry.
    - unfold has_key. by rewrite Hpct. }
  split; [exact Hrun |]. split; [| split].
  - apply entry_same_sizing.
    + by rewrite Hamt, lookup_insert_eq.
    + by rewrite lookup_insert_ne.
  - intros Hlev. split; [unfold leverage; by rewrite Hlev |].
    apply entry_same_sizing.
    + by rewrite lookup_insert_ne.
    + by rewrite Hlev, lookup_insert_eq.
  - intros w1 w2 n w3 tk w5 Hl Hs Hn Ht. split.
    + intros notional q Hmul Hdiv.
      assert (execute_signal self signal w =
        catch_all
          (bind (place_opening_order d exchange n q) (fun o =>
             ret (placed (msg_entry_ok d) o signal
                    (EntryDetails symbol (order_side d) q (last tk)
                       leverage))))
          (fun e => failure (msg_entry_failed d e) signal) w5) as Hplace.
      { rewrite Hrun.
        rewrite (entry_from_flat d self exchange symbol signal w w1 w2 Hl Hs).
        unfold catch_all.
        rewrite (place_entry_order d self exchange symbol signal w2 n w3 tk w5
                   notional q Hn Ht); try done.
        by rewrite Hamt. }
      split; [| exact Hplace].
      rewrite Hplace. unfold catch_all, bind.
      destruct d; simpl; unfold create_market_sell_order,
        create_market_buy_order, invoke.
      * by destruct (gw_create_market_buy_order _ _ _ _ _) as [[e | o] x6].
      * by destruct (gw_create_market_sell_order _ _ _ _ _) as [[e | o] x6].
    + intros e Hraise. rewrite Hrun.
      rewrite (entry_from_flat d self exchange symbol signal w w1 w2 Hl Hs).
      unfold catch_all.
      rewrite (place_entry_arithmetic_raises d self exchange symbol signal
                 w2 n w3 tk w5 e Hn Ht); [done |].
      by rewrite Hamt.
Qed.

(** C8 (amended): on a [str] ticker the normalizer never raises.  With
    [s] the ticker with every ".P" removed and then upper-cased: on an
    exchange object other than Binance the answer is [s] and no call is
    made; on Binance, with the market table loaded, the answer is the id
    of the market keyed [s], else, when [s] is longer than 4 characters
    and ends in USDT, the id of the market keyed [BASE/USDT:USDT], else
    [s]; when loading the market table raises, the answer is [s] with
    ".P" removed and upper-cased once more. *)
Theorem C8_normalize_symbol_chain exchange ticker w :
  let s := str_upper (Str.replace_dotP ticker) in
  let unified := Str.drop_last 4 s ++ "/USDT:USDT" in
  let out := _normalize_symbol exchange (VStr ticker) w in
  (exists n, fst out = inr n) /\
  (is_binance exchange = false -> out = (inr s, w)) /\
  (is_binance exchange = true ->
     (forall markets x1,
        gw_load_markets exchange (venue w) = (inr markets, x1) ->
        (forall m, markets !! s = Some m -> fst out = inr (market_id m)) /\
        (forall m,
           markets !! s = None ->
           (4 <? Str.len s)%nat && Str.endswith s "USDT" = true ->
           markets !! unified = Some m ->
           fst out = inr (market_id m)) /\
        (markets !! s = None ->
         (4 <? Str.len s)%nat && Str.endswith s "USDT" = false
         \/ markets !! unified = None ->
         fst out = inr s)) /\
     (forall e x1,
        gw_load_markets exchange (venue w) = (inl e, x1) ->
        fst out = inr (str_upper (Str.replace_dotP s)))).
Proof.
  intros s unified out.
  split; [apply normalize_symbol_returns |].
  unfold out. rewrite normalize_symbol_str. subst unified. simpl. fold s.
  split.
  - intros Hb. unfold call, catch_all. by rewrite Hb.
  - intros Hb. split.
    + intros markets x1 Hm.
      unfold call, catch_all, bind, load_markets, invoke. rewrite Hb, Hm.
      split; [| split].
      * intros m Hs. by rewrite Hs.
      * intros m Hs Hc Hu. by rewrite Hs, Hc, Hu.
      * intros Hs [Hc | Hu]; rewrite Hs.
        -- by rewrite Hc.
        -- destruct (_ && _); [by rewrite Hu | done].
    + intros e x1 Hm.
      unfold call, catch_all, bind, load_markets, invoke.
      by rewrite Hb, Hm.
Qed.

End SizingClaims.

(** * Further properties of the engine *)

(** ** Budgets of calls *)

Section Budgets.
Context {X : Type}.
Implicit Types (w : World X) (f : Call -> bool).

Lemma count_app f cs1 cs2 : count f (cs1 ++ cs2) = (count f cs1 + count f cs2)%nat.
Proof. unfold count. by rewrite List.filter_app, length_app. Qed.

Lemma count_none f cs : Forall (fun c => f c = false) cs -> count f cs = 0%nat.
Proof.
  unfold count. induction 1 as [| c cs Hc _ IH]; [done |].
  simpl. by rewrite Hc.
Qed.

Lemma within_pure {A} f n (a : A) : within f n (fun w : World X => (a, w)).
Proof.
  intros w. exists []. split; [by rewrite app_nil_r |].
  unfold count. simpl. lia.
Qed.

Lemma within_ret {A} f n (a : A) : within f n (ret (X := X) a).
Proof. apply within_pure. Qed.

Lemma within_lift {A} f n (r : res A) : within f n (lift (X := X) r).
Proof. apply within_pure. Qed.

Lemma within_weaken {A} f n n' (m : St X A) :
  (n <= n')%nat -> within f n m -> within f n' m.
Proof.
  intros Hle Hm w. destruct (Hm w) as (cs & E & Hc). exists cs.
  split; [done | lia].
Qed.

Lemma within_quiet {A} f (m : St X A) :
  emits (fun c => f c = false) m -> within f 0 m.
Proof.
  intros Hm w. destruct (Hm w) as (cs & E & Hc). exists cs.
  split; [done |]. by rewrite count_none.
Qed.

Lemma within_bind {A B} f n1 n2 (m : M X A) (k : A -> M X B) :
  within f n1 m -> (forall a, within f n2 (k a)) ->
  within f (n1 + n2) (bind m k).
Proof.
  intros Hm Hk w. unfold bind. destruct (Hm w) as (cs1 & E1 & H1).
  destruct (m w) as [[e | a] w1]; simpl in *.
  - exists cs1. split; [done | lia].
  - destruct (Hk a w1) as (cs2 & E2 & H2). exists (cs1 ++ cs2)%list.
    split; [by rewrite E2, E1, app_assoc |]. rewrite count_app. lia.
Qed.

Lemma within_call {A} f n (m : St X A) : within f n m -> within f n (call m).
Proof.
  intros Hm w. unfold call. specialize (Hm w). by destruct (m w).
Qed.

Lemma within_catch_all {A} f n (m : M X A) (h : exn -> A) :
  within f n m -> within f n (catch_all m h).
Proof.
  intros Hm w. unfold catch_all. specialize (Hm w).
  by destruct (m w) as [[e | a] w'].
Qed.

Lemma within_invoke {A} f c (g : X -> res A * X) : within f 1 (invoke c g).
Proof.
  intros w. unfold invoke. destruct (g (venue w)) as [r x']. simpl.
  exists [c]. split; [done |]. unfold count. simpl. destruct (f c); simpl; lia.
Qed.

Lemma settles_bind {A} good (m : M X A) (k : A -> M X Result) :
  (forall a, settles good (k a)) -> settles good (bind m k).
Proof.
  intros Hk w. unfold bind. destruct (m w) as [[e | a] w1]; [done |].
  apply Hk.
Qed.

Lemma settles_ret good r : (forall w, good r w) -> settles (X := X) good (ret r).
Proof. intros Hr w. apply Hr. Qed.

Lemma settles_catch_all good (m : M X Result) (h : exn -> Result) w :
  settles good m -> (forall e w', good (h e) w') ->
  good (fst (catch_all m h w)) (snd (catch_all m h w)).
Proof.
  intros Hm Hh. unfold catch_all. specialize (Hm w).
  destruct (m w) as [[e | r] w']; simpl; [apply Hh | exact Hm].
Qed.

End Budgets.

(** ** The gates of [execute_signal] *)

Section Gates.
Context `{!Builtins} {X : Type} `{!Gateway X}.
Implicit Types (w : World X) (exchange : Venue) (d : Direction)
  (self : TradingEngine).

(** [execute_signal], path by path. *)
Lemma execute_signal_paths self signal w :
  execute_signal self signal w =
    match route self signal with
    | inl e => (failure (MsgExecutionError e) signal, w)
    | inr (Rejected r) => (r, w)
    | inr (Routed exchange symbol) =>
        let action := default VNone (signal !! "action") in
        if has_key "percent" signal && negb (has_key "amount" signal)
        then match py_contains "entry" action with
             | inl e => (failure (MsgExecutionError e) signal, w)
             | inr true =>
                 let (sized, w1) := compound_amount exchange signal w in
                 dispatch self exchange symbol action sized w1
             | inr false => dispatch self exchange symbol action signal w
             end
        else dispatch self exchange symbol action signal w
    end.
Proof.
  unfold execute_signal, catch_all, bind, lift, call, ret.
  destruct (route self signal) as [e | [r | exchange symbol]]; try done.
  destruct (has_key "percent" signal && negb (has_key "amount" signal)).
  - destruct (py_contains "entry" _) as [e | [|]]; try done.
    + destruct (compound_amount exchange signal w) as [sized w1].
      by destruct (dispatch _ _ _ _ _ w1).
    + by destruct (dispatch _ _ _ _ _ w).
  - by destruct (dispatch _ _ _ _ _ w).
Qed.

Lemma compound_amount_emits exchange signal :
  emits (fun c => c = CallFetchBalance exchange)
        (compound_amount exchange signal).
Proof.
  unfold compound_amount, fetch_balance.
  repeat step_emits ltac:(reflexivity).
Qed.

(** Compound-mode sizing makes exactly one call, the balance fetch. *)
Lemma compound_amount_calls exchange signal w :
  calls (snd (compound_amount exchange signal w))
    = (calls w ++ [CallFetchBalance exchange])%list.
Proof.
  unfold compound_amount, catch_all, bind, fetch_balance, invoke, lift, ret.
  destruct (gw_fetch_balance exchange (venue w)) as [[e | bal] x1]; [done |].
  simpl. destruct (free bal !! "USDT") as [fu |]; [| done].
  by destruct (compound_of _ _).
Qed.

(** With trading disabled no signal reaches an exchange: the answer is a
    failure and not a single call is made; for a signal whose exchange and
    symbol are strings (or absent) the answer is the "trading disabled"
    message. *)
Theorem trading_disabled_stops_everything self signal w :
  enable_trading self = false ->
  success (fst (execute_signal self signal w)) = false /\
  snd (execute_signal self signal w) = w /\
  (forall name s,
     default (VStr "binance") (signal !! "exchange") = VStr name ->
     default (VStr "BTCUSDT") (signal !! "symbol") = VStr s ->
     fst (execute_signal self signal w) = failure MsgTradingDisabled signal).
Proof.
  intros Hoff. rewrite execute_signal_paths.
  split; [| split].
  - destruct (route self signal) as [e | [r | exchange symbol]] eqn:Hr;
      try done.
    + by destruct (route_rejected self signal r Hr).
    + exfalso. unfold route, res_bind in Hr. rewrite Hoff in Hr.
      destruct (py_lower _); [done |].
      by destruct (if String.eqb _ _ then _ else _).
  - destruct (route self signal) as [e | [r | exchange symbol]] eqn:Hr;
      try done.
    exfalso. unfold route, res_bind in Hr. rewrite Hoff in Hr.
    destruct (py_lower _); [done |].
    by destruct (if String.eqb _ _ then _ else _).
  - intros name s Hname Hsym. unfold route, res_bind.
    rewrite Hname, Hsym, Hoff. simpl.
    by destruct (String.eqb (str_lower name) "binance").
Qed.

(** A signal that names an exchange the engine holds no object for is
    answered with a failure and without a call; with trading enabled and a
    string symbol the answer is the "not connected" message carrying the
    lower-cased name. *)
Theorem unconnected_exchange_stops_signal self signal w name :
  default (VStr "binance") (signal !! "exchange") = VStr name ->
  exchanges self !! str_lower name = None ->
  success (fst (execute_signal self signal w)) = false /\
  snd (execute_signal self signal w) = w /\
  (forall s,
     enable_trading self = true ->
     default (VStr "BTCUSDT") (signal !! "symbol") = VStr s ->
     fst (execute_signal self signal w)
       = failure (MsgExchangeNotConnected (str_lower name)) signal).
Proof.
  intros Hname Hnone. rewrite execute_signal_paths.
  assert (forall exchange symbol,
            route self signal <> inr (Routed exchange symbol)) as Hnot.
  { intros exchange symbol. unfold route, res_bind. rewrite Hname. simpl.
    destruct (if String.eqb _ _ then _ else _); [done |].
    destruct (negb (enable_trading self)); [done |]. by rewrite Hnone. }
  split; [| split].
  - destruct (route self signal) as [e | [r | exchange symbol]] eqn:Hr;
      try done.
    + by destruct (route_rejected self signal r Hr).
    + by destruct (Hnot exchange symbol).
  - destruct (route self signal) as [e | [r | exchange symbol]] eqn:Hr;
      try done.
    by destruct (Hnot exchange symbol).
  - intros s Hon Hsym. unfold route, res_bind.
    rewrite Hname, Hsym, Hon. simpl. rewrite Hnone.
    by destruct (String.eqb (str_lower name) "binance").
Qed.

(** An action outside the four of the switch never reaches a handler: the
    answer is a failure and no order, position or market call is made.  The
    one call that can precede the rejection is the balance fetch of compound
    mode, made when the signal has a percent, no amount, and an action that
    contains "entry". *)
Theorem unknown_action_places_nothing self signal w :
  known_action (default VNone (signal !! "action")) = false ->
  let out := execute_signal self signal w in
  success (fst out) = false /\
  (snd out = w \/
   exists exchange,
     calls (snd out) = (calls w ++ [CallFetchBalance exchange])%list) /\
  (has_key "percent" signal && negb (has_key "amount" signal) = false ->
   snd out = w) /\
  (forall exchange symbol,
     route self signal = inr (Routed exchange symbol) ->
     has_key "percent" signal && negb (has_key "amount" signal) = false ->
     fst out = failure
                 (MsgUnknownAction (default VNone (signal !! "action")))
                 signal).
Proof.
  intros Hunknown out. unfold out. rewrite execute_signal_paths.
  assert (forall exchange symbol sized w',
    dispatch self exchange symbol (default VNone (signal !! "action")) sized w'
      = (failure (MsgUnknownAction (default VNone (signal !! "action"))) sized,
         w')) as Hdispatch.
  { intros exchange symbol sized w'. unfold dispatch, known_action in *.
    destruct (py_eq_str _ "long_entry"); [done |].
    destruct (py_eq_str _ "short_entry"); [done |].
    destruct (py_eq_str _ "long_exit"); [done |].
    by destruct (py_eq_str _ "short_exit"). }
  destruct (route self signal) as [e | [r | exchange symbol]] eqn:Hr.
  - repeat split; try done; by left.
  - destruct (route_rejected self signal r Hr) as [Hs _].
    repeat split; try done; by left.
  - simpl. destruct (has_key "percent" signal && negb (has_key "amount" signal)).
    + destruct (py_contains "entry" _) as [e | [|]].
      * repeat split; try done; by left.
      * pose proof (compound_amount_calls exchange signal w) as Hcalls.
        destruct (compound_amount exchange signal w) as [sized w1].
        rewrite Hdispatch. simpl in *.
        repeat split; try done. right. by exists exchange.
      * rewrite Hdispatch. repeat split; try done; by left.
    + rewrite Hdispatch. repeat split; try done; by left.
Qed.

End Gates.

(** ** How many orders a signal can place *)

Section OrderBudget.
Context `{!Builtins} {X : Type} `{!Gateway X}.
Implicit Types (w : World X) (exchange : Venue) (d : Direction)
  (self : TradingEngine).

Lemma query_is_no_order c : query c -> is_order c = false.
Proof. done. Qed.

Lemma exit_order_budget d exchange symbol signal :
  within is_order 1 (exit_handler d exchange symbol signal).
Proof.
  destruct d; simpl; unfold _execute_long_exit, _execute_short_exit,
    close_long_position, close_short_position,
    create_market_sell_order, create_market_buy_order.
  all: apply within_catch_all.
  all: apply (within_bind _ 0 1); [apply within_lift | intros [|]];
    [apply within_ret |].
  all: apply (within_bind _ 0 1);
    [apply within_call, within_quiet, get_position_emits
    | intros [pos |]; [| apply within_ret]].
  all: apply (within_bind _ 0 1); [apply within_lift | intros size].
  all: apply (within_bind _ 0 1); [apply within_lift | intros ratio].
  all: apply (within_bind _ 0 1); [apply within_lift | intros q]; simpl.
  all: destruct (Num.leb _ (Int 0)); [apply within_ret |].
  all: apply (within_bind _ 0 1);
    [apply within_quiet, normalize_symbol_emits | intros n].
  all: apply (within_bind _ 1 0); [apply within_invoke | intros o].
  all: apply within_ret.
Qed.

Lemma place_entry_budget f d self exchange symbol signal :
  (forall c, query c -> f c = false) ->
  within f 1 (place_entry d self exchange symbol signal).
Proof.
  intros Hf.
  destruct d; simpl; unfold place_long_entry, place_short_entry,
    set_leverage_best_effort, set_leverage, fetch_ticker,
    create_market_sell_order, create_market_buy_order.
  all: apply (within_bind _ 0 1);
    [apply within_quiet; eapply emits_weaken;
       [exact Hf | apply normalize_symbol_emits] | intros n].
  all: apply (within_bind _ 0 1);
    [apply within_call, within_quiet; destruct (is_binance exchange);
       repeat step_emits ltac:(by apply Hf) | intros _].
  all: apply (within_bind _ 0 1);
    [apply within_quiet; repeat step_emits ltac:(by apply Hf) | intros tk].
  all: apply (within_bind _ 0 1); [apply within_lift | intros notional].
  all: apply (within_bind _ 0 1); [apply within_lift | intros q].
  all: apply (within_bind _ 1 0); [apply within_invoke | intros o].
  all: apply within_ret.
Qed.

Lemma entry_order_budget d self exchange symbol signal :
  within is_order 2 (entry_handler d self exchange symbol signal) /\
  within opens_position 1 (entry_handler d self exchange symbol signal).
Proof.
  split.
  - destruct d; simpl; unfold _execute_long_entry, _execute_short_entry.
    all: apply within_catch_all.
    all: apply (within_bind _ 0 2);
      [apply within_call, within_quiet, get_position_emits | intros lp].
    all: apply (within_bind _ 0 2);
      [apply within_call, within_quiet, get_position_emits | intros sp].
    all: destruct lp, sp; try apply within_ret.
    all: try (eapply within_weaken;
              [| apply (place_entry_budget is_order Long)
                 || apply (place_entry_budget is_order Short)];
              [lia | apply query_is_no_order]).
    all: apply (within_bind _ 1 1);
      [ apply within_call;
        apply (exit_order_budget Long) || apply (exit_order_budget Short)
      | intros cr; destruct (negb (success cr)); [apply within_ret |] ].
    all: apply (place_entry_budget is_order Long)
         || apply (place_entry_budget is_order Short);
      apply query_is_no_order.
  - destruct d; simpl; unfold _execute_long_entry, _execute_short_entry.
    all: apply within_catch_all.
    all: apply (within_bind _ 0 1);
      [ apply within_call, within_quiet; eapply emits_weaken;
        [apply query_not_opening | apply get_position_emits] | intros lp].
    all: apply (within_bind _ 0 1);
      [ apply within_call, within_quiet; eapply emits_weaken;
        [apply query_not_opening | apply get_position_emits] | intros sp].
    all: destruct lp, sp; try apply within_ret.
    all: try (apply (place_entry_budget opens_position Long)
              || apply (place_entry_budget opens_position Short);
              apply query_not_opening).
    all: apply (within_bind _ 0 1);
      [ apply within_call, within_quiet;
        apply (exit_emits_reduce_only Long)
        || apply (exit_emits_reduce_only Short)
      | intros cr; destruct (negb (success cr)); [apply within_ret |] ].
    all: apply (place_entry_budget opens_position Long)
         || apply (place_entry_budget opens_position Short);
      apply query_not_opening.
Qed.

Lemma dispatch_budget f n self exchange symbol action signal :
  (forall d, within f n (entry_handler d self exchange symbol signal)) ->
  (forall d, within f n (exit_handler d exchange symbol signal)) ->
  within f n (dispatch self exchange symbol action signal).
Proof.
  intros Hentry Hexit. unfold dispatch.
  destruct (py_eq_str action "long_entry"); [apply (Hentry Long) |].
  destruct (py_eq_str action "short_entry"); [apply (Hentry Short) |].
  destruct (py_eq_str action "long_exit"); [apply (Hexit Long) |].
  destruct (py_eq_str action "short_exit"); [apply (Hexit Short) |].
  apply within_pure.
Qed.

Lemma execute_signal_budget f n self signal :
  (forall c, query c -> f c = false) ->
  (forall exchange symbol action sized,
     within f n (dispatch self exchange symbol action sized)) ->
  within f n (execute_signal self signal).
Proof.
  intros Hf Hdispatch. unfold execute_signal.
  apply within_catch_all.
  apply (within_bind _ 0 n); [apply within_lift | intros [r | exchange symbol]];
    [apply within_ret |].
  apply (within_bind _ 0 n).
  { destruct (_ && _); [apply within_lift | apply within_ret]. }
  intros compound. apply (within_bind _ 0 n).
  { destruct compound; [| apply within_ret].
    apply within_call, within_quiet. eapply emits_weaken;
      [| apply compound_amount_emits].
    intros c ->. by apply Hf. }
  intros sized. apply within_call, Hdispatch.
Qed.

(** One signal, whatever it says and whatever the venue answers, places at
    most one order that can open a position and at most two orders in all
    (the second being the reduce-only close of a flip). *)
Theorem one_signal_order_budget self signal :
  within opens_position 1 (execute_signal self signal) /\
  within is_order 2 (execute_signal self signal).
Proof.
  split.
  - apply execute_signal_budget; [apply query_not_opening |].
    intros exchange symbol action sized. apply dispatch_budget.
    + intros d. apply (proj2 (entry_order_budget d self exchange symbol sized)).
    + intros d. eapply within_weaken; [| apply within_quiet,
        exit_emits_reduce_only]. lia.
  - apply execute_signal_budget; [apply query_is_no_order |].
    intros exchange symbol action sized. apply dispatch_budget.
    + intros d. apply (proj1 (entry_order_budget d self exchange symbol sized)).
    + intros d. eapply within_weaken; [| apply exit_order_budget]. lia.
Qed.

(** An exit signal places at most one order, and never one that could open
    a position: whatever it places is reduce-only. *)
Theorem exit_signal_order_budget d self signal :
  signal !! "action" = Some (VStr (exit_action d)) ->
  within is_order 1 (execute_signal self signal) /\
  within opens_position 0 (execute_signal self signal).
Proof.
  intros Ha.
  assert (forall f n,
    (forall exchange symbol,
       within f n (exit_handler d exchange symbol signal)) ->
    within f n (execute_signal self signal)) as Hvia.
  { intros f n Hexit w. rewrite (execute_signal_exit d self signal w Ha).
    destruct (route self signal) as [e | [r | exchange symbol]];
      try apply (within_pure f n (failure (MsgTradingDisabled) signal) w).
    apply Hexit. }
  split; apply Hvia; intros exchange symbol.
  - apply exit_order_budget.
  - apply within_quiet, exit_emits_reduce_only.
Qed.

End OrderBudget.

(** ** What a successful result says about the journal *)

Section Reports.
Context `{!Builtins} {X : Type} `{!Gateway X}.
Implicit Types (w : World X) (exchange : Venue) (d : Direction)
  (self : TradingEngine).

Lemma settles_bind_call {A} good (m : St X A) (k : A -> M X Result) :
  (forall a, (exists w w1, m w = (a, w1)) -> settles good (k a)) ->
  settles good (bind (call m) k).
Proof.
  intros Hk w. unfold bind, call. destruct (m w) as [a w1] eqn:Hrun.
  apply Hk. eauto.
Qed.

Lemma settles_order {A} good c (g : X -> res A * X) (k : A -> Result) :
  (forall a w', (exists cs, calls w' = (cs ++ [c])%list) -> good (k a) w') ->
  settles good (bind (invoke c g) (fun a => ret (k a))).
Proof.
  intros Hk w. unfold bind, invoke, ret.
  destruct (g (venue w)) as [[e | a] x1]; [done |].
  apply Hk. by eexists.
Qed.

Lemma place_entry_as_reported d self exchange symbol signal :
  settles (entry_as_reported d exchange symbol)
          (place_entry d self exchange symbol signal).
Proof.
  destruct d; simpl; unfold place_long_entry, place_short_entry,
    create_market_buy_order, create_market_sell_order.
  all: do 5 (apply settles_bind; intros ?).
  all: apply settles_order; intros o w' [cs Hcs] _.
  all: by eexists cs, _, _, o, _, _.
Qed.

Lemma entry_handler_as_reported d self exchange symbol signal w :
  entry_as_reported d exchange symbol
    (fst (entry_handler d self exchange symbol signal w))
    (snd (entry_handler d self exchange symbol signal w)).
Proof.
  destruct d; simpl; unfold _execute_long_entry, _execute_short_entry.
  all: apply settles_catch_all; [| by intros e w' ?].
  all: apply settles_bind; intros lp; apply settles_bind; intros sp.
  all: destruct lp, sp; try (apply settles_ret; by intros w' ?).
  all: try apply (place_entry_as_reported Long).
  all: try apply (place_entry_as_reported Short).
  all: apply settles_bind; intros cr; destruct (negb (success cr));
    [apply settles_ret; by intros w' ? |].
  all: apply (place_entry_as_reported Long)
       || apply (place_entry_as_reported Short).
Qed.

Lemma exit_handler_as_reported d exchange symbol signal w :
  exit_as_reported d exchange symbol
    (fst (exit_handler d exchange symbol signal w))
    (snd (exit_handler d exchange symbol signal w)).
Proof.
  destruct d; simpl; unfold _execute_long_exit, _execute_short_exit,
    close_long_position, close_short_position,
    create_market_buy_order, create_market_sell_order.
  all: apply settles_catch_all; [| by intros e w' ?].
  all: apply settles_bind; intros [|]; [apply settles_ret; by intros w' ? |].
  all: apply settles_bind_call; intros [pos |] (w0 & w1 & Hget);
    [| apply settles_ret; intros w' _; by left].
  all: destruct (get_position_found _ _ _ _ _ _ Hget)
         as (s & c & -> & _ & Hc & Hc0).
  all: unfold position_contracts; rewrite Hc, bind_lift.
  all: apply settles_bind; intros ratio.
  all: apply settles_bind; intros q; simpl.
  all: destruct (Num.leb q (Int 0)) eqn:Hq;
    [apply settles_ret; by intros w' ? |].
  all: destruct (clamp_to_facts c q Hc0 Hq)
         as (_ & Hpositive & Hwithin & _ & Hreal).
  all: apply settles_bind; intros n.
  all: apply settles_order; intros o w' [cs Hcs] _; right.
  all: exists cs, n, (clamp_to c q), o, c,
         (default (VNum (Int 100)) (signal !! "percent")).
  all: repeat split; try done; by apply Hreal.
Qed.

(** When an entry signal is answered with [success = true], the last call
    made on the exchange is the opening order of its direction, and the
    quantity in the result's details is the quantity of that order. *)
Theorem entry_success_means_order_placed d self signal w exchange symbol :
  signal !! "action" = Some (VStr (entry_action d)) ->
  route self signal = inr (Routed exchange symbol) ->
  entry_as_reported d exchange symbol
    (fst (execute_signal self signal w)) (snd (execute_signal self signal w)).
Proof.
  intros Ha Hr. rewrite execute_signal_paths, Hr, Ha. cbv zeta.
  change (default VNone (Some (VStr (entry_action d))))
    with (VStr (entry_action d)).
  destruct (has_key "percent" signal && negb (has_key "amount" signal)).
  - assert (py_contains "entry" (VStr (entry_action d)) = inr true) as ->
      by by destruct d.
    destruct (compound_amount exchange signal w) as [sized w1].
    rewrite dispatch_entry. apply entry_handler_as_reported.
  - rewrite dispatch_entry. apply entry_handler_as_reported.
Qed.

(** When an exit signal is answered with [success = true], either nothing
    was to be closed and the result carries the "no position" message and
    no order, or the last call made is the reduce-only order of its
    direction, for the quantity [q] the details report, computed from the
    reported position size [size]: neither [q <= 0] nor [q > size] holds,
    so that [q] is positive and at most [size] unless it is NaN. *)
Theorem exit_success_means_closed_or_nothing d self signal w exchange symbol :
  signal !! "action" = Some (VStr (exit_action d)) ->
  route self signal = inr (Routed exchange symbol) ->
  exit_as_reported d exchange symbol
    (fst (execute_signal self signal w)) (snd (execute_signal self signal w)).
Proof.
  intros Ha Hr. rewrite (execute_signal_exit d self signal w Ha), Hr.
  apply exit_handler_as_reported.
Qed.

End Reports.

(** ** Venue-specific calls, swallowed failures, malformed symbols *)

Section Edges.
Context `{!Builtins} {X : Type} `{!Gateway X}.
Implicit Types (w : World X) (exchange : Venue) (d : Direction)
  (self : TradingEngine).

Ltac unfold_engine :=
  unfold dispatch, _execute_long_entry, _execute_short_entry,
    _execute_long_exit, _execute_short_exit, close_long_position,
    close_short_position, place_long_entry, place_short_entry,
    set_leverage_best_effort, _get_position, _normalize_symbol,
    compound_amount, fetch_balance, load_markets, fetch_positions,
    set_leverage, fetch_ticker, create_market_buy_order,
    create_market_sell_order.

Lemma dispatch_off_binance self exchange symbol action signal :
  is_binance exchange = false ->
  emits (fun c => binance_only c = false)
        (dispatch self exchange symbol action signal).
Proof.
  intros Hb. unfold_engine. rewrite Hb.
  destruct (py_strip_upper symbol);
    repeat step_emits ltac:(reflexivity).
Qed.

(** On an exchange object that is not a [ccxt.binance], no signal ever
    causes a [load_markets] or a [set_leverage] call. *)
Theorem other_venues_never_load_markets_or_set_leverage
    self signal w exchange symbol :
  route self signal = inr (Routed exchange symbol) ->
  is_binance exchange = false ->
  extends (fun c => binance_only c = false) w
          (snd (execute_signal self signal w)).
Proof.
  intros Hr Hb. rewrite execute_signal_paths, Hr. cbv zeta.
  assert (forall sized w1,
    extends (fun c => binance_only c = false) w1
      (snd (dispatch self exchange symbol
              (default VNone (signal !! "action")) sized w1))) as Hd.
  { intros sized w1. by apply dispatch_off_binance. }
  destruct (has_key "percent" signal && negb (has_key "amount" signal));
    [| apply Hd].
  destruct (py_contains "entry" _) as [e | [|]];
    [apply extends_refl | | apply Hd].
  pose proof (compound_amount_emits exchange signal w) as Hsize.
  destruct (compound_amount exchange signal w) as [sized w1]. simpl in Hsize.
  eapply extends_trans; [| apply Hd].
  eapply extends_weaken; [| exact Hsize]. by intros c ->.
Qed.

(** A [set_leverage] that raises does not stop an entry: from a flat
    position the handler goes on to fetch the price; when the quantity
    [(amount * leverage) / price] can be computed it places the opening
    order for it, and the entry succeeds if the venue takes the order. *)
Theorem leverage_failure_is_swallowed
    d self exchange symbol signal w w1 w2 n w3 e x4 tk x5 notional q :
  let leverage := default (default_leverage self) (signal !! "leverage") in
  _get_position exchange symbol "long" w = (None, w1) ->
  _get_position exchange symbol "short" w1 = (None, w2) ->
  _normalize_symbol exchange symbol w2 = (inr n, w3) ->
  is_binance exchange = true ->
  gw_set_leverage exchange leverage n (venue w3) = (inl e, x4) ->
  gw_fetch_ticker exchange n x4 = (inr tk, x5) ->
  py_mul (default (VNum (Int 100)) (signal !! "amount")) leverage
    = inr notional ->
  py_div notional (last tk) = inr q ->
  let out := entry_handler d self exchange symbol signal w in
  calls (snd out)
    = (calls w3 ++ [CallSetLeverage exchange leverage n;
                    CallFetchTicker exchange n;
                    opening_order d exchange n q])%list /\
  (success (fst out) = true <->
   exists o, order (fst out) = Some o).
Proof.
  intros leverage Hl Hs Hn Hb Hlev Htk Hmul Hdiv out. unfold out.
  rewrite (entry_from_flat d self exchange symbol signal w w1 w2 Hl Hs).
  unfold catch_all.
  rewrite (place_entry_order d self exchange symbol signal w2 n w3 tk
             {| venue := x5;
                calls := ((calls w3 ++ [CallSetLeverage exchange leverage n])
                          ++ [CallFetchTicker exchange n])%list |}
             notional q Hn); try done.
  - unfold bind, ret.
    destruct d; simpl; unfold create_market_buy_order,
      create_market_sell_order, invoke; simpl.
    + destruct (gw_create_market_buy_order _ _ _ _ _) as [[e' | o] x6];
        simpl; rewrite <- !app_assoc; simpl; split; try done;
        split; try done; try (by eexists); by intros [o' ?].
    + destruct (gw_create_market_sell_order _ _ _ _ _) as [[e' | o] x6];
        simpl; rewrite <- !app_assoc; simpl; split; try done;
        split; try done; try (by eexists); by intros [o' ?].
  - unfold set_leverage_best_effort. rewrite Hb.
    unfold catch_all, set_leverage, invoke. fold leverage. rewrite Hlev.
    simpl. unfold fetch_ticker, invoke. simpl. by rewrite Htk.
Qed.

(** A symbol that is not a string never reaches the venue: the resolver
    reports "no position", so an exit with a percent in range answers
    [success = true] with the "no position" message, and an entry fails
    with the normalizer's [AttributeError]; neither makes a call. *)
Theorem non_string_symbol_never_reaches_venue
    d self exchange symbol signal w :
  (forall s, symbol <> VStr s) ->
  entry_handler d self exchange symbol signal w
    = (failure (msg_entry_failed d AttributeError) signal, w) /\
  (percent_out_of_range (default (VNum (Int 100)) (signal !! "percent")) = inr false ->
   exit_handler d exchange symbol signal w
     = (informational (msg_no_position d) signal, w)).
Proof.
  intros Hs.
  assert (forall side_ w', _get_position exchange symbol side_ w' = (None, w'))
    as Hget.
  { intros side_ w'. unfold _get_position, catch_all, bind.
    by rewrite (normalize_symbol_not_str exchange symbol w' Hs). }
  split.
  - rewrite (entry_from_flat d self exchange symbol signal w w w
               (Hget _ _) (Hget _ _)).
    unfold catch_all.
    destruct d; simpl; unfold place_long_entry, place_short_entry, bind;
      by rewrite (normalize_symbol_not_str exchange symbol w Hs).
  - intros Hin. by apply exit_without_position.
Qed.


End Edges.

(** * The account helpers, the secrets store and the settings *)

Section AccountFacts.
Context {X : Type} `{!Gateway X} `{!Portfolio X}.

(** The positions with a number of contracts above zero, in order. *)
Lemma open_positions_filter positions :
  open_positions positions =
    if forallb (fun p => bool_decide (is_Some (contracts p))) positions
    then inr (List.filter
                (fun p => match contracts p with
                          | Some c => Num.ltb (Int 0) c
                          | None => false
                          end) positions)
    else inl TypeError.
Proof.
  induction positions as [| p rest IH]; [done |].
  simpl. unfold has_contracts, position_contracts.
  destruct (contracts p) as [c |]; simpl; [| done].
  rewrite IH. destruct (forallb _ rest); simpl; [| done].
  by destruct (Num.ltb (Int 0) c).
Qed.

(** [get_positions] answers with exactly the fetched positions that have
    [contracts > 0], in the order fetched, provided every fetched position
    reports a number of contracts; a single position reporting [None] makes
    the whole answer [None], as do a failed fetch and an unknown exchange
    name, the latter without a call. *)
Theorem get_positions_keeps_open_positions self exchange_name x :
  let out := get_positions self exchange_name x in
  (exchanges self !! exchange_name = None -> out = (None, x)) /\
  (forall exchange positions x',
     exchanges self !! exchange_name = Some exchange ->
     gw_fetch_all_positions exchange x = (inr positions, x') ->
     (Forall (fun p => is_Some (contracts p)) positions ->
      fst out = Some (List.filter
                        (fun p => match contracts p with
                                  | Some c => Num.ltb (Int 0) c
                                  | None => false
                                  end) positions)) /\
     (Exists (fun p => contracts p = None) positions -> fst out = None)) /\
  (forall exchange e x',
     exchanges self !! exchange_name = Some exchange ->
     gw_fetch_all_positions exchange x = (inl e, x') ->
     fst out = None).
Proof.
  intros out. unfold out, get_positions. split; [| split].
  - by intros ->.
  - intros exchange positions x' -> ->. rewrite open_positions_filter. split.
    + intros Hall.
      assert (forallb (fun p => bool_decide (is_Some (contracts p))) positions
              = true) as ->; [| done].
      apply forallb_forall. intros p Hp. apply bool_decide_eq_true.
      rewrite Forall_forall in Hall. apply Hall. by apply list_elem_of_In.
    + intros Hex.
      assert (forallb (fun p => bool_decide (is_Some (contracts p))) positions
              = false) as ->; [| done].
      apply not_true_is_false. intros Hall.
      rewrite forallb_forall in Hall. apply Exists_exists in Hex
        as (p & Hp & Hnone).
      apply list_elem_of_In, Hall, bool_decide_eq_true in Hp.
      rewrite Hnone in Hp. by destruct Hp.
  - by intros exchange e x' -> ->.
Qed.

End AccountFacts.

Section StoreFacts.
Context {B : Type} `{!Cipher B}.
Implicit Types (h : Host B).



(** When the secrets file cannot be written, saving reports failure and
    the file is left as it was. *)
Theorem save_api_keys_read_only exchange api_key secret_key h :
  writable h = false ->
  let out := save_api_keys exchange api_key secret_key h in
  fst out = false /\
  secrets_file (snd out) = secrets_file h /\
  (forall name, get_api_keys name (snd out) = get_api_keys name h).
Proof.
  intros Hw out. unfold out, save_api_keys, write_secrets. simpl.
  by rewrite Hw.
Qed.



(** [initialize_exchanges] never disconnects: an exchange that is in the
    registry stays in it, also when its keys have since been deleted;
    entries under names other than "binance" and "upbit" are not touched;
    and an exchange is registered as soon as its stored keys have both
    entries. *)
Theorem initialize_exchanges_only_adds h registry :
  let after := initialize_exchanges h registry in
  (forall name, is_Some (registry !! name) -> is_Some (after !! name)) /\
  (forall name, name <> "binance" -> name <> "upbit" ->
     after !! name = registry !! name) /\
  (forall keys k s,
     get_api_keys "binance" h = Some keys ->
     keys !! "api_key" = Some k -> keys !! "secret_key" = Some s ->
     after !! "binance" = Some Binance) /\
  (forall keys k s,
     get_api_keys "upbit" h = Some keys ->
     keys !! "api_key" = Some k -> keys !! "secret_key" = Some s ->
     after !! "upbit" = Some Upbit).
Proof.
  intros after. unfold after, initialize_exchanges.
  assert (forall name exchange reg other,
    connect name exchange h reg !! other
      = reg !! other \/
    (other = name /\ connect name exchange h reg !! other = Some exchange))
    as Hconnect.
  { intros name exchange reg other. unfold connect.
    destruct (get_api_keys name h) as [keys |]; [| by left].
    destruct (keys !! "api_key"); [| by left].
    destruct (keys !! "secret_key"); [| by left].
    destruct (decide (other = name)) as [-> | Hne].
    - right. by rewrite lookup_insert_eq.
    - left. by rewrite lookup_insert_ne. }
  split; [| split; [| split]].
  - intros name Hin.
    destruct (Hconnect "upbit" Upbit (connect "binance" Binance h registry)
                name) as [-> | [_ ->]]; [| done].
    by destruct (Hconnect "binance" Binance registry name) as [-> | [_ ->]].
  - intros name Hb Hu.
    destruct (Hconnect "upbit" Upbit (connect "binance" Binance h registry)
                name) as [-> | [? _]]; [| done].
    by destruct (Hconnect "binance" Binance registry name) as [-> | [? _]].
  - intros keys k s Hkeys Hk Hs.
    destruct (Hconnect "upbit" Upbit (connect "binance" Binance h registry)
                "binance") as [-> | [? _]]; [| done].
    unfold connect. rewrite Hkeys, Hk, Hs. by rewrite lookup_insert_eq.
  - intros keys k s Hkeys Hk Hs.
    unfold connect at 1. rewrite Hkeys, Hk, Hs. by rewrite lookup_insert_eq.
Qed.

End StoreFacts.

Section Settings.

(** Over defaults whose sections are all dictionaries the merge does not
    raise, and its result is, section by section: the default section where
    the file has none; the loaded fields over the default ones where both
    are dictionaries; the loaded value otherwise. *)
Lemma merge_config_pointwise (default_config loaded_config : Config) :
  (forall section d, default_config !! section = Some d ->
                     exists fields, d = YMap fields) ->
  exists merged,
    merge_config default_config loaded_config = inr merged /\
    forall section,
      merged !! section =
        match loaded_config !! section with
        | None => default_config !! section
        | Some (YMap loaded) =>
            match default_config !! section with
            | Some (YMap present) => Some (YMap (loaded ∪ present))
            | _ => Some (YMap loaded)
            end
        | Some values => Some values
        end.
Proof.
  intros Hdicts. unfold merge_config.
  apply (map_fold_weak_ind
    (fun (r : res Config) (m : Config) =>
       exists merged, r = inr merged /\
         forall section,
           merged !! section =
             match m !! section with
             | None => default_config !! section
             | Some (YMap loaded) =>
                 match default_config !! section with
                 | Some (YMap present) => Some (YMap (loaded ∪ present))
                 | _ => Some (YMap loaded)
                 end
             | Some values => Some values
             end)).
  - exists default_config. split; [done |]. intros section.
    by rewrite lookup_empty.
  - intros i x m r Hfresh (merged & -> & Hpoint). simpl.
    pose proof (Hpoint i) as Hi. rewrite Hfresh in Hi.
    unfold merge_section.
    assert (forall updated : Config,
      (forall section, section <> i -> updated !! section = merged !! section) ->
      updated !! i =
        match x with
        | YMap loaded =>
            match default_config !! i with
            | Some (YMap present) => Some (YMap (loaded ∪ present))
            | _ => Some (YMap loaded)
            end
        | _ => Some x
        end ->
      exists merged' : Config,
        (inr updated : res Config) = inr merged' /\
        forall section,
          merged' !! section =
            match <[i := x]> m !! section with
            | None => default_config !! section
            | Some (YMap loaded) =>
                match default_config !! section with
                | Some (YMap present) => Some (YMap (loaded ∪ present))
                | _ => Some (YMap loaded)
                end
            | Some values => Some values
            end) as Hdone.
    { intros updated Hothers Hat. exists updated. split; [done |].
      intros section. destruct (decide (section = i)) as [-> | Hne].
      - rewrite lookup_insert_eq, Hat. by destruct x.
      - rewrite lookup_insert_ne by done. rewrite Hothers by done.
        apply Hpoint. }
    destruct x as [v | items | loaded].
    + apply Hdone; [intros; by rewrite lookup_insert_ne |
                    by rewrite lookup_insert_eq].
    + apply Hdone; [intros; by rewrite lookup_insert_ne |
                    by rewrite lookup_insert_eq].
    + rewrite Hi. destruct (default_config !! i) as [d |] eqn:Hd.
      * destruct (Hdicts i d Hd) as [present ->].
        apply Hdone; [intros; by rewrite lookup_insert_ne |
                      by rewrite lookup_insert_eq].
      * apply Hdone; [intros; by rewrite lookup_insert_ne |
                      by rewrite lookup_insert_eq].
Qed.

Lemma default_sections_are_dictionaries section d :
  get_default_config !! section = Some d -> exists fields, d = YMap fields.
Proof.
  unfold get_default_config. intros Hd.
  destruct (decide (section = "trading")) as [-> | H1];
    [rewrite lookup_insert_eq in Hd; injection Hd as <-; by eexists |].
  rewrite lookup_insert_ne in Hd by done.
  destruct (decide (section = "security")) as [-> | H2];
    [rewrite lookup_insert_eq in Hd; injection Hd as <-; by eexists |].
  rewrite lookup_insert_ne in Hd by done.
  destruct (decide (section = "server")) as [-> | H3];
    [rewrite lookup_singleton_eq in Hd; injection Hd as <-; by eexists |].
  by rewrite lookup_singleton_ne in Hd.
Qed.

(** [load_config] answers with the defaults when the file is absent,
    unreadable, empty or not a mapping.  For a file that is a non-empty
    mapping, every default section is still there: untouched when the file
    does not name it, with the file's fields laid over the default ones when
    the file gives a mapping for it (a field the file omits keeps its
    default), and replaced outright, defaults lost, when the file gives
    anything else; sections unknown to the defaults are taken as they are. *)
Theorem load_config_lays_file_over_defaults :
  load_config None = get_default_config /\
  (forall e, load_config (Some (inl e)) = get_default_config) /\
  (forall doc,
     (forall loaded, doc <> YMap loaded) \/ doc = YMap ∅ ->
     load_config (Some (inr doc)) = get_default_config) /\
  (forall loaded section,
     loaded <> ∅ ->
     load_config (Some (inr (YMap loaded))) !! section =
       match loaded !! section with
       | None => get_default_config !! section
       | Some (YMap fields) =>
           match get_default_config !! section with
           | Some (YMap present) => Some (YMap (fields ∪ present))
           | _ => Some (YMap fields)
           end
       | Some values => Some values
       end) /\
  (forall loaded section fields present field,
     loaded <> ∅ ->
     loaded !! section = Some (YMap fields) ->
     get_default_config !! section = Some (YMap present) ->
     fields !! field = None ->
     exists merged,
       load_config (Some (inr (YMap loaded))) !! section = Some (YMap merged) /\
       merged !! field = present !! field).
Proof.
  assert (forall loaded section,
     loaded <> ∅ ->
     load_config (Some (inr (YMap loaded))) !! section =
       match loaded !! section with
       | None => get_default_config !! section
       | Some (YMap fields) =>
           match get_default_config !! section with
           | Some (YMap present) => Some (YMap (fields ∪ present))
           | _ => Some (YMap fields)
           end
       | Some values => Some values
       end) as Hpoint.
  { intros loaded section Hne. unfold load_config, yaml_truthy.
    rewrite bool_decide_eq_false_2 by done. simpl.
    destruct (merge_config_pointwise get_default_config loaded
                default_sections_are_dictionaries) as (merged & -> & Hm).
    apply Hm. }
  split; [done |]. split; [done |]. split; [| split; [exact Hpoint |]].
  - intros doc [Hnot | ->].
    + unfold load_config. destruct (negb (yaml_truthy doc)); [done |].
      destruct doc as [v | items | loaded]; try done.
      by destruct (Hnot loaded).
    + unfold load_config, yaml_truthy.
      by rewrite bool_decide_eq_true_2.
  - intros loaded section fields present field Hne Hsec Hdef Hfield.
    exists (fields ∪ present). rewrite (Hpoint loaded section Hne).
    rewrite Hsec, Hdef. split; [done |].
    by rewrite lookup_union_r.
Qed.

End Settings.

(** * The webhook server *)

Section ServerFacts.
Context `{!Builtins} {X : Type} `{!Gateway X}.
Implicit Types (w : World X) (config : Config) (engine : TradingEngine)
  (request : Request).

(** With the whitelist switched on and [allowed_ips] a list, the address
    checked is the X-Forwarded-For header when the request has one and the
    remote address otherwise.  A request whose checked address is not listed
    is answered 403 and the engine is not called; a request whose header
    names a listed address is not refused, whatever its remote address. *)
Theorem webhook_checks_forwarded_address
    config engine request w security required allowed :
  config !! "security" = Some (YMap security) ->
  security !! "require_ip_whitelist" = Some required ->
  yaml_truthy required = true ->
  security !! "allowed_ips" = Some (YSeq allowed) ->
  let client_ip := default (remote_addr request) (forwarded_for request) in
  (existsb (yaml_is client_ip) allowed = false ->
   webhook config engine request w = ((403, UnauthorizedIp), w)) /\
  (forall ip,
     forwarded_for request = Some ip ->
     existsb (yaml_is ip) allowed = true ->
     fst (fst (webhook config engine request w)) <> 403 /\
     forall address,
       webhook config engine request w
         = webhook config engine
             {| forwarded_for := Some ip; remote_addr := address;
                is_json := is_json request; get_json := get_json request |}
             w).
Proof.
  intros Hsec Hreq Hon Hallowed client_ip.
  assert (forall ip, check_ip_whitelist config ip
                     = inr (existsb (yaml_is ip) allowed)) as Hcheck.
  { intros ip. unfold check_ip_whitelist, yaml_item.
    by rewrite Hsec, Hreq, Hon, Hallowed. }
  split.
  - intros Hout. unfold webhook. fold client_ip. by rewrite Hcheck, Hout.
  - intros ip Hfwd Hin. split.
    + unfold webhook. rewrite Hfwd. simpl. rewrite Hcheck, Hin.
      destruct (negb (is_json request)); [done |].
      destruct (get_json request) as [f | [signal |]]; try done.
      destruct (negb (has_key "action" signal)); [done |].
      destruct (execute_signal engine signal w) as [r w'].
      simpl. by destruct (success r).
    + intros address. unfold webhook. by rewrite Hfwd.
Qed.

(** The status code of [webhook] tells what happened: it is 200 exactly
    when the engine ran the signal and answered [success = true]; a body
    that carries an engine result is the result of running the posted signal,
    and the world is the one that run left; every other answer is given
    without a single call on the exchange. *)
Theorem webhook_status_reflects_outcome config engine request w :
  let out := webhook config engine request w in
  (fst (fst out) = 200 <->
   exists r, snd (fst out) = Outcome r /\ success r = true) /\
  (forall r, snd (fst out) = Outcome r ->
     exists signal,
       get_json request = inr (Some signal) /\
       has_key "action" signal = true /\
       execute_signal engine signal w = (r, snd out)) /\
  ((forall r, snd (fst out) <> Outcome r) -> snd out = w).
Proof.
  intros out. unfold out, webhook.
  destruct (check_ip_whitelist config _) as [f | [|]];
    try (repeat split; try done; by intros [r [? ?]]).
  destruct (negb (is_json request));
    try (repeat split; try done; by intros [r [? ?]]).
  destruct (get_json request) as [f | [signal |]];
    try (repeat split; try done; by intros [r [? ?]]).
  destruct (negb (has_key "action" signal)) eqn:Haction;
    try (repeat split; try done; by intros [r [? ?]]).
  apply negb_false_iff in Haction.
  destruct (execute_signal engine signal w) as [r w'] eqn:Hrun. simpl.
  split; [| split].
  - destruct (success r) eqn:Hs; split; try done.
    + intros _. by exists r.
    + intros (r' & [= <-] & Hs'). congruence.
  - intros r' [= <-]. by exists signal.
  - intros Hnot. by destruct (Hnot r).
Qed.

(** [test_signal] is no dry run.  With a server [config] that has the
    ["enable_trading"] setting, the posted signal is run by the engine under
    the engine's own settings, exactly as [execute_signal] runs it: same
    result, same calls on the exchange.  The answer is 200 with that result,
    and the server's [config] is afterwards what it was. *)
Theorem test_signal_runs_the_engine
    config engine request w fields original signal :
  config !! "trading" = Some (YMap fields) ->
  fields !! "enable_trading" = Some original ->
  get_json request = inr (Some signal) ->
  test_signal config engine request w
    = (((200, Validation (fst (execute_signal engine signal w))), config),
       snd (execute_signal engine signal w)).
Proof.
  intros Htrading Hflag Hjson. unfold test_signal, yaml_item.
  rewrite Hjson, Htrading, Hflag.
  destruct (execute_signal engine signal w) as [r w']. simpl.
  by rewrite (insert_id fields), (insert_id config).
Qed.

End ServerFacts.

(** * The properties on concrete runs

    The runs below use the builtins on ASCII text. *)

#[local] Existing Instance ascii_builtins.

Example upper_strip : py_strip_upper (VStr "GasUsdt.P") = inr "GASUSDT".
Proof. reflexivity. Qed.

Example float_of_text :
  py_float (VStr "-2.50") = inr (SFopp (Num.decimal 25 1)).
Proof. vm_compute. reflexivity. Qed.

(** The sizing of compound mode: 1.25 percent of 1234 is
    15.425000000000001, hence 15.43; 5 percent of 100.0 is below the floor;
    a percent that is not a number is refused by [float]. *)
Example compound_of_known_values :
  compound_of (VNum (Int 1234)) (VNum (decimal 125 2))
    = inr (decimal 1543 2) /\
  compound_of (VNum (whole 100)) (VNum (Int 5)) = inr (Int 11) /\
  compound_of (VNum (whole 1000)) (VStr "abc") = inl ValueError.
Proof. vm_compute. repeat split. Qed.

(** A NaN percent passes the range check and both guards of the exit
    handler: the closing order is placed, for a quantity of NaN. *)
Example nan_percent_passes_the_guards :
  let signal := signal_with "long_exit" "percent" (VNum (Float S754_nan)) in
  let out :=
    execute_signal engine0 signal
      (at_start (venue_with (whole 1000) [long_of (whole 3)])) in
  success (fst out) = true /\
  calls (snd out)
    = [CallLoadMarkets Binance; CallFetchPositions Binance ["BTCUSDT"];
       CallLoadMarkets Binance;
       CallCreateMarketSellOrder Binance "BTCUSDT" (Float S754_nan) true].
Proof. vm_compute. repeat split. Qed.

(** The clamp at work: a position of [2**53 + 3] contracts, reported as an
    [int], closed at 100 percent.  The product is the float [2.0**53 + 4],
    which exceeds the position size, and the order is for the size. *)
Example clamp_catches_rounding :
  let size := Int (2 ^ 53 + 3) in
  res_bind (Num.div (Int 100) (Int 100)) (Num.mul size)
    = inr (whole (2 ^ 53 + 4)) /\
  Num.ltb size (whole (2 ^ 53 + 4)) = true /\
  clamp_to size (whole (2 ^ 53 + 4)) = size.
Proof. vm_compute. repeat split. Qed.

(** A percent so small that [percent / 100] underflows to zero: the guard
    answers and no order is placed. *)
Example tiny_percent_places_no_order :
  let tiny := Float (S754_finite false 1 (-1074)) in
  let signal := signal_with "long_exit" "percent" (VNum tiny) in
  let out :=
    execute_signal engine0 signal
      (at_start (venue_with (whole 1000) [long_of (whole 3)])) in
  percent_out_of_range (VNum tiny) = inr false /\
  fst out = failure (MsgCloseQuantityNotPositive (whole 3) (VNum tiny)) signal /\
  calls (snd out)
    = [CallLoadMarkets Binance; CallFetchPositions Binance ["BTCUSDT"]].
Proof. vm_compute. repeat split. Qed.

(** ** The claims *)

(** C1 at work: a long entry over an open short, first on a venue that
    fills the closing order, then on one that refuses it. *)
Lemma C1_flip_witness :
  let signal := signal_with "long_entry" "amount" (VNum (Int 100)) in
  let filled := at_start (venue_with (whole 1000) [short_of (whole 2)]) in
  let refused := at_start (venue_refusing_orders [short_of (whole 2)]) in
  (calls (snd (_execute_long_entry engine0 Binance BTCUSDT signal filled))
     = [CallLoadMarkets Binance; CallFetchPositions Binance ["BTCUSDT"];
        CallLoadMarkets Binance; CallFetchPositions Binance ["BTCUSDT"];
        CallLoadMarkets Binance; CallFetchPositions Binance ["BTCUSDT"];
        CallLoadMarkets Binance;
        CallCreateMarketBuyOrder Binance "BTCUSDT" (whole 2) true;
        CallLoadMarkets Binance;
        CallSetLeverage Binance (VNum (Int 1)) "BTCUSDT";
        CallFetchTicker Binance "BTCUSDT";
        CallCreateMarketBuyOrder Binance "BTCUSDT" (whole 2) false]) /\
  (fst (_execute_long_entry engine0 Binance BTCUSDT signal refused)
     = failure (MsgShortCloseFailed
                  (MsgShortExitFailed (ExchangeError "order refused")))
               signal).
Proof.
  intros signal filled refused.
  assert (forall w,
    w = filled \/ w = refused ->
    _get_position Binance BTCUSDT "long" w
      = (None, snd (_get_position Binance BTCUSDT "long" w)) /\
    _get_position Binance BTCUSDT "short"
      (snd (_get_position Binance BTCUSDT "long" w))
      = (Some (short_of (whole 2)),
         snd (_get_position Binance BTCUSDT "short"
                (snd (_get_position Binance BTCUSDT "long" w))))) as Hlook.
  { intros w [-> | ->]; split; vm_compute; reflexivity. }
  split.
  - destruct (Hlook filled (or_introl eq_refl)) as [Hl Hs].
    destruct (C1_flip_closes_opposite_first Long engine0 Binance BTCUSDT
                signal filled _ _ _ _ (short_of (whole 2)) Hl Hs
                eq_refl eq_refl)
      as (_ & Hok & _).
    simpl entry_handler in Hok. rewrite Hok; vm_compute; reflexivity.
  - destruct (Hlook refused (or_intror eq_refl)) as [Hl Hs].
    destruct (C1_flip_closes_opposite_first Long engine0 Binance BTCUSDT
                signal refused _ _ _ _ (short_of (whole 2)) Hl Hs
                eq_refl eq_refl)
      as (_ & _ & Hko).
    simpl entry_handler in Hko. rewrite Hko; vm_compute; reflexivity.
Defined.

(** Against C1 as stated: with a long and a short both open (hedge mode),
    a long entry is stopped by the duplicate-direction guard and the short is
    not closed. *)
Lemma C1_counterexample :
  let signal := signal_with "long_entry" "amount" (VNum (Int 100)) in
  let w :=
    at_start (venue_with (whole 1000) [long_of (whole 1); short_of (whole 2)]) in
  fst (_get_position Binance BTCUSDT "short" w) = Some (short_of (whole 2)) /\
  fst (execute_signal engine0 signal w) = failure MsgAlreadyLong signal /\
  calls (snd (execute_signal engine0 signal w))
    = [CallLoadMarkets Binance; CallFetchPositions Binance ["BTCUSDT"];
       CallLoadMarkets Binance; CallFetchPositions Binance ["BTCUSDT"]].
Proof. vm_compute. repeat split. Qed.

(** C2 at work: a long exit at 150 percent. *)
Lemma C2_exit_percent_witness :
  let signal := signal_with "long_exit" "percent" (VNum (Int 150)) in
  let w := at_start (venue_with (whole 1000) [long_of (whole 3)]) in
  execute_signal engine0 signal w
    = (failure (MsgCloseRatioRange (VNum (Int 150))) signal, w).
Proof.
  intros signal w.
  destruct (C2_exit_percent_rejected_without_call Long engine0 signal w
              (Int 150))
    as (_ & _ & Hrouted & _).
  - reflexivity.
  - reflexivity.
  - right. reflexivity.
  - apply (Hrouted Binance BTCUSDT). reflexivity.
Defined.

(** Against C2 as stated: a long entry at 150 percent is not rejected; the
    balance is fetched, the positions are looked up and an order for 150
    percent of the free balance is placed. *)
Lemma C2_counterexample :
  let signal := signal_with "long_entry" "percent" (VNum (Int 150)) in
  let out :=
    execute_signal engine0 signal (at_start (venue_with (whole 1000) [])) in
  success (fst out) = true /\
  r_signal (fst out) !! "amount" = Some (VNum (whole 1500)) /\
  calls (snd out)
    = [CallFetchBalance Binance;
       CallLoadMarkets Binance; CallFetchPositions Binance ["BTCUSDT"];
       CallLoadMarkets Binance; CallFetchPositions Binance ["BTCUSDT"];
       CallLoadMarkets Binance;
       CallSetLeverage Binance (VNum (Int 1)) "BTCUSDT";
       CallFetchTicker Binance "BTCUSDT";
       CallCreateMarketBuyOrder Binance "BTCUSDT" (whole 30) false].
Proof. vm_compute. repeat split. Qed.

(** C3 at work: 5 percent of a free balance of 1000.0, and of 100.0. *)
Lemma C3_compound_witness :
  let signal := signal_with "long_entry" "percent" (VNum (Int 5)) in
  r_signal (fst (execute_signal engine0 signal
                   (at_start (venue_with (whole 1000) []))))
    = <["amount" := VNum (whole 50)]> signal /\
  r_signal (fst (execute_signal engine0 signal
                   (at_start (venue_with (whole 100) []))))
    = <["amount" := VNum (Int 11)]> signal.
Proof.
  intros signal.
  assert (Num.div (Float (Num.of_Z 5)) (whole 100) = inr (decimal 5 2))
    as Hratio by (vm_compute; reflexivity).
  split.
  - destruct (C3_compound_amount engine0 signal
                (at_start (venue_with (whole 1000) [])) Binance BTCUSDT
                "long_entry" (VNum (Int 5)))
      as (_ & Hecho & Hsized & _); [reflexivity .. |].
    rewrite Hecho.
    destruct (Hsized {| free := {[ "USDT" := VNum (whole 1000) ]} |}
                (venue_with (whole 1000) []) (VNum (whole 1000)))
      as [Hcomputed _]; [reflexivity .. |].
    destruct (Hcomputed (Num.of_Z 5) (decimal 5 2) (whole 1000) (whole 50))
      as [_ Hrounded];
      [reflexivity | exact Hratio | reflexivity | vm_compute; reflexivity |].
    rewrite Hrounded; [| vm_compute; reflexivity].
    vm_compute. reflexivity.
  - destruct (C3_compound_amount engine0 signal
                (at_start (venue_with (whole 100) [])) Binance BTCUSDT
                "long_entry" (VNum (Int 5)))
      as (_ & Hecho & Hsized & _); [reflexivity .. |].
    rewrite Hecho.
    destruct (Hsized {| free := {[ "USDT" := VNum (whole 100) ]} |}
                (venue_with (whole 100) []) (VNum (whole 100)))
      as [Hcomputed _]; [reflexivity .. |].
    destruct (Hcomputed (Num.of_Z 5) (decimal 5 2) (whole 100) (whole 5))
      as [Hfloor _];
      [reflexivity | exact Hratio | reflexivity | vm_compute; reflexivity |].
    apply Hfloor. vm_compute. reflexivity.
Defined.

(** Against C3 as stated: at 50 percent of a free balance of 100.125 the
    amount is 50.06, not the product 100.125 * (50 / 100) = 50.0625. *)
Lemma C3_counterexample :
  let signal := signal_with "long_entry" "percent" (VNum (Int 50)) in
  let out :=
    execute_signal engine0 signal
      (at_start (venue_with (decimal 100125 3) [])) in
  r_signal (fst out) !! "amount" = Some (VNum (decimal 5006 2)) /\
  res_bind (Num.div (Int 50) (Int 100)) (Num.mul (decimal 100125 3))
    = inr (decimal 500625 4) /\
  decimal 5006 2 <> decimal 500625 4.
Proof.
  split; [vm_compute; reflexivity |]. split; [vm_compute; reflexivity |].
  intros Heq. vm_compute in Heq. discriminate Heq.
Qed.



(** C5 at work: closing 50 percent of a short position of 3.0. *)
Lemma C5_close_quantity_witness :
  let signal := signal_with "short_exit" "percent" (VNum (Int 50)) in
  let w := at_start (venue_with (whole 1000) [short_of (whole 3)]) in
  let out := _execute_short_exit Binance BTCUSDT signal w in
  extends (order_within (whole 3)) w (snd out) /\
  calls (snd out)
    = [CallLoadMarkets Binance; CallFetchPositions Binance ["BTCUSDT"];
       CallLoadMarkets Binance;
       CallCreateMarketBuyOrder Binance "BTCUSDT" (decimal 15 1) true] /\
  Num.leb (decimal 15 1) (whole 3) = true.
Proof.
  intros signal w out.
  assert (_get_position Binance BTCUSDT "short" w
          = (Some (short_of (whole 3)),
             snd (_get_position Binance BTCUSDT "short" w)))
    as Hget by (vm_compute; reflexivity).
  destruct (C5_close_quantity_within_position Short Binance BTCUSDT signal w
              (short_of (whole 3)) _ (whole 3) (Int 50)
              eq_refl eq_refl eq_refl Hget eq_refl)
    as (Hwithin & Hcomputed & _).
  split; [exact Hwithin |].
  destruct (Hcomputed (decimal 5 1) (decimal 15 1)) as [_ Hplaced];
    [vm_compute; reflexivity .. |].
  destruct Hplaced as (_ & _ & Hle & n & w2 & Hn & Hcalls);
    [vm_compute; reflexivity |].
  simpl exit_handler in Hcalls. split.
  - unfold out. rewrite Hcalls.
    vm_compute in Hn. injection Hn as <- <-. vm_compute. reflexivity.
  - apply Hle. reflexivity.
Defined.

(** C6 (amended) at work: a short entry over a reported short. *)
Lemma C6_duplicate_witness :
  let signal := signal_with "short_entry" "amount" (VNum (Int 100)) in
  let w := at_start (venue_with (whole 1000) [short_of (whole 2)]) in
  fst (_execute_short_entry engine0 Binance BTCUSDT signal w)
    = failure MsgAlreadyShort signal /\
  extends query w (snd (_execute_short_entry engine0 Binance BTCUSDT signal w)).
Proof.
  intros signal w.
  assert (_get_position Binance BTCUSDT "long" w
          = (None, snd (_get_position Binance BTCUSDT "long" w)))
    as Hl by (vm_compute; reflexivity).
  assert (_get_position Binance BTCUSDT "short"
            (snd (_get_position Binance BTCUSDT "long" w))
          = (Some (short_of (whole 2)),
             snd (_get_position Binance BTCUSDT "short"
                    (snd (_get_position Binance BTCUSDT "long" w)))))
    as Hs by (vm_compute; reflexivity).
  destruct (C6_duplicate_direction_blocked Short engine0 Binance BTCUSDT
              signal w _ _ _ _ (short_of (whole 2)) Hl Hs eq_refl)
    as (Hrun & _ & Hquiet).
  simpl entry_handler in *. split; [by rewrite Hrun | exact Hquiet].
Defined.

(** Against C6 as stated: the venue holds a long position of 5.0 contracts
    while its position endpoint times out.  Both lookups of the long entry
    fail and are read as "no position"; the entry places its buy order on
    top of the open long and answers [success = true].  Once the endpoint
    is back the resolver reports the position that was there all along. *)
Lemma C6_counterexample :
  let signal := signal_with "long_entry" "amount" (VNum (Int 100)) in
  let w : World Outage :=
    {| venue := {| held := [long_of (whole 5)]; outage := 2 |};
       calls := [] |} in
  let out := execute_signal engine0 signal w in
  held (venue w) = [long_of (whole 5)] /\
  success (fst out) = true /\
  calls (snd out)
    = [CallLoadMarkets Binance; CallFetchPositions Binance ["BTCUSDT"];
       CallLoadMarkets Binance; CallFetchPositions Binance ["BTCUSDT"];
       CallLoadMarkets Binance;
       CallSetLeverage Binance (VNum (Int 1)) "BTCUSDT";
       CallFetchTicker Binance "BTCUSDT";
       CallCreateMarketBuyOrder Binance "BTCUSDT" (whole 2) false] /\
  fst (_get_position Binance BTCUSDT "long" (snd out))
    = Some (long_of (whole 5)).
Proof. vm_compute. repeat split. Qed.

(** C7 at work: a short exit while the position endpoint is down. *)
Lemma C7_no_position_witness :
  let signal := signal_with "short_exit" "percent" (VNum (Int 50)) in
  let w := at_start venue_positions_down in
  fst (_execute_short_exit Binance BTCUSDT signal w)
    = informational MsgNoShortPosition signal /\
  extends query w (snd (_execute_short_exit Binance BTCUSDT signal w)) /\
  calls (snd (_execute_short_exit Binance BTCUSDT signal w))
    = [CallLoadMarkets Binance; CallFetchPositions Binance ["BTCUSDT"]].
Proof.
  intros signal w.
  destruct (C7_exit_without_position_succeeds Short Binance BTCUSDT signal w
              eq_refl) as [_ Hdown].
  destruct (Hdown "BTCUSDT" "BTCUSDT"
              (snd (_normalize_symbol Binance BTCUSDT w))
              (ExchangeError "timeout") venue_positions_down)
    as [Hrun Hquiet]; [reflexivity | vm_compute; reflexivity | reflexivity |].
  simpl exit_handler in *. split; [exact Hrun |]. split; [exact Hquiet |].
  vm_compute. reflexivity.
Defined.

(** Against C7 as stated: with no long position open, a long exit at 150
    percent is answered with [success = false]; the range check comes
    before the position lookup. *)
Lemma C7_counterexample :
  let signal := signal_with "long_exit" "percent" (VNum (Int 150)) in
  let w := at_start (venue_with (whole 1000) []) in
  fst (_get_position Binance BTCUSDT "long" w) = None /\
  execute_signal engine0 signal w
    = (failure (MsgCloseRatioRange (VNum (Int 150))) signal, w) /\
  success (fst (execute_signal engine0 signal w)) = false.
Proof. vm_compute. repeat split. Qed.

(** C8 at work: "GASUSDT.P" on Binance, first with the unified market
    alone in the table, then with an empty table. *)
Lemma C8_normalize_witness :
  let listed :=
    at_start (venue_listing
      (inr {[ "GAS/USDT:USDT" := {| market_id := "GAS_USDT_PERP" |} ]})) in
  let unlisted := at_start (venue_listing (inr ∅)) in
  fst (_normalize_symbol Binance (VStr "GASUSDT.P") listed)
    = inr "GAS_USDT_PERP" /\
  fst (_normalize_symbol Binance (VStr "GASUSDT.P") unlisted) = inr "GASUSDT".
Proof.
  intros listed unlisted. split.
  - destruct (C8_normalize_symbol_chain Binance "GASUSDT.P" listed)
      as (_ & _ & Hbinance).
    destruct (Hbinance eq_refl) as [Hloaded _].
    destruct (Hloaded _ _ eq_refl) as (_ & Hunified & _).
    apply (Hunified {| market_id := "GAS_USDT_PERP" |}); reflexivity.
  - destruct (C8_normalize_symbol_chain Binance "GASUSDT.P" unlisted)
      as (_ & _ & Hbinance).
    destruct (Hbinance eq_refl) as [Hloaded _].
    destruct (Hloaded _ _ eq_refl) as (_ & _ & Hnone).
    apply Hnone; [reflexivity | right; reflexivity].
Defined.

(** Against C8 as stated.  On Upbit the market table is not consulted: a
    ticker that is a key of the table comes back unchanged, not as the
    market id.  On Binance the ticker "USDT" is not retried in unified form.
    And after a failed [load_markets] the answer for "gasusdt.p" differs from
    the answer with no match. *)
Lemma C8_counterexample :
  let upbit :=
    at_start (venue_listing
      (inr {[ "BTC/KRW" := {| market_id := "KRW-BTC" |} ]})) in
  let bare :=
    at_start (venue_listing
      (inr {[ "/USDT:USDT" := {| market_id := "USDT_PERP" |} ]})) in
  let unlisted := at_start (venue_listing (inr ∅)) in
  let down := at_start (venue_listing (inl (ExchangeError "timeout"))) in
  _normalize_symbol Upbit (VStr "BTC/KRW") upbit = (inr "BTC/KRW", upbit) /\
  fst (_normalize_symbol Binance (VStr "USDT") bare) = inr "USDT" /\
  fst (_normalize_symbol Binance (VStr "gasusdt.p") unlisted)
    = inr "GASUSDT.P" /\
  fst (_normalize_symbol Binance (VStr "gasusdt.p") down) = inr "GASUSDT".
Proof. vm_compute. repeat split. Qed.

(** Against C9 as stated: in compound mode the signal echoed in the
    result has an ["amount"] entry the received signal did not have. *)
Lemma C9_counterexample :
  let signal := signal_with "long_entry" "percent" (VNum (Int 5)) in
  let out :=
    execute_signal engine0 signal (at_start (venue_with (whole 1000) [])) in
  signal !! "amount" = None /\
  r_signal (fst out) !! "amount" = Some (VNum (whole 50)) /\
  r_signal (fst out) <> signal.
Proof.
  intros signal out.
  assert (r_signal (fst out) !! "amount" = Some (VNum (whole 50))) as Hamount
    by (vm_compute; reflexivity).
  split; [vm_compute; reflexivity |]. split; [exact Hamount |].
  intros Heq. rewrite Heq in Hamount. vm_compute in Hamount.
  discriminate Hamount.
Qed.

(** C10 (amended) at work: a short entry that names neither amount nor
    percent nor leverage, on a flat account at a price of 50.0. *)
Lemma C10_defaults_witness :
  let signal : Signal :=
    {[ "action" := VStr "short_entry"; "symbol" := BTCUSDT ]} in
  let w := at_start (venue_with (whole 1000) []) in
  calls (snd (execute_signal engine0 signal w))
    = [CallLoadMarkets Binance; CallFetchPositions Binance ["BTCUSDT"];
       CallLoadMarkets Binance; CallFetchPositions Binance ["BTCUSDT"];
       CallLoadMarkets Binance;
       CallSetLeverage Binance (VNum (Int 1)) "BTCUSDT";
       CallFetchTicker Binance "BTCUSDT";
       CallCreateMarketSellOrder Binance "BTCUSDT" (whole 2) false] /\
  execute_signal engine0 signal w
    = echo_as signal
        (_execute_short_entry engine0 Binance BTCUSDT
           (<["amount" := VNum (Int 100)]> signal) w).
Proof.
  intros signal w.
  destruct (C10_entry_defaults Short engine0 signal w Binance BTCUSDT)
    as (Hrun & Hamount & _ & Hflat); [reflexivity .. |].
  split.
  - assert (_get_position Binance BTCUSDT "long" w
            = (None, snd (_get_position Binance BTCUSDT "long" w)))
      as Hl by (vm_compute; reflexivity).
    assert (_get_position Binance BTCUSDT "short"
              (snd (_get_position Binance BTCUSDT "long" w))
            = (None, snd (_get_position Binance BTCUSDT "short"
                            (snd (_get_position Binance BTCUSDT "long" w)))))
      as Hs by (vm_compute; reflexivity).
    set (w2 := snd (_get_position Binance BTCUSDT "short"
                      (snd (_get_position Binance BTCUSDT "long" w)))) in *.
    set (w3 := snd (_normalize_symbol Binance BTCUSDT w2)).
    set (w5 := snd (fetch_ticker Binance "BTCUSDT"
                      (snd (set_leverage_best_effort Binance (VNum (Int 1))
                              "BTCUSDT" w3)))).
    destruct (Hflat _ w2 "BTCUSDT" w3 {| last := VNum (whole 50) |} w5 Hl Hs)
      as [Hplaced _]; [vm_compute; reflexivity .. |].
    destruct (Hplaced (VNum (Int 100)) (whole 2)) as [Hcalls _];
      [vm_compute; reflexivity .. |].
    rewrite Hcalls. vm_compute. reflexivity.
  - rewrite Hrun. exact Hamount.
Defined.

(** Against C10 as stated: a long entry without amount and percent whose
    leverage is the integer [10**400].  The product [100 * leverage] is an
    [int] too large to be divided by the price, a float: the handler fails
    with [OverflowError] after the price fetch and places no order. *)
Lemma C10_counterexample :
  let signal := signal_with "long_entry" "leverage" (VNum (Int (10 ^ 400))) in
  let out :=
    execute_signal engine0 signal (at_start (venue_with (whole 1000) [])) in
  signal !! "amount" = None /\ signal !! "percent" = None /\
  fst out = failure (MsgLongEntryFailed OverflowError) signal /\
  calls (snd out)
    = [CallLoadMarkets Binance; CallFetchPositions Binance ["BTCUSDT"];
       CallLoadMarkets Binance; CallFetchPositions Binance ["BTCUSDT"];
       CallLoadMarkets Binance;
       CallSetLeverage Binance (VNum (Int (10 ^ 400))) "BTCUSDT";
       CallFetchTicker Binance "BTCUSDT"].
Proof. vm_compute. repeat split. Qed.

(** ** The further properties *)

(** A long entry sent to an engine with trading switched off. *)
Lemma trading_disabled_witness :
  let engine := {| exchanges := exchanges engine0; enable_trading := false;
                   default_leverage := VNum (Int 1) |} in
  let signal := signal_with "long_entry" "amount" (VNum (Int 100)) in
  let w := at_start (venue_with (whole 1000) []) in
  execute_signal engine signal w = (failure MsgTradingDisabled signal, w).
Proof.
  intros engine signal w.
  destruct (trading_disabled_stops_everything engine signal w eq_refl)
    as (_ & Hworld & Hmessage).
  rewrite (surjective_pairing (execute_signal engine signal w)).
  rewrite Hworld, (Hmessage "binance" "BTCUSDT"); reflexivity.
Defined.

(** A signal for an exchange the engine has no object for. *)
Lemma unconnected_exchange_witness :
  let signal := signal_with "long_entry" "exchange" (VStr "Kraken") in
  let w := at_start (venue_with (whole 1000) []) in
  execute_signal engine0 signal w
    = (failure (MsgExchangeNotConnected "kraken") signal, w).
Proof.
  intros signal w.
  destruct (unconnected_exchange_stops_signal engine0 signal w "Kraken")
    as (_ & Hworld & Hmessage); [reflexivity .. |].
  rewrite (surjective_pairing (execute_signal engine0 signal w)).
  rewrite Hworld, (Hmessage "BTCUSDT"); reflexivity.
Defined.

(** An action that contains "entry" without being one of the four, with a
    percent: the balance is fetched, then the action is rejected. *)
Lemma unknown_action_witness :
  let signal := signal_with "re_entry" "percent" (VNum (Int 5)) in
  let w := at_start (venue_with (whole 1000) []) in
  success (fst (execute_signal engine0 signal w)) = false /\
  calls (snd (execute_signal engine0 signal w)) = [CallFetchBalance Binance].
Proof.
  intros signal w.
  destruct (unknown_action_places_nothing engine0 signal w)
    as (Hfail & Hcalls & _); [reflexivity |].
  split; [exact Hfail |].
  destruct Hcalls as [Hsame | [exchange Hone]].
  - exfalso. apply (f_equal calls) in Hsame. vm_compute in Hsame.
    discriminate Hsame.
  - rewrite Hone. vm_compute in Hone. injection Hone as <-. reflexivity.
Defined.

(** A short exit of 50 percent: one order, reduce-only. *)
Lemma exit_signal_budget_witness :
  let signal := signal_with "short_exit" "percent" (VNum (Int 50)) in
  within is_order 1 (execute_signal (X := Script) engine0 signal) /\
  within opens_position 0 (execute_signal (X := Script) engine0 signal).
Proof.
  intros signal.
  apply (exit_signal_order_budget Short engine0 signal). reflexivity.
Defined.

(** A long entry that succeeds: the journal ends with the buy order for the
    quantity reported. *)
Lemma entry_success_witness :
  let signal := signal_with "long_entry" "amount" (VNum (Int 100)) in
  let out := execute_signal engine0 signal (at_start (venue_with (whole 1000) [])) in
  exists cs n q o price leverage,
    calls (snd out)
      = (cs ++ [CallCreateMarketBuyOrder Binance n q false])%list /\
    order (fst out) = Some o /\
    details (fst out) = Some (EntryDetails BTCUSDT "buy" q price leverage).
Proof.
  intros signal out.
  apply (entry_success_means_order_placed Long engine0 signal
           (at_start (venue_with (whole 1000) [])) Binance BTCUSDT);
    reflexivity.
Defined.

(** A long exit of half a position of 3 that succeeds. *)
Lemma exit_success_witness :
  let signal := signal_with "long_exit" "percent" (VNum (Int 50)) in
  let out :=
    execute_signal engine0 signal (at_start (venue_with (whole 1000) [long_of (whole 3)])) in
  exit_as_reported Long Binance BTCUSDT (fst out) (snd out) /\
  details (fst out)
    = Some (ExitDetails BTCUSDT "sell" (decimal 15 1) (whole 3)
              (VNum (Int 50))).
Proof.
  intros signal out. split; [| vm_compute; reflexivity].
  apply (exit_success_means_closed_or_nothing Long engine0 signal
           (at_start (venue_with (whole 1000) [long_of (whole 3)])) Binance BTCUSDT);
    reflexivity.
Defined.

(** A long entry on Upbit: positions, price, order, and nothing else. *)
Lemma other_venues_witness :
  let signal : Signal :=
    {[ "action" := VStr "long_entry"; "symbol" := VStr "BTC/KRW";
       "exchange" := VStr "upbit" ]} in
  let w := at_start (venue_with (whole 1000) []) in
  extends (fun c => binance_only c = false) w
          (snd (execute_signal engine0 signal w)) /\
  calls (snd (execute_signal engine0 signal w))
    = [CallFetchPositions Upbit ["BTC/KRW"];
       CallFetchPositions Upbit ["BTC/KRW"];
       CallFetchTicker Upbit "BTC/KRW";
       CallCreateMarketBuyOrder Upbit "BTC/KRW" (whole 2) false].
Proof.
  intros signal w. split; [| vm_compute; reflexivity].
  apply (other_venues_never_load_markets_or_set_leverage engine0 signal w
           Upbit (VStr "BTC/KRW")); reflexivity.
Defined.

(** A short entry on a venue that refuses to set the leverage. *)
Lemma leverage_failure_witness :
  let signal := signal_with "short_entry" "leverage" (VNum (Int 10)) in
  let w := at_start venue_without_leverage in
  let out := _execute_short_entry engine0 Binance BTCUSDT signal w in
  calls (snd out)
    = [CallLoadMarkets Binance; CallFetchPositions Binance ["BTCUSDT"];
       CallLoadMarkets Binance; CallFetchPositions Binance ["BTCUSDT"];
       CallLoadMarkets Binance;
       CallSetLeverage Binance (VNum (Int 10)) "BTCUSDT";
       CallFetchTicker Binance "BTCUSDT";
       CallCreateMarketSellOrder Binance "BTCUSDT" (whole 20) false] /\
  success (fst out) = true.
Proof.
  intros signal w out.
  set (w1 := snd (_get_position Binance BTCUSDT "long" w)).
  set (w2 := snd (_get_position Binance BTCUSDT "short" w1)).
  set (w3 := snd (_normalize_symbol Binance BTCUSDT w2)).
  destruct (leverage_failure_is_swallowed Short engine0 Binance BTCUSDT
              signal w w1 w2 "BTCUSDT" w3
              (ExchangeError "leverage not modified") venue_without_leverage
              {| last := VNum (whole 50) |} venue_without_leverage
              (VNum (Int 1000)) (whole 20))
    as [Hcalls Hsuccess]; [vm_compute; reflexivity .. |].
  simpl entry_handler in *. fold out in Hcalls, Hsuccess.
  split.
  - rewrite Hcalls. vm_compute. reflexivity.
  - apply Hsuccess. exists {| order_id := "1" |}. vm_compute. reflexivity.
Defined.

(** A numeric symbol sent to the Upbit handlers. *)
Lemma non_string_symbol_witness :
  let signal : Signal :=
    {[ "action" := VStr "long_exit"; "symbol" := VNum (Int 7);
       "exchange" := VStr "upbit" ]} in
  let w := at_start (venue_with (whole 1000) [long_of (whole 3)]) in
  execute_signal engine0 signal w
    = (informational MsgNoLongPosition signal, w).
Proof.
  intros signal w.
  destruct (non_string_symbol_never_reaches_venue Long engine0 Upbit (VNum (Int 7))
              signal w) as [_ Hexit]; [done |].
  rewrite (execute_signal_exit Long engine0 signal w eq_refl).
  simpl. apply Hexit. reflexivity.
Defined.


(** Three positions fetched, one of them empty. *)
Lemma get_positions_witness :
  fst (get_positions engine0 "binance"
         (venue_with (whole 1000) [long_of (whole 2); short_of (whole 0); short_of (whole 1)]))
    = Some [long_of (whole 2); short_of (whole 1)] /\
  get_positions engine0 "kraken" (venue_with (whole 1000) [long_of (whole 2)])
    = (None, venue_with (whole 1000) [long_of (whole 2)]).
Proof.
  split.
  - destruct (get_positions_keeps_open_positions engine0 "binance"
                (venue_with (whole 1000) [long_of (whole 2); short_of (whole 0); short_of (whole 1)]))
      as (_ & Hfetched & _).
    destruct (Hfetched Binance [long_of (whole 2); short_of (whole 0); short_of (whole 1)]
                (venue_with (whole 1000) [long_of (whole 2); short_of (whole 0); short_of (whole 1)])
                eq_refl eq_refl) as [Hall _].
    rewrite Hall; [reflexivity |].
    repeat constructor; by eexists.
  - destruct (get_positions_keeps_open_positions engine0 "kraken"
                (venue_with (whole 1000) [long_of (whole 2)])) as (Hunknown & _).
    apply Hunknown. reflexivity.
Defined.


(** The same save on a host whose file cannot be written. *)
Lemma save_api_keys_read_only_witness :
  let h : Host Secrets :=
    {| secrets_file := secrets_file host_with_upbit; writable := false;
       chmod_passes := true; entropy := 0 |} in
  let out := save_api_keys "binance" (VStr "b-key") (VStr "b-secret") h in
  fst out = false /\ get_api_keys "binance" (snd out) = None.
Proof.
  intros h out.
  destruct (save_api_keys_read_only "binance" (VStr "b-key")
              (VStr "b-secret") h eq_refl) as (Hko & _ & Hsame).
  split; [exact Hko |]. fold out in Hsame. rewrite Hsame. reflexivity.
Defined.



(** Keys for Upbit alone, and a registry that already holds Binance. *)
Lemma initialize_exchanges_witness :
  initialize_exchanges host_with_upbit {[ "binance" := Binance ]}
    = {[ "binance" := Binance; "upbit" := Upbit ]} /\
  is_Some (initialize_exchanges host_with_upbit {[ "binance" := Binance ]}
             !! "binance").
Proof.
  destruct (initialize_exchanges_only_adds host_with_upbit
              {[ "binance" := Binance ]}) as (Hkept & _ & _ & Hupbit).
  split; [vm_compute; reflexivity |].
  apply Hkept. by eexists.
Defined.

(** A file that sets the leverage and nothing else. *)
Lemma load_config_witness :
  let file : Config :=
    {[ "trading" := YMap {[ "default_leverage" := YScalar (VNum (Int 5)) ]} ]} in
  exists trading,
    load_config (Some (inr (YMap file))) !! "trading" = Some (YMap trading) /\
    trading !! "default_leverage" = Some (YScalar (VNum (Int 5))) /\
    trading !! "enable_trading" = Some (YScalar (VBool true)).
Proof.
  intros file.
  destruct load_config_lays_file_over_defaults as (_ & _ & _ & Hlaid & Hkept).
  destruct (Hkept file "trading"
              {[ "default_leverage" := YScalar (VNum (Int 5)) ]}
              {[ "default_exchange" := YScalar (VStr "binance");
                 "default_leverage" := YScalar (VNum (Int 1));
                 "max_position_size" := YScalar (VNum (Int 100));
                 "enable_trading" := YScalar (VBool true);
                 "margin_mode" := YScalar (VStr "isolated") ]}
              "enable_trading") as (trading & Hsection & Hfield);
    [by apply map_non_empty_singleton | reflexivity .. |].
  exists trading. split; [exact Hsection |]. split; [| by rewrite Hfield].
  rewrite (Hlaid file "trading") in Hsection by by apply map_non_empty_singleton.
  vm_compute in Hsection. injection Hsection as <-. vm_compute. reflexivity.
Defined.

(** A request from an unlisted address, and one whose header names the
    listed address. *)
Lemma webhook_whitelist_witness :
  let config := config_allowing "52.89.214.238" in
  let signal := signal_with "long_entry" "amount" (VNum (Int 100)) in
  let w := at_start (venue_with (whole 1000) []) in
  webhook config engine0 (post None "10.0.0.9" signal) w
    = ((403, UnauthorizedIp), w) /\
  fst (fst (webhook config engine0
              (post (Some "52.89.214.238") "10.0.0.9" signal) w)) <> 403.
Proof.
  intros config signal w.
  assert (forall request,
    let client_ip := default (remote_addr request) (forwarded_for request) in
    (existsb (yaml_is client_ip) [YScalar (VStr "52.89.214.238")] = false ->
     webhook config engine0 request w = ((403, UnauthorizedIp), w)) /\
    (forall ip,
       forwarded_for request = Some ip ->
       existsb (yaml_is ip) [YScalar (VStr "52.89.214.238")] = true ->
       fst (fst (webhook config engine0 request w)) <> 403 /\
       forall address,
         webhook config engine0 request w
           = webhook config engine0
               {| forwarded_for := Some ip; remote_addr := address;
                  is_json := is_json request; get_json := get_json request |}
               w)) as Hcheck.
  { intros request.
    apply (webhook_checks_forwarded_address (X := Script) config engine0
             request w
             {[ "require_ip_whitelist" := YScalar (VBool true);
                "allowed_ips" := YSeq [YScalar (VStr "52.89.214.238")] ]}
             (YScalar (VBool true)) [YScalar (VStr "52.89.214.238")]);
      reflexivity. }
  split.
  - apply (Hcheck (post None "10.0.0.9" signal)). reflexivity.
  - apply (Hcheck (post (Some "52.89.214.238") "10.0.0.9" signal)
             ) with (ip := "52.89.214.238"); reflexivity.
Defined.

(** A signal that the engine rejects: status 400 with the result. *)
Lemma webhook_status_witness :
  let signal := signal_with "long_exit" "percent" (VNum (Int 150)) in
  let w := at_start (venue_with (whole 1000) [long_of (whole 3)]) in
  let out := webhook get_default_config engine0
               (post None "10.0.0.9" signal) w in
  fst (fst out) = 400 /\
  exists sent, get_json (post None "10.0.0.9" signal) = inr (Some sent) /\
               execute_signal engine0 sent w
                 = (failure (MsgCloseRatioRange (VNum (Int 150))) signal, snd out).
Proof.
  intros signal w out.
  destruct (webhook_status_reflects_outcome get_default_config engine0
              (post None "10.0.0.9" signal) w) as (_ & Hresult & _).
  split; [vm_compute; reflexivity |].
  destruct (Hresult (failure (MsgCloseRatioRange (VNum (Int 150))) signal))
    as (sent & Hsent & _ & Hrun); [vm_compute; reflexivity |].
  by exists sent.
Defined.

(** A long entry posted to the test endpoint: the order is placed. *)
Lemma test_signal_witness :
  let signal := signal_with "long_entry" "amount" (VNum (Int 100)) in
  let w := at_start (venue_with (whole 1000) []) in
  let out := test_signal get_default_config engine0
               (post None "10.0.0.9" signal) w in
  snd (fst out) = get_default_config /\
  calls (snd out)
    = [CallLoadMarkets Binance; CallFetchPositions Binance ["BTCUSDT"];
       CallLoadMarkets Binance; CallFetchPositions Binance ["BTCUSDT"];
       CallLoadMarkets Binance; CallSetLeverage Binance (VNum (Int 1)) "BTCUSDT";
       CallFetchTicker Binance "BTCUSDT";
       CallCreateMarketBuyOrder Binance "BTCUSDT" (whole 2) false].
Proof.
  intros signal w out. unfold out.
  rewrite (test_signal_runs_the_engine get_default_config engine0
             (post None "10.0.0.9" signal) w
             {[ "default_exchange" := YScalar (VStr "binance");
                "default_leverage" := YScalar (VNum (Int 1));
                "max_position_size" := YScalar (VNum (Int 100));
                "enable_trading" := YScalar (VBool true);
                "margin_mode" := YScalar (VStr "isolated") ]}
             (YScalar (VBool true)) signal); [| reflexivity ..].
  split; [reflexivity | vm_compute; reflexivity].
Defined.
